(** * validatorXrag: the request-inspection gateway

    A shallow embedding of [validator_service/main.py] and
    [validator_service/incident_logger.py]: the payload inspection
    middleware (signature rules, regex rules, semantic fallback), the
    incident recorder with its technique mapping, the incident-intake
    endpoint, [mark_incident_handled], the listings and dashboard series of
    the read side, and [setup_database].

    Python's effects are written as a state-and-exception monad over a
    [world] that holds the four tables, the statements sent to the storage
    engine, the log, and the calls made to the analysis service.  An
    exception keeps the state reached when it was raised. *)

From Stdlib Require Import String Ascii List ZArith Bool Setoid.
From Stdlib Require Import DecimalString Sorted Permutation Lia.
Import ListNotations.
Local Open Scope string_scope.
Local Open Scope list_scope.
Local Open Scope Z_scope.

Infix "+++" := String.append (at level 60, right associativity).

(** ** Python strings *)

Module PyStr.

(** A Python [str] is held as its UTF-8 encoding, one [ascii] per byte: the
    characters of ASCII are one byte each, every other character is the two
    to four bytes [utf8] gives for its code point (the sharp s, U+00DF, is
    the two bytes [utf8 223], not the byte 223; a lone surrogate, which a
    JSON escape can bring, is the three bytes [utf8] gives for it).
    Concatenation, comparison, [startswith] and [in] on Python strings are
    the same operations on the encodings; [len], slicing and [upper] count
    and map characters, not bytes. *)
Definition utf8 (code_point : N) : string :=
  let byte (n : N) := ascii_of_N n in
  if (code_point <? 128)%N then
    String (byte code_point) EmptyString
  else if (code_point <? 2048)%N then
    String (byte (192 + code_point / 64)%N)
      (String (byte (128 + code_point mod 64)%N) EmptyString)
  else if (code_point <? 65536)%N then
    String (byte (224 + code_point / 4096)%N)
      (String (byte (128 + (code_point / 64) mod 64)%N)
         (String (byte (128 + code_point mod 64)%N) EmptyString))
  else
    String (byte (240 + code_point / 262144)%N)
      (String (byte (128 + (code_point / 4096) mod 64)%N)
         (String (byte (128 + (code_point / 64) mod 64)%N)
            (String (byte (128 + code_point mod 64)%N) EmptyString))).

(** A byte of ASCII, and a byte that continues a character begun before. *)
Definition is_ascii (c : ascii) : bool := (nat_of_ascii c <? 128)%nat.

Definition is_continuation (c : ascii) : bool :=
  ((128 <=? nat_of_ascii c) && (nat_of_ascii c <? 192))%nat.

(** [len(s)]: the number of characters. *)
Fixpoint len (s : string) : nat :=
  match s with
  | EmptyString => O
  | String c rest => if is_continuation c then len rest else S (len rest)
  end.

(** [s[:n]]: the first [n] characters. *)
Fixpoint take (n : nat) (s : string) : string :=
  match s with
  | EmptyString => EmptyString
  | String c rest =>
      if is_continuation c then String c (take n rest)
      else match n with
           | O => EmptyString
           | S m => String c (take m rest)
           end
  end.

(** [c.upper()] on a character of ASCII: the letters [a]..[z] go to
    [A]..[Z], the others have no capital. *)
Definition upper_char (c : ascii) : ascii :=
  let n := nat_of_ascii c in
  if (Nat.leb 97 n && Nat.leb n 122)%bool then ascii_of_nat (n - 32) else c.

(** [c.upper()] beyond ASCII: every character whose [upper()] is not the
    character itself, by code point, with the code points of its capital
    (the full case mapping of the Unicode character database, version 14,
    as CPython 3.11 has it: some capitals are two or three characters
    long, and some are ASCII letters). *)
Definition unicode_capitals : list (N * list N) := [
  (181, [924]); (223, [83; 83]); (224, [192]); (225, [193]); (226, [194]);
    (227, [195]); (228, [196]); (229, [197]); (230, [198]); (231, [199]);
    (232, [200]); (233, [201]); (234, [202]); (235, [203]); (236, [204]);
    (237, [205]); (238, [206]); (239, [207]); (240, [208]); (241, [209]);
    (242, [210]); (243, [211]); (244, [212]); (245, [213]); (246, [214]);
    (248, [216]); (249, [217]); (250, [218]); (251, [219]); (252, [220]);
    (253, [221]); (254, [222]); (255, [376]); (257, [256]); (259, [258]);
    (261, [260]); (263, [262]); (265, [264]); (267, [266]); (269, [268]);
    (271, [270]); (273, [272]); (275, [274]); (277, [276]); (279, [278]);
    (281, [280]); (283, [282]); (285, [284]); (287, [286]); (289, [288]);
    (291, [290]); (293, [292]); (295, [294]); (297, [296]); (299, [298]);
    (301, [300]); (303, [302]); (305, [73]); (307, [306]); (309, [308]);
    (311, [310]); (314, [313]); (316, [315]); (318, [317]); (320, [319]);
    (322, [321]); (324, [323]); (326, [325]); (328, [327]); (329, [700; 78]);
    (331, [330]); (333, [332]); (335, [334]); (337, [336]); (339, [338]);
    (341, [340]); (343, [342]); (345, [344]); (347, [346]); (349, [348]);
    (351, [350]); (353, [352]); (355, [354]); (357, [356]); (359, [358]);
    (361, [360]); (363, [362]); (365, [364]); (367, [366]); (369, [368]);
    (371, [370]); (373, [372]); (375, [374]); (378, [377]); (380, [379]);
    (382, [381]); (383, [83]); (384, [579]); (387, [386]); (389, [388]);
    (392, [391]); (396, [395]); (402, [401]); (405, [502]); (409, [408]);
    (410, [573]); (414, [544]); (417, [416]); (419, [418]); (421, [420]);
    (424, [423]); (429, [428]); (432, [431]); (436, [435]); (438, [437]);
    (441, [440]); (445, [444]); (447, [503]); (453, [452]); (454, [452]);
    (456, [455]); (457, [455]); (459, [458]); (460, [458]); (462, [461]);
    (464, [463]); (466, [465]); (468, [467]); (470, [469]); (472, [471]);
    (474, [473]); (476, [475]); (477, [398]); (479, [478]); (481, [480]);
    (483, [482]); (485, [484]); (487, [486]); (489, [488]); (491, [490]);
    (493, [492]); (495, [494]); (496, [74; 780]); (498, [497]); (499, [497]);
    (501, [500]); (505, [504]); (507, [506]); (509, [508]); (511, [510]);
    (513, [512]); (515, [514]); (517, [516]); (519, [518]); (521, [520]);
    (523, [522]); (525, [524]); (527, [526]); (529, [528]); (531, [530]);
    (533, [532]); (535, [534]); (537, [536]); (539, [538]); (541, [540]);
    (543, [542]); (547, [546]); (549, [548]); (551, [550]); (553, [552]);
    (555, [554]); (557, [556]); (559, [558]); (561, [560]); (563, [562]);
    (572, [571]); (575, [11390]); (576, [11391]); (578, [577]); (583, [582]);
    (585, [584]); (587, [586]); (589, [588]); (591, [590]); (592, [11375]);
    (593, [11373]); (594, [11376]); (595, [385]); (596, [390]); (598, [393]);
    (599, [394]); (601, [399]); (603, [400]); (604, [42923]); (608, [403]);
    (609, [42924]); (611, [404]); (613, [42893]); (614, [42922]);
    (616, [407]); (617, [406]); (618, [42926]); (619, [11362]);
    (620, [42925]); (623, [412]); (625, [11374]); (626, [413]); (629, [415]);
    (637, [11364]); (640, [422]); (642, [42949]); (643, [425]);
    (647, [42929]); (648, [430]); (649, [580]); (650, [433]); (651, [434]);
    (652, [581]); (658, [439]); (669, [42930]); (670, [42928]); (837, [921]);
    (881, [880]); (883, [882]); (887, [886]); (891, [1021]); (892, [1022]);
    (893, [1023]); (912, [921; 776; 769]); (940, [902]); (941, [904]);
    (942, [905]); (943, [906]); (944, [933; 776; 769]); (945, [913]);
    (946, [914]); (947, [915]); (948, [916]); (949, [917]); (950, [918]);
    (951, [919]); (952, [920]); (953, [921]); (954, [922]); (955, [923]);
    (956, [924]); (957, [925]); (958, [926]); (959, [927]); (960, [928]);
    (961, [929]); (962, [931]); (963, [931]); (964, [932]); (965, [933]);
    (966, [934]); (967, [935]); (968, [936]); (969, [937]); (970, [938]);
    (971, [939]); (972, [908]); (973, [910]); (974, [911]); (976, [914]);
    (977, [920]); (981, [934]); (982, [928]); (983, [975]); (985, [984]);
    (987, [986]); (989, [988]); (991, [990]); (993, [992]); (995, [994]);
    (997, [996]); (999, [998]); (1001, [1000]); (1003, [1002]);
    (1005, [1004]); (1007, [1006]); (1008, [922]); (1009, [929]);
    (1010, [1017]); (1011, [895]); (1013, [917]); (1016, [1015]);
    (1019, [1018]); (1072, [1040]); (1073, [1041]); (1074, [1042]);
    (1075, [1043]); (1076, [1044]); (1077, [1045]); (1078, [1046]);
    (1079, [1047]); (1080, [1048]); (1081, [1049]); (1082, [1050]);
    (1083, [1051]); (1084, [1052]); (1085, [1053]); (1086, [1054]);
    (1087, [1055]); (1088, [1056]); (1089, [1057]); (1090, [1058]);
    (1091, [1059]); (1092, [1060]); (1093, [1061]); (1094, [1062]);
    (1095, [1063]); (1096, [1064]); (1097, [1065]); (1098, [1066]);
    (1099, [1067]); (1100, [1068]); (1101, [1069]); (1102, [1070]);
    (1103, [1071]); (1104, [1024]); (1105, [1025]); (1106, [1026]);
    (1107, [1027]); (1108, [1028]); (1109, [1029]); (1110, [1030]);
    (1111, [1031]); (1112, [1032]); (1113, [1033]); (1114, [1034]);
    (1115, [1035]); (1116, [1036]); (1117, [1037]); (1118, [1038]);
    (1119, [1039]); (1121, [1120]); (1123, [1122]); (1125, [1124]);
    (1127, [1126]); (1129, [1128]); (1131, [1130]); (1133, [1132]);
    (1135, [1134]); (1137, [1136]); (1139, [1138]); (1141, [1140]);
    (1143, [1142]); (1145, [1144]); (1147, [1146]); (1149, [1148]);
    (1151, [1150]); (1153, [1152]); (1163, [1162]); (1165, [1164]);
    (1167, [1166]); (1169, [1168]); (1171, [1170]); (1173, [1172]);
    (1175, [1174]); (1177, [1176]); (1179, [1178]); (1181, [1180]);
    (1183, [1182]); (1185, [1184]); (1187, [1186]); (1189, [1188]);
    (1191, [1190]); (1193, [1192]); (1195, [1194]); (1197, [1196]);
    (1199, [1198]); (1201, [1200]); (1203, [1202]); (1205, [1204]);
    (1207, [1206]); (1209, [1208]); (1211, [1210]); (1213, [1212]);
    (1215, [1214]); (1218, [1217]); (1220, [1219]); (1222, [1221]);
    (1224, [1223]); (1226, [1225]); (1228, [1227]); (1230, [1229]);
    (1231, [1216]); (1233, [1232]); (1235, [1234]); (1237, [1236]);
    (1239, [1238]); (1241, [1240]); (1243, [1242]); (1245, [1244]);
    (1247, [1246]); (1249, [1248]); (1251, [1250]); (1253, [1252]);
    (1255, [1254]); (1257, [1256]); (1259, [1258]); (1261, [1260]);
    (1263, [1262]); (1265, [1264]); (1267, [1266]); (1269, [1268]);
    (1271, [1270]); (1273, [1272]); (1275, [1274]); (1277, [1276]);
    (1279, [1278]); (1281, [1280]); (1283, [1282]); (1285, [1284]);
    (1287, [1286]); (1289, [1288]); (1291, [1290]); (1293, [1292]);
    (1295, [1294]); (1297, [1296]); (1299, [1298]); (1301, [1300]);
    (1303, [1302]); (1305, [1304]); (1307, [1306]); (1309, [1308]);
    (1311, [1310]); (1313, [1312]); (1315, [1314]); (1317, [1316]);
    (1319, [1318]); (1321, [1320]); (1323, [1322]); (1325, [1324]);
    (1327, [1326]); (1377, [1329]); (1378, [1330]); (1379, [1331]);
    (1380, [1332]); (1381, [1333]); (1382, [1334]); (1383, [1335]);
    (1384, [1336]); (1385, [1337]); (1386, [1338]); (1387, [1339]);
    (1388, [1340]); (1389, [1341]); (1390, [1342]); (1391, [1343]);
    (1392, [1344]); (1393, [1345]); (1394, [1346]); (1395, [1347]);
    (1396, [1348]); (1397, [1349]); (1398, [1350]); (1399, [1351]);
    (1400, [1352]); (1401, [1353]); (1402, [1354]); (1403, [1355]);
    (1404, [1356]); (1405, [1357]); (1406, [1358]); (1407, [1359]);
    (1408, [1360]); (1409, [1361]); (1410, [1362]); (1411, [1363]);
    (1412, [1364]); (1413, [1365]); (1414, [1366]); (1415, [1333; 1362]);
    (4304, [7312]); (4305, [7313]); (4306, [7314]); (4307, [7315]);
    (4308, [7316]); (4309, [7317]); (4310, [7318]); (4311, [7319]);
    (4312, [7320]); (4313, [7321]); (4314, [7322]); (4315, [7323]);
    (4316, [7324]); (4317, [7325]); (4318, [7326]); (4319, [7327]);
    (4320, [7328]); (4321, [7329]); (4322, [7330]); (4323, [7331]);
    (4324, [7332]); (4325, [7333]); (4326, [7334]); (4327, [7335]);
    (4328, [7336]); (4329, [7337]); (4330, [7338]); (4331, [7339]);
    (4332, [7340]); (4333, [7341]); (4334, [7342]); (4335, [7343]);
    (4336, [7344]); (4337, [7345]); (4338, [7346]); (4339, [7347]);
    (4340, [7348]); (4341, [7349]); (4342, [7350]); (4343, [7351]);
    (4344, [7352]); (4345, [7353]); (4346, [7354]); (4349, [7357]);
    (4350, [7358]); (4351, [7359]); (5112, [5104]); (5113, [5105]);
    (5114, [5106]); (5115, [5107]); (5116, [5108]); (5117, [5109]);
    (7296, [1042]); (7297, [1044]); (7298, [1054]); (7299, [1057]);
    (7300, [1058]); (7301, [1058]); (7302, [1066]); (7303, [1122]);
    (7304, [42570]); (7545, [42877]); (7549, [11363]); (7566, [42950]);
    (7681, [7680]); (7683, [7682]); (7685, [7684]); (7687, [7686]);
    (7689, [7688]); (7691, [7690]); (7693, [7692]); (7695, [7694]);
    (7697, [7696]); (7699, [7698]); (7701, [7700]); (7703, [7702]);
    (7705, [7704]); (7707, [7706]); (7709, [7708]); (7711, [7710]);
    (7713, [7712]); (7715, [7714]); (7717, [7716]); (7719, [7718]);
    (7721, [7720]); (7723, [7722]); (7725, [7724]); (7727, [7726]);
    (7729, [7728]); (7731, [7730]); (7733, [7732]); (7735, [7734]);
    (7737, [7736]); (7739, [7738]); (7741, [7740]); (7743, [7742]);
    (7745, [7744]); (7747, [7746]); (7749, [7748]); (7751, [7750]);
    (7753, [7752]); (7755, [7754]); (7757, [7756]); (7759, [7758]);
    (7761, [7760]); (7763, [7762]); (7765, [7764]); (7767, [7766]);
    (7769, [7768]); (7771, [7770]); (7773, [7772]); (7775, [7774]);
    (7777, [7776]); (7779, [7778]); (7781, [7780]); (7783, [7782]);
    (7785, [7784]); (7787, [7786]); (7789, [7788]); (7791, [7790]);
    (7793, [7792]); (7795, [7794]); (7797, [7796]); (7799, [7798]);
    (7801, [7800]); (7803, [7802]); (7805, [7804]); (7807, [7806]);
    (7809, [7808]); (7811, [7810]); (7813, [7812]); (7815, [7814]);
    (7817, [7816]); (7819, [7818]); (7821, [7820]); (7823, [7822]);
    (7825, [7824]); (7827, [7826]); (7829, [7828]); (7830, [72; 817]);
    (7831, [84; 776]); (7832, [87; 778]); (7833, [89; 778]);
    (7834, [65; 702]); (7835, [7776]); (7841, [7840]); (7843, [7842]);
    (7845, [7844]); (7847, [7846]); (7849, [7848]); (7851, [7850]);
    (7853, [7852]); (7855, [7854]); (7857, [7856]); (7859, [7858]);
    (7861, [7860]); (7863, [7862]); (7865, [7864]); (7867, [7866]);
    (7869, [7868]); (7871, [7870]); (7873, [7872]); (7875, [7874]);
    (7877, [7876]); (7879, [7878]); (7881, [7880]); (7883, [7882]);
    (7885, [7884]); (7887, [7886]); (7889, [7888]); (7891, [7890]);
    (7893, [7892]); (7895, [7894]); (7897, [7896]); (7899, [7898]);
    (7901, [7900]); (7903, [7902]); (7905, [7904]); (7907, [7906]);
    (7909, [7908]); (7911, [7910]); (7913, [7912]); (7915, [7914]);
    (7917, [7916]); (7919, [7918]); (7921, [7920]); (7923, [7922]);
    (7925, [7924]); (7927, [7926]); (7929, [7928]); (7931, [7930]);
    (7933, [7932]); (7935, [7934]); (7936, [7944]); (7937, [7945]);
    (7938, [7946]); (7939, [7947]); (7940, [7948]); (7941, [7949]);
    (7942, [7950]); (7943, [7951]); (7952, [7960]); (7953, [7961]);
    (7954, [7962]); (7955, [7963]); (7956, [7964]); (7957, [7965]);
    (7968, [7976]); (7969, [7977]); (7970, [7978]); (7971, [7979]);
    (7972, [7980]); (7973, [7981]); (7974, [7982]); (7975, [7983]);
    (7984, [7992]); (7985, [7993]); (7986, [7994]); (7987, [7995]);
    (7988, [7996]); (7989, [7997]); (7990, [7998]); (7991, [7999]);
    (8000, [8008]); (8001, [8009]); (8002, [8010]); (8003, [8011]);
    (8004, [8012]); (8005, [8013]); (8016, [933; 787]); (8017, [8025]);
    (8018, [933; 787; 768]); (8019, [8027]); (8020, [933; 787; 769]);
    (8021, [8029]); (8022, [933; 787; 834]); (8023, [8031]); (8032, [8040]);
    (8033, [8041]); (8034, [8042]); (8035, [8043]); (8036, [8044]);
    (8037, [8045]); (8038, [8046]); (8039, [8047]); (8048, [8122]);
    (8049, [8123]); (8050, [8136]); (8051, [8137]); (8052, [8138]);
    (8053, [8139]); (8054, [8154]); (8055, [8155]); (8056, [8184]);
    (8057, [8185]); (8058, [8170]); (8059, [8171]); (8060, [8186]);
    (8061, [8187]); (8064, [7944; 921]); (8065, [7945; 921]);
    (8066, [7946; 921]); (8067, [7947; 921]); (8068, [7948; 921]);
    (8069, [7949; 921]); (8070, [7950; 921]); (8071, [7951; 921]);
    (8072, [7944; 921]); (8073, [7945; 921]); (8074, [7946; 921]);
    (8075, [7947; 921]); (8076, [7948; 921]); (8077, [7949; 921]);
    (8078, [7950; 921]); (8079, [7951; 921]); (8080, [7976; 921]);
    (8081, [7977; 921]); (8082, [7978; 921]); (8083, [7979; 921]);
    (8084, [7980; 921]); (8085, [7981; 921]); (8086, [7982; 921]);
    (8087, [7983; 921]); (8088, [7976; 921]); (8089, [7977; 921]);
    (8090, [7978; 921]); (8091, [7979; 921]); (8092, [7980; 921]);
    (8093, [7981; 921]); (8094, [7982; 921]); (8095, [7983; 921]);
    (8096, [8040; 921]); (8097, [8041; 921]); (8098, [8042; 921]);
    (8099, [8043; 921]); (8100, [8044; 921]); (8101, [8045; 921]);
    (8102, [8046; 921]); (8103, [8047; 921]); (8104, [8040; 921]);
    (8105, [8041; 921]); (8106, [8042; 921]); (8107, [8043; 921]);
    (8108, [8044; 921]); (8109, [8045; 921]); (8110, [8046; 921]);
    (8111, [8047; 921]); (8112, [8120]); (8113, [8121]); (8114, [8122; 921]);
    (8115, [913; 921]); (8116, [902; 921]); (8118, [913; 834]);
    (8119, [913; 834; 921]); (8124, [913; 921]); (8126, [921]);
    (8130, [8138; 921]); (8131, [919; 921]); (8132, [905; 921]);
    (8134, [919; 834]); (8135, [919; 834; 921]); (8140, [919; 921]);
    (8144, [8152]); (8145, [8153]); (8146, [921; 776; 768]);
    (8147, [921; 776; 769]); (8150, [921; 834]); (8151, [921; 776; 834]);
    (8160, [8168]); (8161, [8169]); (8162, [933; 776; 768]);
    (8163, [933; 776; 769]); (8164, [929; 787]); (8165, [8172]);
    (8166, [933; 834]); (8167, [933; 776; 834]); (8178, [8186; 921]);
    (8179, [937; 921]); (8180, [911; 921]); (8182, [937; 834]);
    (8183, [937; 834; 921]); (8188, [937; 921]); (8526, [8498]);
    (8560, [8544]); (8561, [8545]); (8562, [8546]); (8563, [8547]);
    (8564, [8548]); (8565, [8549]); (8566, [8550]); (8567, [8551]);
    (8568, [8552]); (8569, [8553]); (8570, [8554]); (8571, [8555]);
    (8572, [8556]); (8573, [8557]); (8574, [8558]); (8575, [8559]);
    (8580, [8579]); (9424, [9398]); (9425, [9399]); (9426, [9400]);
    (9427, [9401]); (9428, [9402]); (9429, [9403]); (9430, [9404]);
    (9431, [9405]); (9432, [9406]); (9433, [9407]); (9434, [9408]);
    (9435, [9409]); (9436, [9410]); (9437, [9411]); (9438, [9412]);
    (9439, [9413]); (9440, [9414]); (9441, [9415]); (9442, [9416]);
    (9443, [9417]); (9444, [9418]); (9445, [9419]); (9446, [9420]);
    (9447, [9421]); (9448, [9422]); (9449, [9423]); (11312, [11264]);
    (11313, [11265]); (11314, [11266]); (11315, [11267]); (11316, [11268]);
    (11317, [11269]); (11318, [11270]); (11319, [11271]); (11320, [11272]);
    (11321, [11273]); (11322, [11274]); (11323, [11275]); (11324, [11276]);
    (11325, [11277]); (11326, [11278]); (11327, [11279]); (11328, [11280]);
    (11329, [11281]); (11330, [11282]); (11331, [11283]); (11332, [11284]);
    (11333, [11285]); (11334, [11286]); (11335, [11287]); (11336, [11288]);
    (11337, [11289]); (11338, [11290]); (11339, [11291]); (11340, [11292]);
    (11341, [11293]); (11342, [11294]); (11343, [11295]); (11344, [11296]);
    (11345, [11297]); (11346, [11298]); (11347, [11299]); (11348, [11300]);
    (11349, [11301]); (11350, [11302]); (11351, [11303]); (11352, [11304]);
    (11353, [11305]); (11354, [11306]); (11355, [11307]); (11356, [11308]);
    (11357, [11309]); (11358, [11310]); (11359, [11311]); (11361, [11360]);
    (11365, [570]); (11366, [574]); (11368, [11367]); (11370, [11369]);
    (11372, [11371]); (11379, [11378]); (11382, [11381]); (11393, [11392]);
    (11395, [11394]); (11397, [11396]); (11399, [11398]); (11401, [11400]);
    (11403, [11402]); (11405, [11404]); (11407, [11406]); (11409, [11408]);
    (11411, [11410]); (11413, [11412]); (11415, [11414]); (11417, [11416]);
    (11419, [11418]); (11421, [11420]); (11423, [11422]); (11425, [11424]);
    (11427, [11426]); (11429, [11428]); (11431, [11430]); (11433, [11432]);
    (11435, [11434]); (11437, [11436]); (11439, [11438]); (11441, [11440]);
    (11443, [11442]); (11445, [11444]); (11447, [11446]); (11449, [11448]);
    (11451, [11450]); (11453, [11452]); (11455, [11454]); (11457, [11456]);
    (11459, [11458]); (11461, [11460]); (11463, [11462]); (11465, [11464]);
    (11467, [11466]); (11469, [11468]); (11471, [11470]); (11473, [11472]);
    (11475, [11474]); (11477, [11476]); (11479, [11478]); (11481, [11480]);
    (11483, [11482]); (11485, [11484]); (11487, [11486]); (11489, [11488]);
    (11491, [11490]); (11500, [11499]); (11502, [11501]); (11507, [11506]);
    (11520, [4256]); (11521, [4257]); (11522, [4258]); (11523, [4259]);
    (11524, [4260]); (11525, [4261]); (11526, [4262]); (11527, [4263]);
    (11528, [4264]); (11529, [4265]); (11530, [4266]); (11531, [4267]);
    (11532, [4268]); (11533, [4269]); (11534, [4270]); (11535, [4271]);
    (11536, [4272]); (11537, [4273]); (11538, [4274]); (11539, [4275]);
    (11540, [4276]); (11541, [4277]); (11542, [4278]); (11543, [4279]);
    (11544, [4280]); (11545, [4281]); (11546, [4282]); (11547, [4283]);
    (11548, [4284]); (11549, [4285]); (11550, [4286]); (11551, [4287]);
    (11552, [4288]); (11553, [4289]); (11554, [4290]); (11555, [4291]);
    (11556, [4292]); (11557, [4293]); (11559, [4295]); (11565, [4301]);
    (42561, [42560]); (42563, [42562]); (42565, [42564]); (42567, [42566]);
    (42569, [42568]); (42571, [42570]); (42573, [42572]); (42575, [42574]);
    (42577, [42576]); (42579, [42578]); (42581, [42580]); (42583, [42582]);
    (42585, [42584]); (42587, [42586]); (42589, [42588]); (42591, [42590]);
    (42593, [42592]); (42595, [42594]); (42597, [42596]); (42599, [42598]);
    (42601, [42600]); (42603, [42602]); (42605, [42604]); (42625, [42624]);
    (42627, [42626]); (42629, [42628]); (42631, [42630]); (42633, [42632]);
    (42635, [42634]); (42637, [42636]); (42639, [42638]); (42641, [42640]);
    (42643, [42642]); (42645, [42644]); (42647, [42646]); (42649, [42648]);
    (42651, [42650]); (42787, [42786]); (42789, [42788]); (42791, [42790]);
    (42793, [42792]); (42795, [42794]); (42797, [42796]); (42799, [42798]);
    (42803, [42802]); (42805, [42804]); (42807, [42806]); (42809, [42808]);
    (42811, [42810]); (42813, [42812]); (42815, [42814]); (42817, [42816]);
    (42819, [42818]); (42821, [42820]); (42823, [42822]); (42825, [42824]);
    (42827, [42826]); (42829, [42828]); (42831, [42830]); (42833, [42832]);
    (42835, [42834]); (42837, [42836]); (42839, [42838]); (42841, [42840]);
    (42843, [42842]); (42845, [42844]); (42847, [42846]); (42849, [42848]);
    (42851, [42850]); (42853, [42852]); (42855, [42854]); (42857, [42856]);
    (42859, [42858]); (42861, [42860]); (42863, [42862]); (42874, [42873]);
    (42876, [42875]); (42879, [42878]); (42881, [42880]); (42883, [42882]);
    (42885, [42884]); (42887, [42886]); (42892, [42891]); (42897, [42896]);
    (42899, [42898]); (42900, [42948]); (42903, [42902]); (42905, [42904]);
    (42907, [42906]); (42909, [42908]); (42911, [42910]); (42913, [42912]);
    (42915, [42914]); (42917, [42916]); (42919, [42918]); (42921, [42920]);
    (42933, [42932]); (42935, [42934]); (42937, [42936]); (42939, [42938]);
    (42941, [42940]); (42943, [42942]); (42945, [42944]); (42947, [42946]);
    (42952, [42951]); (42954, [42953]); (42961, [42960]); (42967, [42966]);
    (42969, [42968]); (42998, [42997]); (43859, [42931]); (43888, [5024]);
    (43889, [5025]); (43890, [5026]); (43891, [5027]); (43892, [5028]);
    (43893, [5029]); (43894, [5030]); (43895, [5031]); (43896, [5032]);
    (43897, [5033]); (43898, [5034]); (43899, [5035]); (43900, [5036]);
    (43901, [5037]); (43902, [5038]); (43903, [5039]); (43904, [5040]);
    (43905, [5041]); (43906, [5042]); (43907, [5043]); (43908, [5044]);
    (43909, [5045]); (43910, [5046]); (43911, [5047]); (43912, [5048]);
    (43913, [5049]); (43914, [5050]); (43915, [5051]); (43916, [5052]);
    (43917, [5053]); (43918, [5054]); (43919, [5055]); (43920, [5056]);
    (43921, [5057]); (43922, [5058]); (43923, [5059]); (43924, [5060]);
    (43925, [5061]); (43926, [5062]); (43927, [5063]); (43928, [5064]);
    (43929, [5065]); (43930, [5066]); (43931, [5067]); (43932, [5068]);
    (43933, [5069]); (43934, [5070]); (43935, [5071]); (43936, [5072]);
    (43937, [5073]); (43938, [5074]); (43939, [5075]); (43940, [5076]);
    (43941, [5077]); (43942, [5078]); (43943, [5079]); (43944, [5080]);
    (43945, [5081]); (43946, [5082]); (43947, [5083]); (43948, [5084]);
    (43949, [5085]); (43950, [5086]); (43951, [5087]); (43952, [5088]);
    (43953, [5089]); (43954, [5090]); (43955, [5091]); (43956, [5092]);
    (43957, [5093]); (43958, [5094]); (43959, [5095]); (43960, [5096]);
    (43961, [5097]); (43962, [5098]); (43963, [5099]); (43964, [5100]);
    (43965, [5101]); (43966, [5102]); (43967, [5103]); (64256, [70; 70]);
    (64257, [70; 73]); (64258, [70; 76]); (64259, [70; 70; 73]);
    (64260, [70; 70; 76]); (64261, [83; 84]); (64262, [83; 84]);
    (64275, [1348; 1350]); (64276, [1348; 1333]); (64277, [1348; 1339]);
    (64278, [1358; 1350]); (64279, [1348; 1341]); (65345, [65313]);
    (65346, [65314]); (65347, [65315]); (65348, [65316]); (65349, [65317]);
    (65350, [65318]); (65351, [65319]); (65352, [65320]); (65353, [65321]);
    (65354, [65322]); (65355, [65323]); (65356, [65324]); (65357, [65325]);
    (65358, [65326]); (65359, [65327]); (65360, [65328]); (65361, [65329]);
    (65362, [65330]); (65363, [65331]); (65364, [65332]); (65365, [65333]);
    (65366, [65334]); (65367, [65335]); (65368, [65336]); (65369, [65337]);
    (65370, [65338]); (66600, [66560]); (66601, [66561]); (66602, [66562]);
    (66603, [66563]); (66604, [66564]); (66605, [66565]); (66606, [66566]);
    (66607, [66567]); (66608, [66568]); (66609, [66569]); (66610, [66570]);
    (66611, [66571]); (66612, [66572]); (66613, [66573]); (66614, [66574]);
    (66615, [66575]); (66616, [66576]); (66617, [66577]); (66618, [66578]);
    (66619, [66579]); (66620, [66580]); (66621, [66581]); (66622, [66582]);
    (66623, [66583]); (66624, [66584]); (66625, [66585]); (66626, [66586]);
    (66627, [66587]); (66628, [66588]); (66629, [66589]); (66630, [66590]);
    (66631, [66591]); (66632, [66592]); (66633, [66593]); (66634, [66594]);
    (66635, [66595]); (66636, [66596]); (66637, [66597]); (66638, [66598]);
    (66639, [66599]); (66776, [66736]); (66777, [66737]); (66778, [66738]);
    (66779, [66739]); (66780, [66740]); (66781, [66741]); (66782, [66742]);
    (66783, [66743]); (66784, [66744]); (66785, [66745]); (66786, [66746]);
    (66787, [66747]); (66788, [66748]); (66789, [66749]); (66790, [66750]);
    (66791, [66751]); (66792, [66752]); (66793, [66753]); (66794, [66754]);
    (66795, [66755]); (66796, [66756]); (66797, [66757]); (66798, [66758]);
    (66799, [66759]); (66800, [66760]); (66801, [66761]); (66802, [66762]);
    (66803, [66763]); (66804, [66764]); (66805, [66765]); (66806, [66766]);
    (66807, [66767]); (66808, [66768]); (66809, [66769]); (66810, [66770]);
    (66811, [66771]); (66967, [66928]); (66968, [66929]); (66969, [66930]);
    (66970, [66931]); (66971, [66932]); (66972, [66933]); (66973, [66934]);
    (66974, [66935]); (66975, [66936]); (66976, [66937]); (66977, [66938]);
    (66979, [66940]); (66980, [66941]); (66981, [66942]); (66982, [66943]);
    (66983, [66944]); (66984, [66945]); (66985, [66946]); (66986, [66947]);
    (66987, [66948]); (66988, [66949]); (66989, [66950]); (66990, [66951]);
    (66991, [66952]); (66992, [66953]); (66993, [66954]); (66995, [66956]);
    (66996, [66957]); (66997, [66958]); (66998, [66959]); (66999, [66960]);
    (67000, [66961]); (67001, [66962]); (67003, [66964]); (67004, [66965]);
    (68800, [68736]); (68801, [68737]); (68802, [68738]); (68803, [68739]);
    (68804, [68740]); (68805, [68741]); (68806, [68742]); (68807, [68743]);
    (68808, [68744]); (68809, [68745]); (68810, [68746]); (68811, [68747]);
    (68812, [68748]); (68813, [68749]); (68814, [68750]); (68815, [68751]);
    (68816, [68752]); (68817, [68753]); (68818, [68754]); (68819, [68755]);
    (68820, [68756]); (68821, [68757]); (68822, [68758]); (68823, [68759]);
    (68824, [68760]); (68825, [68761]); (68826, [68762]); (68827, [68763]);
    (68828, [68764]); (68829, [68765]); (68830, [68766]); (68831, [68767]);
    (68832, [68768]); (68833, [68769]); (68834, [68770]); (68835, [68771]);
    (68836, [68772]); (68837, [68773]); (68838, [68774]); (68839, [68775]);
    (68840, [68776]); (68841, [68777]); (68842, [68778]); (68843, [68779]);
    (68844, [68780]); (68845, [68781]); (68846, [68782]); (68847, [68783]);
    (68848, [68784]); (68849, [68785]); (68850, [68786]); (71872, [71840]);
    (71873, [71841]); (71874, [71842]); (71875, [71843]); (71876, [71844]);
    (71877, [71845]); (71878, [71846]); (71879, [71847]); (71880, [71848]);
    (71881, [71849]); (71882, [71850]); (71883, [71851]); (71884, [71852]);
    (71885, [71853]); (71886, [71854]); (71887, [71855]); (71888, [71856]);
    (71889, [71857]); (71890, [71858]); (71891, [71859]); (71892, [71860]);
    (71893, [71861]); (71894, [71862]); (71895, [71863]); (71896, [71864]);
    (71897, [71865]); (71898, [71866]); (71899, [71867]); (71900, [71868]);
    (71901, [71869]); (71902, [71870]); (71903, [71871]); (93792, [93760]);
    (93793, [93761]); (93794, [93762]); (93795, [93763]); (93796, [93764]);
    (93797, [93765]); (93798, [93766]); (93799, [93767]); (93800, [93768]);
    (93801, [93769]); (93802, [93770]); (93803, [93771]); (93804, [93772]);
    (93805, [93773]); (93806, [93774]); (93807, [93775]); (93808, [93776]);
    (93809, [93777]); (93810, [93778]); (93811, [93779]); (93812, [93780]);
    (93813, [93781]); (93814, [93782]); (93815, [93783]); (93816, [93784]);
    (93817, [93785]); (93818, [93786]); (93819, [93787]); (93820, [93788]);
    (93821, [93789]); (93822, [93790]); (93823, [93791]); (125218, [125184]);
    (125219, [125185]); (125220, [125186]); (125221, [125187]);
    (125222, [125188]); (125223, [125189]); (125224, [125190]);
    (125225, [125191]); (125226, [125192]); (125227, [125193]);
    (125228, [125194]); (125229, [125195]); (125230, [125196]);
    (125231, [125197]); (125232, [125198]); (125233, [125199]);
    (125234, [125200]); (125235, [125201]); (125236, [125202]);
    (125237, [125203]); (125238, [125204]); (125239, [125205]);
    (125240, [125206]); (125241, [125207]); (125242, [125208]);
    (125243, [125209]); (125244, [125210]); (125245, [125211]);
    (125246, [125212]); (125247, [125213]); (125248, [125214]);
    (125249, [125215]); (125250, [125216]); (125251, [125217])
]%N.

(** The same table over the encodings. *)
Definition capitals : list (string * string) :=
  Eval vm_compute in
    map (fun entry => (utf8 (fst entry), String.concat EmptyString (map utf8 (snd entry))))
        unicode_capitals.

(** The character of the table that [s] begins with: its width in bytes and
    its capital. *)
Fixpoint capital_at (table : list (string * string)) (s : string) : option (nat * string) :=
  match table with
  | [] => None
  | (character, capital) :: rest =>
      if String.prefix character s then Some (String.length character, capital)
      else capital_at rest s
  end.

(** [s.upper()], character by character; [skip] counts the bytes still to
    pass over of a character whose capital has been written. *)
Fixpoint upper_from (skip : nat) (s : string) : string :=
  match s with
  | EmptyString => EmptyString
  | String c rest =>
      match skip with
      | S k => upper_from k rest
      | O =>
          if is_ascii c then String (upper_char c) (upper_from O rest)
          else match capital_at capitals s with
               | Some (width, capital) => capital +++ upper_from (width - 1) rest
               | None => String c (upper_from O rest)
               end
      end
  end.

Definition upper (s : string) : string := upper_from O s.

(** [s.startswith(p)] *)
Definition startswith (s p : string) : bool := String.prefix p s.

(** [s.startswith((p1, p2, ...))] *)
Definition startswith_any (s : string) (ps : list string) : bool :=
  existsb (startswith s) ps.

(** [needle in hay] *)
Fixpoint contains (needle hay : string) : bool :=
  if String.prefix needle hay then true
  else match hay with
       | EmptyString => false
       | String _ rest => contains needle rest
       end.

(** [sep.join(parts)] *)
Definition join (sep : string) (parts : list string) : string :=
  String.concat sep parts.

(** Truth value of a string: [if s:] *)
Definition truthy (s : string) : bool :=
  match s with EmptyString => false | _ => true end.

(** [os.getenv(key, default)] over the process environment *)
Definition getenv (environ : string -> option string) (key default : string) : string :=
  match environ key with
  | Some v => v
  | None => default
  end.

End PyStr.

(** ** JSON values, as [response.json()] and [request.json()] return them

    [JObject] lists the items of the [dict] an object parses to, each key
    once. *)

#[local] Set Warnings "-register-all".

Inductive json : Type :=
| JNull
| JBool (b : bool)
| JNumber (literal : string)
| JString (s : string)
| JArray (items : list json)
| JObject (members : list (string * json)).

(** Text is handed on where a Python value is expected. *)
Coercion JString : string >-> json.

Fixpoint assoc {A : Type} (k : string) (l : list (string * A)) : option A :=
  match l with
  | [] => None
  | (k', v) :: rest => if String.eqb k k' then Some v else assoc k rest
  end.

(** [v == "text"] for a JSON value [v]: only the string itself is equal. *)
Definition json_eq_str (v : json) (text : string) : bool :=
  match v with
  | JString s => String.eqb s text
  | _ => false
  end.

(** ** Rows of the four tables

    A column the code fills from a value it was given ([ip], [payload],
    [rule_triggered], [client_ip], [source], [signature]) holds that value:
    text, or [JNull] for NULL when the value is [None]; for a value that is
    neither, the row stands for what the driver stored for it, if it takes
    such a value at all.  The status of an incident is a column no insert
    of the code fills: it is NULL ([None]) or text. *)

Record incident_row := mk_incident {
  inc_id : Z;
  inc_timestamp : Z;
  inc_ip : json;
  inc_payload : json;
  rule_triggered : json;
  inc_status : option string
}.

Record request_row := mk_request {
  req_id : Z;
  req_timestamp : Z;
  req_status : string;
  req_client_ip : json
}.

Record ttp_row := mk_ttp {
  ttp_id : Z;
  ttp_timestamp : Z;
  ttp_incident_id : Z;
  technique_id : string;
  technique_name : string;
  ttp_description : string
}.

Record suricata_row := mk_suricata {
  sur_id : Z;
  sur_timestamp : Z;
  sur_source : json;
  sur_signature : json;
  sur_category : string;
  sur_severity : Z
}.

(** The statements the recorder hands to [database.execute]. *)
Inductive statement : Type :=
| InsertIncident (ip payload rule : json) (timestamp : Z)
| InsertTTP (incident_id : Z) (tid tname description : string) (timestamp : Z)
| InsertRequest (status : string) (client_ip : json) (timestamp : Z)
| InsertSuricata (timestamp : Z) (source signature : json) (category : string)
                 (severity : Z)
| UpdateHandled (incident_id : Z).

Record database_state := mk_db {
  incidents : list incident_row;
  requests : list request_row;
  ttps : list ttp_row;
  suricata_logs : list suricata_row;
  incidents_serial : Z;
  requests_serial : Z;
  ttps_serial : Z;
  suricata_serial : Z
}.

(** [UPDATE incidents SET status = 'handled' WHERE id = :id] on one row *)
Definition set_handled (id : Z) (r : incident_row) : incident_row :=
  if Z.eqb (inc_id r) id
  then mk_incident (inc_id r) (inc_timestamp r) (inc_ip r) (inc_payload r)
                   (rule_triggered r) (Some "handled")
  else r.

(** What the storage engine does with a statement it accepts, and the value
    [database.execute] gives back (the id of the inserted row; 0 for the
    update).  The incident insert names no status and the table is created
    without a default for the column (the [default="open"] of the Python
    table object is not applied by [databases]): the status of a new
    incident is NULL. *)
Definition run_statement (q : statement) (d : database_state) : database_state * Z :=
  match q with
  | InsertIncident ip payload rule ts =>
      let id := incidents_serial d + 1 in
      (mk_db (incidents d ++ [mk_incident id ts ip payload rule None])
             (requests d) (ttps d) (suricata_logs d)
             id (requests_serial d) (ttps_serial d) (suricata_serial d), id)
  | InsertTTP incident_id tid tname description ts =>
      let id := ttps_serial d + 1 in
      (mk_db (incidents d) (requests d)
             (ttps d ++ [mk_ttp id ts incident_id tid tname description])
             (suricata_logs d)
             (incidents_serial d) (requests_serial d) id (suricata_serial d), id)
  | InsertRequest status client_ip ts =>
      let id := requests_serial d + 1 in
      (mk_db (incidents d) (requests d ++ [mk_request id ts status client_ip])
             (ttps d) (suricata_logs d)
             (incidents_serial d) id (ttps_serial d) (suricata_serial d), id)
  | InsertSuricata ts source signature category severity =>
      let id := suricata_serial d + 1 in
      (mk_db (incidents d) (requests d) (ttps d)
             (suricata_logs d ++ [mk_suricata id ts source signature category severity])
             (incidents_serial d) (requests_serial d) (ttps_serial d) id, id)
  | UpdateHandled id =>
      (mk_db (map (set_handled id) (incidents d)) (requests d) (ttps d)
             (suricata_logs d)
             (incidents_serial d) (requests_serial d) (ttps_serial d)
             (suricata_serial d), 0)
  end.

(** ** The log *)

Inductive log_record : Type :=
| RequestLogged (status : string) (client_ip : json)  (* info *)
| FailedToLogRequest                                  (* error *)
| LoggedTTP (tid tname : string)                      (* info *)
| FailedToLogTTP                                      (* error *)
| IncidentLogged (incident_id : Z) (rule ip : json)   (* warning *)
| FailedToLogIncident                                 (* error, also the intake endpoint's *)
| SuricataAlertLogged (signature : json) (category : string)   (* info *)
| FailedToLogSuricataAlert                            (* error *)
| IncidentMarkedHandled (incident_id : Z)             (* info *)
| FailedToMarkHandled                                 (* error *)
| OwaspRuleTriggered (rule_name client_ip : string)   (* warning *)
| ErrorEvaluatingRule (rule_name : string)            (* error *)
| RegexRulesTriggered (triggered : list string)       (* warning *)
| ForwardingToRag                                     (* info *)
| RagIdentifiedMalicious (client_ip : string)         (* warning *)
| CouldNotConnectToRag.                               (* error *)

(** ** Exceptions *)

Inductive exn : Type :=
| DatabaseError          (* raised by database.execute *)
| RuleError              (* raised by a rule predicate *)
| RequestError           (* httpx.RequestError: timeout, connection refused, ... *)
| HTTPStatusError        (* httpx.HTTPStatusError, from raise_for_status *)
| JSONDecodeError        (* from response.json() / request.json() *)
| AttributeError         (* a method the value does not have *)
| HTTPException (status_code : Z) (detail : string).   (* fastapi.HTTPException *)

(** [except Exception]: every exception above is one. *)
Definition is_Exception (e : exn) : bool := true.

(** [except httpx.RequestError]: [HTTPStatusError] derives from
    [httpx.HTTPError], not from [httpx.RequestError]. *)
Definition is_RequestError (e : exn) : bool :=
  match e with RequestError => true | _ => false end.

(** [except HTTPException] *)
Definition is_HTTPException (e : exn) : bool :=
  match e with HTTPException _ _ => true | _ => false end.

(** ** The world and the monad *)

Record world := mk_world {
  db : database_state;
  (** what the storage engine will do with the coming statements, in order:
      [true] makes [database.execute] raise (the engine refuses the
      statement, or the driver a value it does not encode); past the end it
      succeeds *)
  faults : list bool;
  (** every statement sent to the engine, accepted or not *)
  executed : list statement;
  clock : Z;
  logs : list log_record;
  (** every POST made to the analysis service: (url, payload) *)
  rag_calls : list (string * string)
}.

Inductive result (A : Type) : Type :=
| Ok (a : A)
| Raised (e : exn).
Arguments Ok {A} a.
Arguments Raised {A} e.

Definition M (A : Type) : Type := world -> result A * world.

Definition ret {A} (a : A) : M A := fun w => (Ok a, w).

Definition raise {A} (e : exn) : M A := fun w => (Raised e, w).

Definition bind {A B} (m : M A) (k : A -> M B) : M B :=
  fun w =>
    match m w with
    | (Ok a, w') => k a w'
    | (Raised e, w') => (Raised e, w')
    end.

(** [try: m  except <catches> as e: handler e] *)
Definition try_except {A} (m : M A) (catches : exn -> bool) (handler : exn -> M A) : M A :=
  fun w =>
    match m w with
    | (Ok a, w') => (Ok a, w')
    | (Raised e, w') => if catches e then handler e w' else (Raised e, w')
    end.

(** [try: m  except C1 as e: h1 e  except C2 as e: h2 e ...]: the first
    clause that catches the exception handles it, and what a handler raises
    is not offered to the clauses after it. *)
Fixpoint handle {A} (clauses : list ((exn -> bool) * (exn -> M A))) (e : exn) : M A :=
  match clauses with
  | [] => raise e
  | (catches, handler) :: rest => if catches e then handler e else handle rest e
  end.

Definition try_clauses {A} (m : M A) (clauses : list ((exn -> bool) * (exn -> M A))) : M A :=
  fun w =>
    match m w with
    | (Ok a, w') => (Ok a, w')
    | (Raised e, w') => handle clauses e w'
    end.

Declare Scope py_scope.
Delimit Scope py_scope with py.
Notation "x <- m ;; k" := (bind m (fun x => k))
  (at level 100, m at next level, right associativity) : py_scope.
Notation "m ;; k" := (bind m (fun _ => k))
  (at level 100, right associativity) : py_scope.
Local Open Scope py_scope.

(** [for x in xs: body x] *)
Fixpoint for_each {A} (xs : list A) (body : A -> M unit) : M unit :=
  match xs with
  | [] => ret tt
  | x :: rest => body x ;; for_each rest body
  end.

(** [logging.info / warning / error] *)
Definition logging (r : log_record) : M unit :=
  fun w => (Ok tt, mk_world (db w) (faults w) (executed w) (clock w)
                            (logs w ++ [r]) (rag_calls w)).

(** [datetime.now(timezone.utc)] *)
Definition now : M Z :=
  fun w => (Ok (clock w), mk_world (db w) (faults w) (executed w) (clock w + 1)
                                   (logs w) (rag_calls w)).

(** [await database.execute(query)] *)
Definition execute (q : statement) : M Z :=
  fun w =>
    let fails := match faults w with [] => false | f :: _ => f end in
    if fails
    then (Raised DatabaseError,
          mk_world (db w) (tl (faults w)) (executed w ++ [q]) (clock w)
                   (logs w) (rag_calls w))
    else let (d, v) := run_statement q (db w) in
         (Ok v, mk_world d (tl (faults w)) (executed w ++ [q]) (clock w)
                         (logs w) (rag_calls w)).

(** [await database.execute(query, values=...)] for a [query] made with
    [text(...)].  [databases] binds the values itself only into a query it
    is given as a string; for any other query with values it calls the
    [values] method of the query, which the [TextClause] of [text(...)]
    does not have: the call raises before anything is sent.  Without
    values the query is sent as it is. *)
Definition execute_text (q : statement) (values : list (string * Z)) : M Z :=
  match values with
  | [] => execute q
  | _ :: _ => raise AttributeError
  end.

(** [needle in v.upper()]: only text has the method. *)
Definition in_upper (needle : string) (v : json) : M bool :=
  match v with
  | JString s => ret (PyStr.contains needle (PyStr.upper s))
  | _ => raise AttributeError
  end.

(** [v.startswith(prefix)] *)
Definition call_startswith (v : json) (prefix : string) : M bool :=
  match v with
  | JString s => ret (PyStr.startswith s prefix)
  | _ => raise AttributeError
  end.

(** ** incident_logger.py *)

Definition log_request (status : string) (client_ip : json) : M unit :=
  try_except
    (ts <- now ;;
     execute (InsertRequest status client_ip ts) ;;
     logging (RequestLogged status client_ip))
    is_Exception
    (fun _ => logging FailedToLogRequest).

Definition log_ttp (incident_id : Z) (tid tname description : string) : M unit :=
  try_except
    (ts <- now ;;
     execute (InsertTTP incident_id tid tname description ts) ;;
     logging (LoggedTTP tid tname))
    is_Exception
    (fun _ => logging FailedToLogTTP).

(** The signature says [ip: str, payload: str, rule: str]; nothing checks
    it, and the intake endpoint passes what the body holds. *)
Definition log_incident (ip payload rule : json) : M unit :=
  try_except
    (ts <- now ;;
     incident_id <- execute (InsertIncident ip payload rule ts) ;;
     logging (IncidentLogged incident_id rule ip) ;;
     sql <- in_upper "SQL" rule ;;
     (if sql : bool then
        log_ttp incident_id "T1190" "Exploit Public-Facing Application"
                "SQL Injection attempt detected."
      else
        xss <- in_upper "XSS" rule ;;
        if xss : bool then
          log_ttp incident_id "T1059.007" "Cross-Site Scripting (XSS)"
                  "Potential XSS attack detected."
        else ret tt) ;;
     log_request "error" ip)
    is_Exception
    (fun _ => logging FailedToLogIncident).

Definition log_suricata_alert (timestamp : Z) (source signature : json)
    (category : string) (severity : Z) : M unit :=
  try_except
    (execute (InsertSuricata timestamp source signature category severity) ;;
     logging (SuricataAlertLogged signature category))
    is_Exception
    (fun _ => logging FailedToLogSuricataAlert).

Definition mark_incident_handled (incident_id : Z) : M bool :=
  try_except
    (execute_text (UpdateHandled incident_id) [("id", incident_id)] ;;
     logging (IncidentMarkedHandled incident_id) ;;
     ret true)
    is_Exception
    (fun _ => logging FailedToMarkHandled ;; ret false).

(** ** main.py *)

(** The part of a [Request] the service reads.  [body] is the decoded text
    of [await request.body()], [None] when reading it raises; [client] is
    [request.client.host]. *)
Record request := mk_request_in {
  path : string;
  query : string;
  client : option string;
  body : option string
}.

Inductive response : Type :=
| JSONResponse (status_code : Z) (content : list (string * string))
| Forwarded.   (* the response of [call_next(request)] *)

(** What calling a rule predicate on a payload does. *)
Inductive verdict : Type := Truthy | Falsy | Raises.

(** A value of the [OWASP_RULES] mapping. *)
Inductive rule_fn : Type :=
| NotCallable
| Callable (f : string -> verdict).

(** What [client.post(url, json={"payload": payload})] comes to: a
    transport failure, or a response with a status code and a body that
    [response.json()] parses ([None] when it does not). *)
Inductive rag_reply : Type :=
| TransportFailure
| HttpReply (status : Z) (parsed : option json).

(** [response.raise_for_status()] lets the 2xx codes through. *)
Definition is_success (status : Z) : bool :=
  (200 <=? status) && (status <=? 299).

(** The body of [POST /api/incidents], as [await request.json()] gives it:
    the call raises, or it gives a JSON value that is no object, or it
    gives an object, with members of any JSON value. *)
Inductive intake_body : Type :=
| Unparseable
| NotAnObject
| Members (members : list (string * json)).

(** ** The vocabulary of the statements *)

(** "[s] contains [needle], letter case ignored", for a [needle] in upper
    case: [needle] occurs in [s] once [s] is put in upper case, character
    by character, as [str.upper] does. *)
Definition contains_ignoring_case (needle s : string) : Prop :=
  PyStr.contains needle (PyStr.upper s) = true.

(** A column value that is text, and not the empty text. *)
Definition nonempty_text (v : json) : Prop :=
  exists text, v = JString text /\ text <> EmptyString.

(** No statement to come is refused by the storage engine. *)
Definition no_fault (w : world) : bool := forallb negb (faults w).

(** The storage engine accepts the [n]-th statement to come. *)
Definition accepts (n : nat) (w : world) : bool := negb (nth n (faults w) false).

(** Only the log differs between [w] and [w']. *)
Definition only_logged (w w' : world) : Prop :=
  db w' = db w /\ faults w' = faults w /\ executed w' = executed w /\
  clock w' = clock w /\ rag_calls w' = rag_calls w.

(** The (ip, payload, rule) of the incident inserts among some statements. *)
Fixpoint incident_inserts (qs : list statement) : list (json * json * json) :=
  match qs with
  | [] => []
  | InsertIncident ip payload rule _ :: rest => (ip, payload, rule) :: incident_inserts rest
  | _ :: rest => incident_inserts rest
  end.

(** The status of the request-outcome inserts among some statements. *)
Fixpoint request_inserts (qs : list statement) : list string :=
  match qs with
  | [] => []
  | InsertRequest status _ _ :: rest => status :: request_inserts rest
  | _ :: rest => request_inserts rest
  end.

(** The technique rows the recorder derives from a rule name, for the
    incident [incident_id], with row id [id] and timestamp [ts]. *)
Definition derived_ttps (rule : string) (id ts incident_id : Z) : list ttp_row :=
  if PyStr.contains "SQL" (PyStr.upper rule) then
    [mk_ttp id ts incident_id "T1190" "Exploit Public-Facing Application"
            "SQL Injection attempt detected."]
  else if PyStr.contains "XSS" (PyStr.upper rule) then
    [mk_ttp id ts incident_id "T1059.007" "Cross-Site Scripting (XSS)"
            "Potential XSS attack detected."]
  else [].

(** Whether the recorder derives a technique row from a rule name, and the
    place of the request-outcome insert among the statements of one call. *)
Definition has_technique (rule : string) : bool :=
  PyStr.contains "SQL" (PyStr.upper rule) || PyStr.contains "XSS" (PyStr.upper rule).

Definition outcome_index (rule : string) : nat :=
  if has_technique rule then 2%nat else 1%nat.

Definition empty_db : database_state := mk_db [] [] [] [] 0 0 0 0.

(** A world with empty tables whose engine follows the schedule [fs]. *)
Definition fresh_world (fs : list bool) : world := mk_world empty_db fs [] 0 [] [].

(** A rule entry matches a payload: it is callable and returns a true
    value; an entry that raises does not match. *)
Definition rule_hits (fn : rule_fn) (payload : string) : bool :=
  match fn with
  | NotCallable => false
  | Callable f => match f payload with Truthy => true | _ => false end
  end.

Definition all_miss (rules : list (string * rule_fn)) (payload : string) : Prop :=
  forall name fn, In (name, fn) rules -> rule_hits fn payload = false.

(** From [w] to [w'] the incidents table only grew, by rows whose rule
    name satisfies [P]. *)
Definition records (P : json -> Prop) (w w' : world) : Prop :=
  exists rows,
    incidents (db w') = incidents (db w) ++ rows /\
    Forall (fun r => P (rule_triggered r)) rows.

(** The tables, the fault schedule, the statements and the clock are the
    same in [w] and [w']; the log and the calls to the analysis service may
    differ. *)
Definition untouched (w w' : world) : Prop :=
  db w' = db w /\ faults w' = faults w /\ executed w' = executed w /\
  clock w' = clock w.

Section Gateway.

(** The process environment at start. *)
Variable environ : string -> option string.

(** [owasp_rules.OWASP_RULES], in its insertion order, and
    [regex_rules.check_regex_rules]: [main.py] imports the two rule modules
    and only reads them, so they are parameters here. *)
Variable OWASP_RULES : list (string * rule_fn).
Variable check_regex_rules : string -> list string.

(** The analysis service, as seen through [httpx]. *)
Variable rag_service : string -> string -> rag_reply.

(** [str(v)] for a JSON value that is not a string, and [str(e)]. *)
Variable str_value : json -> string.
Variable str_exn : exn -> string.

Definition ADMIN_KEY : string :=
  PyStr.getenv environ "ADMIN_KEY" "supersecretadminkey".

Definition RAG_SERVICE_URL : string :=
  PyStr.getenv environ "RAG_SERVICE_URL" "http://rag-service:8000/analyze-payload".

Definition admin_auth (key : string) : M unit :=
  if String.eqb key ADMIN_KEY then ret tt
  else raise (HTTPException 401 "Unauthorized access.").

(** [await call_next(request)] *)
Definition call_next (r : request) : M response := ret Forwarded.

(** [callable(rule_fn) and rule_fn(payload)] *)
Definition call_rule (fn : rule_fn) (payload : string) : M bool :=
  match fn with
  | NotCallable => ret false
  | Callable f =>
      match f payload with
      | Truthy => ret true
      | Falsy => ret false
      | Raises => raise RuleError
      end
  end.

(** The loop over [OWASP_RULES.items()]; [Some r] is the [return r] inside
    the loop. *)
Fixpoint owasp_scan (rules : list (string * rule_fn)) (client_ip payload : string)
    : M (option response) :=
  match rules with
  | [] => ret None
  | (rule_name, fn) :: rest =>
      r <- try_except
             (hit <- call_rule fn payload ;;
              if hit : bool then
                logging (OwaspRuleTriggered rule_name client_ip) ;;
                log_incident client_ip payload rule_name ;;
                ret (Some (JSONResponse 403
                       [("detail", "Blocked by OWASP rule: " +++ rule_name)]))
              else ret None)
             is_Exception
             (fun _ => logging (ErrorEvaluatingRule rule_name) ;; ret None) ;;
      match r with
      | Some resp => ret (Some resp)
      | None => owasp_scan rest client_ip payload
      end
  end.

(** [f"{v}"] *)
Definition format_value (v : json) : string :=
  match v with
  | JString s => s
  | _ => str_value v
  end.

(** [rag_data.get(key, default)] *)
Definition dict_get (data : json) (key : string) (default : json) : M json :=
  match data with
  | JObject members =>
      ret (match assoc key members with Some v => v | None => default end)
  | _ => raise AttributeError
  end.

(** [client.post], [raise_for_status], [response.json()] *)
Definition rag_request (url payload : string) : M json :=
  fun w =>
    let w' := mk_world (db w) (faults w) (executed w) (clock w) (logs w)
                       (rag_calls w ++ [(url, payload)]) in
    match rag_service url payload with
    | TransportFailure => (Raised RequestError, w')
    | HttpReply status parsed =>
        if is_success status then
          match parsed with
          | Some data => (Ok data, w')
          | None => (Raised JSONDecodeError, w')
          end
        else (Raised HTTPStatusError, w')
    end.

(** The combined text the detectors see. *)
Definition payload_of (r : request) : string :=
  (match body r with Some text => text | None => EmptyString end) +++ query r.

Definition client_ip_of (r : request) : string :=
  match client r with Some host => host | None => "unknown" end.

Definition bypassed (r : request) : bool :=
  PyStr.startswith_any (path r) ["/api/"; "/admin"; "/health"].

(** The semantic stage; [Some r] is a [return r] inside it. *)
Definition rag_stage (client_ip payload : string) : M (option response) :=
  if PyStr.truthy RAG_SERVICE_URL then
    logging ForwardingToRag ;;
    try_except
      (rag_data <- rag_request RAG_SERVICE_URL payload ;;
       v <- dict_get rag_data "verdict" JNull ;;
       if json_eq_str v "malicious" then
         pattern <- dict_get rag_data "detected_pattern" (JString "Unknown Pattern") ;;
         let rule_name := "RAG: " +++ format_value pattern in
         logging (RagIdentifiedMalicious client_ip) ;;
         log_incident client_ip payload rule_name ;;
         ret (Some (JSONResponse 403
                [("detail", "Blocked by RAG analysis: " +++ rule_name)]))
       else ret None)
      is_RequestError
      (fun _ =>
         logging CouldNotConnectToRag ;;
         ret (Some (JSONResponse 503
                [("detail", "Service Unavailable: Analysis service is down.")])))
  else ret None.

Definition payload_inspection_middleware (r : request) : M response :=
  if bypassed r then call_next r
  else
    let client_ip := client_ip_of r in
    let payload := payload_of r in
    hit <- owasp_scan OWASP_RULES client_ip payload ;;
    match hit with
    | Some resp => ret resp
    | None =>
        let triggered := check_regex_rules payload in
        match triggered with
        | _ :: _ =>
            logging (RegexRulesTriggered triggered) ;;
            for_each triggered (fun name => log_incident client_ip payload name) ;;
            ret (JSONResponse 403
                   [("detail", "Blocked by Regex rule(s): " +++ PyStr.join ", " triggered)])
        | [] =>
            blocked <- rag_stage client_ip payload ;;
            match blocked with
            | Some resp => ret resp
            | None =>
                log_request "success" client_ip ;;
                call_next r
            end
        end
    end.

(** [POST /api/incidents?key=...] *)
Definition add_incident (key : string) (data : intake_body) : M response :=
  try_clauses
    (admin_auth key ;;
     match data with
     | Unparseable => raise JSONDecodeError
     | NotAnObject => raise AttributeError
     | Members members =>
         let ip := match assoc "ip" members with
                   | Some v => v | None => JString "unknown" end in
         let payload := match assoc "payload" members with
                        | Some v => v | None => JString EmptyString end in
         let rule := match assoc "rule" members with
                     | Some v => v | None => JString "Unknown" end in
         log_incident ip payload rule ;;
         suricata <- call_startswith rule "SURICATA" ;;
         (if suricata : bool then
            ts <- now ;;
            log_suricata_alert ts ip rule "Suricata Alert" 2
          else ret tt) ;;
         ret (JSONResponse 200
                [("status", "success"); ("message", "Incident logged successfully")])
     end)
    [ (is_HTTPException, fun e => raise e);
      (is_Exception,
       fun e =>
         logging FailedToLogIncident ;;
         ret (JSONResponse 500 [("status", "error"); ("message", str_exn e)])) ].

(** *** What the statements say about [main.py] *)

(** The [verdict] member of a response object, and the rule name the
    semantic stage builds from its [detected_pattern] member. *)
Definition verdict_of (members : list (string * json)) : json :=
  match assoc "verdict" members with Some v => v | None => JNull end.

Definition rag_rule_name (members : list (string * json)) : string :=
  "RAG: " +++
  format_value
    (match assoc "detected_pattern" members with
     | Some v => v
     | None => JString "Unknown Pattern"
     end).

Definition service_unavailable : response :=
  JSONResponse 503 [("detail", "Service Unavailable: Analysis service is down.")].

(** The exception that leaves the semantic stage for a reply that is no
    transport failure and no well-formed object: a status outside 2xx, a
    body that does not parse, a JSON value without [.get]. *)
Definition rag_escape (reply : rag_reply) : option exn :=
  match reply with
  | TransportFailure => None
  | HttpReply status parsed =>
      if is_success status then
        match parsed with
        | None => Some JSONDecodeError
        | Some (JObject _) => None
        | Some _ => Some AttributeError
        end
      else Some HTTPStatusError
  end.

(** The paths of one inspected request, from world [w] to the result and
    the world the middleware ends in. *)
Inductive inspected (r : request) (w : world) : result response -> world -> Prop :=
| by_signature pre name fn post w1 w' :
    OWASP_RULES = pre ++ (name, fn) :: post ->
    all_miss pre (payload_of r) ->
    rule_hits fn (payload_of r) = true ->
    only_logged w w1 ->
    log_incident (client_ip_of r) (payload_of r) name w1 = (Ok tt, w') ->
    inspected r w
      (Ok (JSONResponse 403 [("detail", "Blocked by OWASP rule: " +++ name)])) w'
| by_regex w1 w' :
    all_miss OWASP_RULES (payload_of r) ->
    check_regex_rules (payload_of r) <> [] ->
    only_logged w w1 ->
    for_each (check_regex_rules (payload_of r))
             (fun name => log_incident (client_ip_of r) (payload_of r) name) w1
      = (Ok tt, w') ->
    inspected r w
      (Ok (JSONResponse 403
             [("detail", "Blocked by Regex rule(s): " +++
                         PyStr.join ", " (check_regex_rules (payload_of r)))])) w'
| allowed_unchecked w1 w' :
    all_miss OWASP_RULES (payload_of r) ->
    check_regex_rules (payload_of r) = [] ->
    PyStr.truthy RAG_SERVICE_URL = false ->
    only_logged w w1 ->
    log_request "success" (client_ip_of r) w1 = (Ok tt, w') ->
    inspected r w (Ok Forwarded) w'
| rag_unreachable w' :
    all_miss OWASP_RULES (payload_of r) ->
    check_regex_rules (payload_of r) = [] ->
    PyStr.truthy RAG_SERVICE_URL = true ->
    rag_service RAG_SERVICE_URL (payload_of r) = TransportFailure ->
    untouched w w' ->
    rag_calls w' = rag_calls w ++ [(RAG_SERVICE_URL, payload_of r)] ->
    inspected r w (Ok service_unavailable) w'
| rag_escapes e w' :
    all_miss OWASP_RULES (payload_of r) ->
    check_regex_rules (payload_of r) = [] ->
    PyStr.truthy RAG_SERVICE_URL = true ->
    rag_escape (rag_service RAG_SERVICE_URL (payload_of r)) = Some e ->
    untouched w w' ->
    rag_calls w' = rag_calls w ++ [(RAG_SERVICE_URL, payload_of r)] ->
    inspected r w (Raised e) w'
| by_rag status members w1 w' :
    all_miss OWASP_RULES (payload_of r) ->
    check_regex_rules (payload_of r) = [] ->
    PyStr.truthy RAG_SERVICE_URL = true ->
    rag_service RAG_SERVICE_URL (payload_of r) = HttpReply status (Some (JObject members)) ->
    is_success status = true ->
    json_eq_str (verdict_of members) "malicious" = true ->
    untouched w w1 ->
    rag_calls w1 = rag_calls w ++ [(RAG_SERVICE_URL, payload_of r)] ->
    log_incident (client_ip_of r) (payload_of r) (rag_rule_name members) w1 = (Ok tt, w') ->
    inspected r w
      (Ok (JSONResponse 403
             [("detail", "Blocked by RAG analysis: " +++ rag_rule_name members)])) w'
| allowed_by_rag status members w1 w' :
    all_miss OWASP_RULES (payload_of r) ->
    check_regex_rules (payload_of r) = [] ->
    PyStr.truthy RAG_SERVICE_URL = true ->
    rag_service RAG_SERVICE_URL (payload_of r) = HttpReply status (Some (JObject members)) ->
    is_success status = true ->
    json_eq_str (verdict_of members) "malicious" = false ->
    untouched w w1 ->
    rag_calls w1 = rag_calls w ++ [(RAG_SERVICE_URL, payload_of r)] ->
    log_request "success" (client_ip_of r) w1 = (Ok tt, w') ->
    inspected r w (Ok Forwarded) w'.

(** The number of incidents a 403 answer stands for: one for a signature
    match, one per matching name for a regex match, one for a semantic
    block. *)
Definition incident_count (r : request) : nat :=
  if existsb (fun entry => rule_hits (snd entry) (payload_of r)) OWASP_RULES then 1%nat
  else match check_regex_rules (payload_of r) with
       | [] => 1%nat
       | names => length names
       end.

(** The rule the intake endpoint passes on for a body. *)
Definition intake_rule (members : list (string * json)) : json :=
  match assoc "rule" members with Some v => v | None => JString "Unknown" end.

End Gateway.

(** ** A sample deployment *)

Definition matching (needle : string) : rule_fn :=
  Callable (fun payload => if PyStr.contains needle payload then Truthy else Falsy).

Definition sample_rules : list (string * rule_fn) :=
  [ ("Broken", Callable (fun _ => Raises));
    ("Disabled", NotCallable);
    ("PathTraversal", matching "../");
    ("SQLInjection", matching "' OR 1=1");
    ("SQLComment", matching "--") ].

Definition sample_regex (payload : string) : list string :=
  (if PyStr.contains "<script" payload then ["XSS_SCRIPT_TAG"] else []) ++
  (if PyStr.contains "onerror=" payload then ["XSS_EVENT_HANDLER"] else []).

(** No variable is set: every setting takes its default. *)
Definition no_environ : string -> option string := fun _ => None.

(** The service location is set to the empty string. *)
Definition empty_location : string -> option string :=
  fun key => if String.eqb key "RAG_SERVICE_URL" then Some EmptyString else None.

Definition rag_benign : string -> string -> rag_reply :=
  fun _ _ => HttpReply 200 (Some (JObject [("verdict", JString "benign");
                                           ("reason", JString "Similarity score below threshold.")])).

Definition rag_odd_verdict : string -> string -> rag_reply :=
  fun _ _ => HttpReply 200 (Some (JObject [("verdict", JString "Malicious")])).

Definition rag_down : string -> string -> rag_reply := fun _ _ => TransportFailure.

(** The analysis service answers its own failure with status 500. *)
Definition rag_error : string -> string -> rag_reply :=
  fun _ _ => HttpReply 500 (Some (JObject [("detail", JString "Error during analysis")])).

(** A 2xx answer whose body parses, to [null]. *)
Definition rag_null : string -> string -> rag_reply := fun _ _ => HttpReply 200 (Some JNull).

Definition sample_str_value : json -> string := fun _ => "None".
Definition sample_str_exn : exn -> string := fun _ => "error".

Definition post_request (text : string) : request :=
  mk_request_in "/login" EmptyString (Some "203.0.113.7") (Some text).

(** ** The vocabulary of the further statements *)

(** The two status columns: no insert gives an incident a status, and a
    request outcome is a [success] or an [error]. *)
Definition incident_status_ok (r : incident_row) : Prop :=
  inc_status r = None.

Definition request_status_ok (r : request_row) : Prop :=
  req_status r = "success" \/ req_status r = "error".

(** The technique row [t] points to one of the incidents [rows]. *)
Definition refers_to (rows : list incident_row) (t : ttp_row) : Prop :=
  In (ttp_incident_id t) (map inc_id rows).

(** From [d] to [d'] rows were only added, at the end of each table, the
    rows of [d] staying as they were: new incidents have no status, new
    request outcomes are [success] or [error], and every new technique row
    points to an incident of [d']. *)
Definition extends (d d' : database_state) : Prop :=
  exists i q t s,
    incidents d' = incidents d ++ i /\
    requests d' = requests d ++ q /\
    ttps d' = ttps d ++ t /\
    suricata_logs d' = suricata_logs d ++ s /\
    Forall (fun r => inc_status r = None) i /\
    Forall request_status_ok q /\
    Forall (refers_to (incidents d')) t.

(** What the recorder keeps true of the tables. *)
Definition consistent (d : database_state) : Prop :=
  Forall incident_status_ok (incidents d) /\
  Forall request_status_ok (requests d) /\
  Forall (refers_to (incidents d)) (ttps d).

(** A logger that hands the single statement [q] to the engine and keeps
    its failure to itself: from [w] to [w'] the statement was attempted
    once; accepted, it has its effect on the tables and [done] is logged;
    refused, the tables stay as they were and [failure] is logged. *)
Definition best_effort_write (q : statement) (done failure : log_record)
    (w w' : world) : Prop :=
  executed w' = executed w ++ [q] /\
  faults w' = tl (faults w) /\
  rag_calls w' = rag_calls w /\
  (accepts 0 w = true ->
     db w' = fst (run_statement q (db w)) /\ logs w' = logs w ++ [done]) /\
  (accepts 0 w = false ->
     db w' = db w /\ logs w' = logs w ++ [failure]).

(** An incident row without its status. *)
Definition incident_facts (r : incident_row) : Z * Z * json * json * json :=
  (inc_id r, inc_timestamp r, inc_ip r, inc_payload r, rule_triggered r).

(** Whether the inspection of a request gets as far as the semantic stage
    and makes the call: the path is not a bypassed one, no signature rule
    and no regex rule matches, and a service location is set. *)
Definition semantic_stage_reached (environ : string -> option string)
    (rules : list (string * rule_fn)) (regex : string -> list string)
    (r : request) : bool :=
  negb (bypassed r) &&
  negb (existsb (fun entry => rule_hits (snd entry) (payload_of r)) rules) &&
  match regex (payload_of r) with [] => true | _ :: _ => false end &&
  PyStr.truthy (RAG_SERVICE_URL environ).

(** The (source, signature, category, severity) of the alert inserts among
    some statements. *)
Fixpoint alert_inserts (qs : list statement) : list (json * json * string * Z) :=
  match qs with
  | [] => []
  | InsertSuricata _ source signature category severity :: rest =>
      (source, signature, category, severity) :: alert_inserts rest
  | _ :: rest => alert_inserts rest
  end.

(** The values the intake endpoint reads from a body, with the defaults it
    takes for absent members. *)
Definition intake_ip (members : list (string * json)) : json :=
  match assoc "ip" members with Some v => v | None => JString "unknown" end.

Definition intake_payload (members : list (string * json)) : json :=
  match assoc "payload" members with Some v => v | None => JString EmptyString end.

(** Two bodies for the intake endpoint: an alert of the Suricata watcher,
    and a body whose [rule] is [null]. *)
Definition suricata_body : list (string * json) :=
  [("ip", JString "10.0.0.9"); ("rule", JString "SURICATA ET SCAN")].

Definition null_rule_body : list (string * json) :=
  [("ip", JString "10.0.0.9"); ("payload", JString "probe"); ("rule", JNull)].


(** ** The read side: listings and dashboard series *)

(** The error lines of the read side. *)
Inductive query_log : Type :=
| FailedToFetchIncidents   (* get_incidents *)
| CouldNotFetchTTPData.    (* get_ttp_data *)

(** [await database.fetch_all(query)]: the engine evaluates the query over
    the tables, or refuses as the fault schedule says; [query] gives [None]
    where the engine rejects the query itself.  Nothing is written, and the
    call is no [database.execute]. *)
Definition fetch_all {A} (query : database_state -> option A) : M A :=
  fun w =>
    let fails := match faults w with [] => false | f :: _ => f end in
    let w' := mk_world (db w) (tl (faults w)) (executed w) (clock w) (logs w)
                       (rag_calls w) in
    if fails then (Raised DatabaseError, w')
    else match query (db w) with
         | Some rows => (Ok rows, w')
         | None => (Raised DatabaseError, w')
         end.

(** [ORDER BY <key> DESC], as an insertion sort.  Among rows with equal
    keys the engine is free; no statement below depends on their order. *)
Fixpoint insert_desc {A} (key : A -> Z) (x : A) (l : list A) : list A :=
  match l with
  | [] => [x]
  | y :: rest => if key y <? key x then x :: l else y :: insert_desc key x rest
  end.

Definition order_by_desc {A} (key : A -> Z) (rows : list A) : list A :=
  fold_right (insert_desc key) [] rows.

(** [dict(row._mapping)] of an incident once its timestamp is put in ISO
    format. *)
Record incident_dict := mk_incident_dict {
  dict_id : Z;
  dict_timestamp : string;
  dict_ip : json;
  dict_payload : json;
  dict_rule_triggered : json;
  dict_status : option string
}.

(** The part of a [datetime] the dashboard reads; the ranges are those the
    type has in Python. *)
Record datetime := mk_datetime {
  dt_hour : Z;
  dt_minute : Z;
  dt_hour_ok : ((0 <=? dt_hour) && (dt_hour <? 24))%bool = true;
  dt_minute_ok : ((0 <=? dt_minute) && (dt_minute <? 60))%bool = true
}.

(** [f"{n:02d}"]: the decimal text of [n], padded with a zero to two
    characters. *)
Definition format_02d (n : Z) : string :=
  let text := NilZero.string_of_int (Z.to_int n) in
  if (String.length text <? 2)%nat then "0" +++ text else text.

(** [f"{dt.hour:02d}:{minute:02d}"] with [minute = (dt.minute // 5) * 5] *)
Definition time_key (dt : datetime) : string :=
  format_02d (dt_hour dt) +++ ":" +++ format_02d ((dt_minute dt / 5) * 5).

(** [buckets[key] += 1] on a [defaultdict(int)], kept in insertion order *)
Fixpoint bump (key : string) (buckets : list (string * Z)) : list (string * Z) :=
  match buckets with
  | [] => [(key, 1)]
  | (k, c) :: rest =>
      if String.eqb key k then (k, c + 1) :: rest else (k, c) :: bump key rest
  end.

(** The order of [(key, count)] tuples *)
Definition item_leb (a b : string * Z) : bool :=
  if String.eqb (fst a) (fst b) then snd a <=? snd b
  else String.leb (fst a) (fst b).

Fixpoint insert_item (x : string * Z) (l : list (string * Z)) : list (string * Z) :=
  match l with
  | [] => [x]
  | y :: rest => if item_leb x y then x :: l else y :: insert_item x rest
  end.

(** [sorted(buckets.items())] *)
Definition sorted_items (buckets : list (string * Z)) : list (string * Z) :=
  fold_right insert_item [] buckets.

(** The rows the aggregate query of [get_ttp_data] gives. *)
Record rollup_row := mk_rollup {
  rr_rule_triggered : string;
  rr_count : Z;
  rr_last_seen : Z;
  rr_sample_payload : option string;
  rr_sample_ip : option string
}.

(** The objects [get_ttp_data] answers with. *)
Record ttp_entry := mk_ttp_entry {
  te_id : string;
  te_name : string;
  te_tactic : string;
  te_count : Z;
  te_lastSeen : string;
  te_description : string;
  te_example : string
}.

Inductive ttp_answer : Type :=
| TtpList (entries : list ttp_entry)
| TtpFailure (r : response).

Definition MITRE_MAP : list (string * (string * string)) :=
  [ ("SQL Injection", ("T1190", "Execution"));
    ("XSS", ("T1059.007", "Execution"));
    ("Path Traversal", ("T1083", "Discovery"));
    ("Brute Force", ("T1110", "Credential Access")) ].

(** [snippet[:250] + "..."] for a payload longer than 250 characters *)
Definition snippet_of (sample_payload : option string) : option string :=
  match sample_payload with
  | Some text =>
      if PyStr.truthy text && (250 <? PyStr.len text)%nat
      then Some (PyStr.take 250 text +++ "...")
      else Some text
  | None => None
  end.

(** [snippet or "N/A"] *)
Definition or_na (snippet : option string) : string :=
  match snippet with
  | Some text => if PyStr.truthy text then text else "N/A"
  | None => "N/A"
  end.

(** [f"{v}"] for a text column that may be NULL *)
Definition format_column (v : option string) : string :=
  match v with Some text => text | None => "None" end.

Section Dashboard.

Variable environ : string -> option string.

(** [datetime.isoformat] and [datetime.fromisoformat] ([None] where the
    latter raises). *)
Variable isoformat : Z -> string.
Variable fromisoformat : string -> option datetime.

(** The engine's evaluation of the aggregate query of [get_ttp_data] for a
    limit. *)
Variable aggregate_ttps : database_state -> Z -> option (list rollup_row).

Variable str_exn : exn -> string.

Definition to_dict (r : incident_row) : incident_dict :=
  mk_incident_dict (inc_id r) (isoformat (inc_timestamp r)) (inc_ip r)
                   (inc_payload r) (rule_triggered r) (inc_status r).

(** The value is paired with the error lines logged on the way. *)
Definition get_incidents : M (list incident_dict * list query_log) :=
  try_except
    (results <- fetch_all
                  (fun d => Some (firstn 500 (order_by_desc inc_timestamp (incidents d)))) ;;
     ret (map to_dict results, []))
    is_Exception
    (fun _ => ret ([], [FailedToFetchIncidents])).

(** [GET /admin/incidents?key=...] *)
Definition admin_list_incidents (key : string) : M (list incident_dict * list query_log) :=
  admin_auth environ key ;;
  get_incidents.

(** The loop of [blocked_requests] over the listed incidents; an incident
    whose timestamp does not parse is passed over. *)
Fixpoint tally (listed : list incident_dict) (buckets : list (string * Z))
    : list (string * Z) :=
  match listed with
  | [] => buckets
  | inc :: rest =>
      match fromisoformat (dict_timestamp inc) with
      | Some dt => tally rest (bump (time_key dt) buckets)
      | None => tally rest buckets
      end
  end.

(** [GET /api/blocked-requests] *)
Definition blocked_requests : M (list (string * Z) * list query_log) :=
  listing <- get_incidents ;;
  ret (sorted_items (tally (fst listing) []), snd listing).

(** One object of the answer of [get_ttp_data]. *)
Definition ttp_of (data : rollup_row) : ttp_entry :=
  let rule := rr_rule_triggered data in
  let mapping := match assoc rule MITRE_MAP with
                 | Some m => m
                 | None => ("Unknown", "Unmapped")
                 end in
  mk_ttp_entry (fst mapping) rule (snd mapping) (rr_count data)
               (isoformat (rr_last_seen data))
               ("Latest detection of " +++ rule +++ " from " +++
                format_column (rr_sample_ip data))
               (or_na (snippet_of (rr_sample_payload data))).

(** [GET /api/ttps?limit=N] *)
Definition get_ttp_data (limit : Z) : M (ttp_answer * list query_log) :=
  try_except
    (results <- fetch_all (fun d => aggregate_ttps d limit) ;;
     ret (TtpList (map ttp_of results), []))
    is_Exception
    (fun e => ret (TtpFailure (JSONResponse 500 [("error", str_exn e)]),
                   [CouldNotFetchTTPData])).

End Dashboard.

(** The sum of the counts of some buckets. *)
Definition total_blocked (buckets : list (string * Z)) : Z :=
  fold_right Z.add 0 (map snd buckets).

(** Whether the timestamp of a listed incident parses. *)
Definition parses (fromisoformat : string -> option datetime) (inc : incident_dict) : bool :=
  match fromisoformat (dict_timestamp inc) with Some _ => true | None => false end.

(** The key of a bucket reads [HH:MM], on a five-minute mark of the day. *)
Definition five_minute_mark (key : string) : Prop :=
  exists h k, 0 <= h < 24 /\ 0 <= k < 12 /\
              key = format_02d h +++ ":" +++ format_02d (5 * k).

(** What [get_ttp_data] shows for a sampled payload. *)
Definition example_for (sample_payload : option string) : string :=
  match sample_payload with
  | None => "N/A"
  | Some text =>
      if String.eqb text EmptyString then "N/A"
      else if (PyStr.len text <=? 250)%nat then text
      else PyStr.take 250 text +++ "..."
  end.

(** A rule name [MITRE_MAP] has a key for. *)
Definition mapped_rule (rule : string) : Prop :=
  In rule ["SQL Injection"; "XSS"; "Path Traversal"; "Brute Force"].

(** An engine whose roll-up gives one rule, for the samples below. *)
Definition sample_aggregate (d : database_state) (limit : Z) : option (list rollup_row) :=
  Some [mk_rollup "XSS" 3 0 (Some "<script>alert(1)</script>") (Some "10.0.0.7");
        mk_rollup "RAG: odd body" 1 0 None None].

Definition sample_isoformat (t : Z) : string := "2024-01-01T00:00:00+00:00".

(** Two hundred accented letters: 200 characters in 400 bytes. *)
Definition accented_payload : string :=
  String.concat EmptyString (repeat (PyStr.utf8 233) 200).

(** ** Start-up: [setup_database]

    The statements of [setup_database] create tables and touch no row, so
    its runs are followed on a state of their own: what the engine will do
    with the coming statements, the statements sent, the seconds slept
    between attempts and the lines logged. *)

Inductive ddl : Type :=
| CreateIncidents        (* CREATE TABLE IF NOT EXISTS incidents *)
| CreateRequests         (* CREATE TABLE IF NOT EXISTS requests *)
| CreateTTPs             (* CREATE TABLE IF NOT EXISTS ttps *)
| CreateSuricataLogs.    (* CREATE TABLE IF NOT EXISTS suricata_logs *)

Inductive setup_log : Type :=
| InitializingTables     (* info *)
| TablesConfirmed        (* info *)
| DatabaseSetupFailed.   (* error *)

Record setup_state := mk_setup {
  (** as [faults] of the world: [true] makes [database.execute] raise, past
      the end it succeeds *)
  su_faults : list bool;
  su_sent : list ddl;
  su_slept : Z;
  su_logs : list setup_log
}.

(** [await database.execute(text(...))] *)
Definition execute_ddl (q : ddl) (s : setup_state) : result unit * setup_state :=
  let fails := match su_faults s with [] => false | f :: _ => f end in
  let s' := mk_setup (tl (su_faults s)) (su_sent s ++ [q]) (su_slept s) (su_logs s) in
  if fails then (Raised DatabaseError, s') else (Ok tt, s').

Definition setup_logging (r : setup_log) (s : setup_state) : setup_state :=
  mk_setup (su_faults s) (su_sent s) (su_slept s) (su_logs s ++ [r]).

Definition sleep (seconds : Z) (s : setup_state) : setup_state :=
  mk_setup (su_faults s) (su_sent s) (su_slept s + seconds) (su_logs s).

(** Statements one after the other; the first to raise ends the run. *)
Fixpoint execute_each (qs : list ddl) (s : setup_state) : result unit * setup_state :=
  match qs with
  | [] => (Ok tt, s)
  | q :: rest =>
      match execute_ddl q s with
      | (Ok _, s') => execute_each rest s'
      | (Raised e, s') => (Raised e, s')
      end
  end.

Definition all_tables : list ddl :=
  [CreateIncidents; CreateRequests; CreateTTPs; CreateSuricataLogs].

(** The body of [setup_database], one attempt: the failure is logged and
    raised again. *)
Definition setup_attempt (s : setup_state) : result unit * setup_state :=
  match execute_each all_tables (setup_logging InitializingTables s) with
  | (Ok _, s') => (Ok tt, setup_logging TablesConfirmed s')
  | (Raised e, s') => (Raised e, setup_logging DatabaseSetupFailed s')
  end.

Inductive setup_outcome : Type :=
| TablesReady
| RetryError (last : exn).    (* tenacity.RetryError, around the last exception *)

(** [@retry(stop=stop_after_attempt(n), wait=wait_fixed(seconds))]: the body
    is run again after any exception, [seconds] later, until it returns or
    the [n]-th attempt has failed.  [further] counts the attempts that may
    follow the coming one. *)
Fixpoint retry_from (further : nat) (wait_fixed : Z)
    (body : setup_state -> result unit * setup_state) (s : setup_state)
    : setup_outcome * setup_state :=
  match body s with
  | (Ok _, s') => (TablesReady, s')
  | (Raised e, s') =>
      match further with
      | O => (RetryError e, s')
      | S n => retry_from n wait_fixed body (sleep wait_fixed s')
      end
  end.

Definition retry (stop_after_attempt : nat) (wait_fixed : Z)
    (body : setup_state -> result unit * setup_state)
    : setup_state -> setup_outcome * setup_state :=
  retry_from (stop_after_attempt - 1) wait_fixed body.

Definition setup_database : setup_state -> setup_outcome * setup_state :=
  retry 5 2 setup_attempt.

(** The statements of a schedule that the engine refuses. *)
Definition refusals (schedule : list bool) : nat :=
  length (filter (fun refused => refused) schedule).

(** The lines of [n] failed attempts. *)
Definition failed_attempts (n : nat) : list setup_log :=
  concat (repeat [InitializingTables; DatabaseSetupFailed] n).

Definition fresh_setup (schedule : list bool) : setup_state :=
  mk_setup schedule [] 0 [].

(** * Properties *)

(** ** Strings *)

Lemma append_assoc (a b c : string) : (a +++ b) +++ c = a +++ b +++ c.
Proof. induction a as [|x a IH]; simpl; [reflexivity | now rewrite IH]. Qed.

Lemma prefix_iff (p s : string) :
  String.prefix p s = true <-> exists post, s = p +++ post.
Proof.
  revert s. induction p as [|a p IH]; intros s.
  - split; [intros _; exists s; reflexivity | intros _; destruct s; reflexivity].
  - destruct s as [|b s]; simpl.
    + split; [discriminate | intros [post H]; discriminate].
    + destruct (ascii_dec a b) as [->|Hab].
      * rewrite IH. split; intros [post H]; exists post.
        -- now subst.
        -- now inversion H.
      * split; [discriminate | intros [post H]; inversion H; congruence].
Qed.

Lemma contains_unfold (needle hay : string) :
  PyStr.contains needle hay =
  if String.prefix needle hay then true
  else match hay with
       | EmptyString => false
       | String _ rest => PyStr.contains needle rest
       end.
Proof. destruct hay; reflexivity. Qed.

Lemma contains_iff (needle hay : string) :
  PyStr.contains needle hay = true <->
  exists pre post, hay = pre +++ needle +++ post.
Proof.
  induction hay as [|c hay IH]; rewrite contains_unfold.
  - destruct (String.prefix needle EmptyString) eqn:Hp.
    + split; [intros _ | reflexivity].
      apply prefix_iff in Hp. destruct Hp as [post Hp].
      exists EmptyString, post. exact Hp.
    + split; [discriminate |].
      intros [pre [post H]]. destruct pre; simpl in H.
      * assert (String.prefix needle EmptyString = true) by (apply prefix_iff; eauto).
        congruence.
      * discriminate.
  - destruct (String.prefix needle (String c hay)) eqn:Hp.
    + split; [intros _ | reflexivity].
      apply prefix_iff in Hp. destruct Hp as [post Hp].
      exists EmptyString, post. exact Hp.
    + rewrite IH. split.
      * intros [pre [post H]]. exists (String c pre), post. simpl. now rewrite H.
      * intros [pre [post H]]. destruct pre as [|x pre]; simpl in H.
        -- assert (String.prefix needle (String c hay) = true)
             by (apply prefix_iff; eauto).
           congruence.
        -- inversion H. eauto.
Qed.

(** [upper] beyond ASCII: every character of the table goes to its
    capital, and the capital may be ASCII text. *)
Lemma upper_of_table :
  forallb (fun entry =>
             String.eqb (PyStr.upper (PyStr.utf8 (fst entry)))
                        (String.concat EmptyString (map PyStr.utf8 (snd entry))))
          PyStr.unicode_capitals = true.
Proof. vm_compute. reflexivity. Qed.

Lemma upper_beyond_ascii :
  PyStr.upper ("x" +++ PyStr.utf8 223) = "XSS" /\
  PyStr.upper (PyStr.utf8 383 +++ "ql") = "SQL" /\
  PyStr.upper ("caf" +++ PyStr.utf8 233) = "CAF" +++ PyStr.utf8 201 /\
  PyStr.upper (PyStr.utf8 20013 +++ "sql") = PyStr.utf8 20013 +++ "SQL".
Proof. vm_compute. repeat split. Qed.

(** [len] and slicing count characters. *)
Lemma len_counts_characters :
  let text := "na" +++ PyStr.utf8 239 +++ "ve " +++ PyStr.utf8 8364 +++ PyStr.utf8 128512 in
  String.length text = 14%nat /\ PyStr.len text = 8%nat /\
  PyStr.take 3 text = "na" +++ PyStr.utf8 239 /\
  PyStr.take 8 text = text.
Proof. vm_compute. repeat split. Qed.

(** ** The monad *)

Lemma bind_ok {A B} (m : M A) (k : A -> M B) (w w' : world) (a : A) :
  m w = (Ok a, w') -> bind m k w = k a w'.
Proof. intros H. unfold bind. now rewrite H. Qed.

Lemma bind_raised {A B} (m : M A) (k : A -> M B) (w w' : world) (e : exn) :
  m w = (Raised e, w') -> bind m k w = (Raised e, w').
Proof. intros H. unfold bind. now rewrite H. Qed.

(** ** The recorder *)

Lemma only_logged_refl w : only_logged w w.
Proof. repeat split. Qed.

Lemma only_logged_trans w1 w2 w3 :
  only_logged w1 w2 -> only_logged w2 w3 -> only_logged w1 w3.
Proof.
  unfold only_logged. intros (?&?&?&?&?) (?&?&?&?&?).
  repeat split; congruence.
Qed.

Lemma logging_only_logged r w : only_logged w (snd (logging r w)).
Proof. repeat split. Qed.

Lemma incident_inserts_app qs1 qs2 :
  incident_inserts (qs1 ++ qs2) = incident_inserts qs1 ++ incident_inserts qs2.
Proof.
  induction qs1 as [|q qs1 IH]; [reflexivity |].
  destruct q; simpl; rewrite IH; reflexivity.
Qed.

Ltac run_recorder :=
  unfold log_incident, log_ttp, log_request, log_suricata_alert,
    mark_incident_handled, execute_text, in_upper, try_except, bind, now,
    execute, logging, ret, raise, is_Exception; simpl.

Ltac split_faults f :=
  let b := fresh "b" in
  destruct f as [|b f]; [| destruct b]; simpl.

Lemma log_request_runs status ip w :
  exists w',
    log_request status ip w = (Ok tt, w') /\
    rag_calls w' = rag_calls w /\
    incidents (db w') = incidents (db w) /\
    ttps (db w') = ttps (db w) /\
    suricata_logs (db w') = suricata_logs (db w) /\
    faults w' = tl (faults w) /\
    executed w' = executed w ++ [InsertRequest status ip (clock w)] /\
    (accepts 0 w = true ->
     requests (db w') =
     requests (db w) ++ [mk_request (requests_serial (db w) + 1) (clock w) status ip]) /\
    (accepts 0 w = false ->
     db w' = db w /\ logs w' = logs w ++ [FailedToLogRequest]).
Proof.
  destruct w as [d f e c l r]. unfold accepts. run_recorder.
  split_faults f; eexists; repeat split; simpl; try reflexivity; try discriminate.
Qed.

Ltac split_rule rule :=
  destruct (PyStr.contains "SQL" (PyStr.upper rule));
  [| destruct (PyStr.contains "XSS" (PyStr.upper rule))]; simpl.

Ltac close_lists :=
  simpl; rewrite <- ?app_assoc; simpl;
  first [reflexivity | assumption | discriminate
        | rewrite ?app_nil_r; first [reflexivity | assumption]].

Ltac settle :=
  intros; repeat split; simpl in *; rewrite <- ?app_assoc; simpl;
  first [reflexivity | assumption | congruence
        | rewrite ?app_nil_r; first [reflexivity | intuition congruence]].

(** Settles the first three conjuncts, which fix the existentials. *)
Ltac pin3 :=
  split; [reflexivity |]; split; [close_lists |]; split; [close_lists |].

(** [log_incident] returns normally in every world; it hands the incident
    insert to the engine first and leaves the analysis service alone. *)
Lemma log_incident_runs ip payload rule w :
  exists w' stmts,
    log_incident ip payload rule w = (Ok tt, w') /\
    rag_calls w' = rag_calls w /\
    suricata_logs (db w') = suricata_logs (db w) /\
    executed w' = executed w ++ InsertIncident ip payload rule (clock w) :: stmts /\
    incident_inserts stmts = [] /\
    incidents (db w') =
      incidents (db w) ++
      (if accepts 0 w
       then [mk_incident (incidents_serial (db w) + 1) (clock w) ip payload rule None]
       else []).
Proof.
  destruct w as [d f e c l r]. unfold accepts.
  destruct rule as [| flag | literal | rule | items | members];
    try (run_recorder; split_faults f; eexists; exists [];
         repeat split; close_lists).
  run_recorder.
  split_faults f.
  - split_rule rule; eexists; eexists; repeat split; close_lists.
  - eexists; exists []; repeat split; close_lists.
  - split_rule rule.
    + split_faults f; [| split_faults f | split_faults f];
        eexists; eexists; repeat split; close_lists.
    + split_faults f; [| split_faults f | split_faults f];
        eexists; eexists; repeat split; close_lists.
    + split_faults f; eexists; eexists; repeat split; close_lists.
Qed.

(** With an engine that refuses nothing, one call leaves one incident row,
    the derived technique rows and one [error] request-outcome row. *)
Lemma log_incident_healthy ip payload (rule : string) w :
  no_fault w = true ->
  exists w' ts,
    log_incident ip payload rule w = (Ok tt, w') /\
    no_fault w' = true /\
    incidents (db w') =
      incidents (db w) ++
      [mk_incident (incidents_serial (db w) + 1) (clock w) ip payload rule None] /\
    ttps (db w') =
      ttps (db w) ++
      derived_ttps rule (ttps_serial (db w) + 1) (clock w + 1)
                   (incidents_serial (db w) + 1) /\
    requests (db w') =
      requests (db w) ++ [mk_request (requests_serial (db w) + 1) ts "error" ip].
Proof.
  destruct w as [d f e c l r]. unfold no_fault, derived_ttps. simpl. intros Hf.
  run_recorder.
  split_faults f; try discriminate.
  - split_rule rule; eexists; eexists; repeat split; close_lists.
  - split_rule rule.
    + split_faults f; try discriminate;
        [| split_faults f; try discriminate];
        eexists; eexists; repeat split; close_lists.
    + split_faults f; try discriminate;
        [| split_faults f; try discriminate];
        eexists; eexists; repeat split; close_lists.
    + split_faults f; try discriminate;
        eexists; eexists; repeat split; close_lists.
Qed.

(** *** C5: what a failing write does to the other writes of [log_incident] *)

(** C5, as stated, fails: when the engine refuses the incident insert,
    [log_incident] logs the failure and returns, and the request-outcome
    insert is never handed to the engine. *)
Lemma log_incident_refused_insert_skips_outcome :
  let w' := snd (log_incident "10.0.0.1" "' OR 1=1 --" "SQLInjection" (fresh_world [true])) in
  executed w' = [InsertIncident "10.0.0.1" "' OR 1=1 --" "SQLInjection" 0] /\
  logs w' = [FailedToLogIncident] /\
  ~ (exists status ip ts, In (InsertRequest status ip ts) (executed w')).
Proof.
  cbv zeta. vm_compute (snd _). simpl. repeat split.
  intros (status & ip & ts & [H | []]). discriminate.
Qed.

(** C5 (amended): [log_incident] never raises and logs every refused write.
    A refused incident insert ends the call: no technique row and no
    request outcome is attempted.  Once the incident insert is accepted the
    request-outcome insert is attempted exactly once, whether the technique
    insert is refused or not; a refused technique or request-outcome insert
    is logged and leaves the rows already written in place. *)
Theorem log_incident_best_effort ip payload (rule : string) w :
  exists w' new_logs stmts,
    log_incident ip payload rule w = (Ok tt, w') /\
    logs w' = logs w ++ new_logs /\
    executed w' = executed w ++ InsertIncident ip payload rule (clock w) :: stmts /\
    (accepts 0 w = false ->
       new_logs = [FailedToLogIncident] /\ stmts = [] /\ db w' = db w) /\
    (accepts 0 w = true ->
       request_inserts stmts = ["error"] /\
       incidents (db w') =
         incidents (db w) ++
         [mk_incident (incidents_serial (db w) + 1) (clock w) ip payload rule None] /\
       (has_technique rule = true -> accepts 1 w = false ->
          In FailedToLogTTP new_logs /\ ttps (db w') = ttps (db w)) /\
       (accepts (outcome_index rule) w = false ->
          In FailedToLogRequest new_logs /\ requests (db w') = requests (db w))).
Proof.
  destruct w as [d f e c l r]. unfold accepts, outcome_index, has_technique.
  run_recorder.
  split_faults f.
  - split_rule rule; do 3 eexists; pin3; split; settle.
  - do 3 eexists; pin3; split; settle.
  - split_rule rule.
    + split_faults f; [| split_faults f | split_faults f];
        do 3 eexists; pin3; split; settle.
    + split_faults f; [| split_faults f | split_faults f];
        do 3 eexists; pin3; split; settle.
    + split_faults f; do 3 eexists; pin3; split; settle.
Qed.

(** *** C6: the technique rows derived from a rule name *)

(** C6, as stated, fails for a rule name that holds both keywords: the
    ["SQL"] test comes first and is the only one that runs, so the name
    below, which contains "XSS", gets the T1190 row and no T1059.007 row. *)
Lemma log_incident_sql_shadows_xss :
  let rule := "XSS-in-SQL-comment" in
  let w' := snd (log_incident "10.0.0.1" "<script>/*' OR 1=1*/</script>" rule (fresh_world [])) in
  contains_ignoring_case "XSS" rule /\
  map technique_id (ttps (db w')) = ["T1190"] /\
  ~ In "T1059.007" (map technique_id (ttps (db w'))).
Proof.
  cbv zeta. split; [| split].
  - vm_compute. reflexivity.
  - vm_compute. reflexivity.
  - vm_compute. intros [H | []]. discriminate.
Qed.

(** C6 (amended): for every incident the engine records, with the statement
    after the incident insert accepted as well: a rule name containing
    "SQL" (case ignored) gives exactly one technique row, T1190; a rule
    name containing "XSS" and not "SQL" gives exactly one row, T1059.007;
    any other rule name gives none.  Each row points to the new incident.
    Case is ignored the way [str.upper] does it, for every name, with
    characters beyond ASCII or without. *)
Theorem log_incident_technique_rows ip payload (rule : string) w :
  accepts 0 w = true ->
  accepts 1 w = true ->
  exists w' new,
    log_incident ip payload rule w = (Ok tt, w') /\
    ttps (db w') = ttps (db w) ++ new /\
    Forall (fun t => ttp_incident_id t = incidents_serial (db w) + 1) new /\
    (contains_ignoring_case "SQL" rule ->
       map technique_id new = ["T1190"]) /\
    (contains_ignoring_case "XSS" rule -> ~ contains_ignoring_case "SQL" rule ->
       map technique_id new = ["T1059.007"]) /\
    (~ contains_ignoring_case "SQL" rule -> ~ contains_ignoring_case "XSS" rule ->
       new = []).
Proof.
  unfold contains_ignoring_case.
  destruct w as [d f e c l r]. unfold accepts. simpl.
  run_recorder.
  destruct (PyStr.contains "SQL" (PyStr.upper rule)) eqn:Hsql;
    [| destruct (PyStr.contains "XSS" (PyStr.upper rule)) eqn:Hxss].
  - split_faults f; intros H0 H1; try discriminate.
    + do 2 eexists. split; [reflexivity |]. split; [close_lists |].
      split; [repeat constructor |]. repeat split; intros; congruence.
    + split_faults f; try discriminate;
        [| split_faults f];
        (do 2 eexists; split; [reflexivity |]; split; [close_lists |];
         split; [repeat constructor |]; repeat split; intros; congruence).
  - split_faults f; intros H0 H1; try discriminate.
    + do 2 eexists. split; [reflexivity |]. split; [close_lists |].
      split; [repeat constructor |]. repeat split; intros; congruence.
    + split_faults f; try discriminate;
        [| split_faults f];
        (do 2 eexists; split; [reflexivity |]; split; [close_lists |];
         split; [repeat constructor |]; repeat split; intros; congruence).
  - split_faults f; intros H0 H1; try discriminate.
    + eexists; exists []. split; [reflexivity |]. split; [close_lists |].
      split; [constructor |]. repeat split; intros; congruence.
    + split_faults f; try discriminate.
      * eexists; exists []. split; [reflexivity |]. split; [close_lists |].
        split; [constructor |]. repeat split; intros; congruence.
      * eexists; exists []. split; [reflexivity |]. split; [close_lists |].
        split; [constructor |]. repeat split; intros; congruence.
Qed.

(** The engine accepts two statements in a row in a world with no fault. *)
Lemma log_incident_technique_rows_witness :
  accepts 0 (fresh_world []) = true /\
  accepts 1 (fresh_world []) = true /\
  exists w' new,
    log_incident "10.0.0.1" "<script>alert(1)</script>" "xss_reflected" (fresh_world [])
      = (Ok tt, w') /\
    ttps (db w') = ttps (db (fresh_world [])) ++ new /\
    map technique_id new = ["T1059.007"].
Proof.
  split; [reflexivity |]. split; [reflexivity |].
  destruct (log_incident_technique_rows "10.0.0.1" "<script>alert(1)</script>"
              "xss_reflected" (fresh_world []) eq_refl eq_refl)
    as (w' & new & E & Ht & _ & _ & Hxss & _).
  exists w', new. split; [exact E |]. split; [exact Ht |].
  apply Hxss.
  - vm_compute. reflexivity.
  - vm_compute. discriminate.
Defined.

(** A rule name that holds no letter S twice: the capital of the sharp s
    is ["SS"], as [str.upper] has it, and the name gets the T1059.007 row. *)
Lemma log_incident_capital_beyond_ascii :
  let rule := "x" +++ PyStr.utf8 223 in
  let w' := snd (log_incident "10.0.0.1" "probe" rule (fresh_world [])) in
  PyStr.contains "XSS" rule = false /\
  contains_ignoring_case "XSS" rule /\
  map technique_id (ttps (db w')) = ["T1059.007"].
Proof. vm_compute. repeat split. Qed.

(** *** C9: [mark_incident_handled] *)

(** C9 fails on the code.  [mark_incident_handled] hands [database.execute]
    a [text(...)] clause together with [values]; the call raises before a
    statement is sent, the handler logs the failure, and the function
    returns [False]: for every id and in every world, no row is touched
    and the engine is not consulted. *)
Theorem mark_incident_handled_never_marks incident_id w :
  mark_incident_handled incident_id w
  = (Ok false,
     mk_world (db w) (faults w) (executed w) (clock w)
              (logs w ++ [FailedToMarkHandled]) (rag_calls w)).
Proof. reflexivity. Qed.

(** The incident recorded below has id 1; marking it returns [False] and
    its status stays NULL. *)
Lemma mark_incident_handled_stored_incident :
  let w := snd (log_incident "10.0.0.1" "' OR 1=1 --" "SQLInjection" (fresh_world [])) in
  let marked := mark_incident_handled 1 w in
  map inc_id (incidents (db w)) = [1] /\
  fst marked = Ok false /\
  map inc_status (incidents (db (snd marked))) = [None] /\
  executed (snd marked) = executed w.
Proof. vm_compute. repeat split. Qed.

(** ** The signature stage *)

(** The rule set either has no match or splits at its first match. *)
Lemma first_hit_split (rules : list (string * rule_fn)) (payload : string) :
  all_miss rules payload \/
  exists pre name fn post,
    rules = pre ++ (name, fn) :: post /\ all_miss pre payload /\
    rule_hits fn payload = true.
Proof.
  induction rules as [|[name fn] rules IH].
  - left. intros ? ? [].
  - destruct (rule_hits fn payload) eqn:Hfn.
    + right. exists [], name, fn, rules. repeat split; [intros ? ? [] | assumption].
    + destruct IH as [Hmiss | (pre & n & g & post & E & Hpre & Hg)].
      * left. intros n g [H | H]; [inversion H; now subst | eauto].
      * right. exists ((name, fn) :: pre), n, g, post. subst rules.
        repeat split; try assumption.
        intros n' g' [H | H]; [inversion H; now subst | eauto].
Qed.

Lemma owasp_scan_miss rules ip payload w :
  all_miss rules payload ->
  exists w', owasp_scan rules ip payload w = (Ok None, w') /\ only_logged w w'.
Proof.
  revert w. induction rules as [|[name fn] rules IH]; intros w Hmiss.
  - exists w. split; [reflexivity | apply only_logged_refl].
  - assert (Hfn : rule_hits fn payload = false) by (apply (Hmiss name); now left).
    assert (Hrest : all_miss rules payload) by (intros n g H; apply (Hmiss n); now right).
    simpl. unfold try_except, bind, call_rule, ret, raise.
    destruct fn as [|f]; simpl in *.
    + apply IH. assumption.
    + destruct (f payload); try discriminate; simpl.
      * apply IH. assumption.
      * destruct (IH (snd (logging (ErrorEvaluatingRule name) w)) Hrest)
          as [w' [E Hw']].
        exists w'. split; [exact E |].
        eapply only_logged_trans; [apply logging_only_logged | exact Hw'].
Qed.

Lemma owasp_scan_hit pre (name : string) fn post (ip : string) payload w :
  all_miss pre payload ->
  rule_hits fn payload = true ->
  exists w1 w',
    only_logged w w1 /\
    log_incident ip payload name w1 = (Ok tt, w') /\
    owasp_scan (pre ++ (name, fn) :: post) ip payload w =
      (Ok (Some (JSONResponse 403 [("detail", "Blocked by OWASP rule: " +++ name)])), w').
Proof.
  revert w. induction pre as [|[n g] pre IH]; intros w Hmiss Hfn.
  - destruct (log_incident_runs ip payload name
                (snd (logging (OwaspRuleTriggered name ip) w)))
      as (w' & stmts & E & _).
    exists (snd (logging (OwaspRuleTriggered name ip) w)), w'.
    split; [apply logging_only_logged |]. split; [exact E |].
    simpl app. simpl owasp_scan. unfold try_except, bind, call_rule, ret.
    destruct fn as [|f]; simpl in Hfn; [discriminate |].
    destruct (f payload); try discriminate.
    simpl. simpl in E. rewrite E. reflexivity.
  - assert (Hg : rule_hits g payload = false) by (apply (Hmiss n); now left).
    assert (Hrest : all_miss pre payload) by (intros a b H; apply (Hmiss a); now right).
    simpl app. simpl owasp_scan. unfold try_except, bind, call_rule, ret, raise.
    destruct g as [|f]; simpl in *.
    + apply IH; assumption.
    + destruct (f payload); try discriminate; simpl.
      * apply IH; assumption.
      * destruct (IH (snd (logging (ErrorEvaluatingRule n) w)) Hrest Hfn)
          as (w1 & w' & H1 & E & Es).
        exists w1, w'. split; [| split; assumption].
        eapply only_logged_trans; [apply logging_only_logged | exact H1].
Qed.

(** ** The regex stage: one [log_incident] per name *)

Lemma records_refl P w : records P w w.
Proof. exists []. split; [now rewrite app_nil_r | constructor]. Qed.

Lemma records_trans P w1 w2 w3 :
  records P w1 w2 -> records P w2 w3 -> records P w1 w3.
Proof.
  intros (r1 & E1 & F1) (r2 & E2 & F2). exists (r1 ++ r2). split.
  - now rewrite E2, E1, app_assoc.
  - apply Forall_app. now split.
Qed.

Lemma records_weaken (P Q : json -> Prop) w w' :
  (forall r, P r -> Q r) -> records P w w' -> records Q w w'.
Proof.
  intros HPQ (rows & E & F). exists rows. split; [exact E |].
  eapply Forall_impl; [| exact F]. intros r. apply HPQ.
Qed.

Lemma only_logged_records P w w' : only_logged w w' -> records P w w'.
Proof.
  intros (Hdb & _). exists []. split; [now rewrite Hdb, app_nil_r | constructor].
Qed.

Lemma records_same_db P w w' : db w' = db w -> records P w w'.
Proof.
  intros Hdb. exists []. split; [now rewrite Hdb, app_nil_r | constructor].
Qed.

Lemma log_incident_records ip payload rule w w' res :
  log_incident ip payload rule w = (res, w') -> records (eq rule) w w'.
Proof.
  intros E. destruct (log_incident_runs ip payload rule w)
    as (w2 & stmts & E2 & _ & _ & _ & _ & Hi).
  rewrite E in E2. inversion E2; subst w2.
  eexists. split; [exact Hi |].
  destruct (accepts 0 w); repeat constructor.
Qed.

Lemma for_each_log_incident_runs ip payload (names : list string) w :
  exists w' stmts,
    for_each names (fun name => log_incident ip payload name) w = (Ok tt, w') /\
    rag_calls w' = rag_calls w /\
    executed w' = executed w ++ stmts /\
    incident_inserts stmts = map (fun name => (ip, payload, JString name)) names /\
    records (fun r => exists name, r = JString name /\ In name names) w w'.
Proof.
  revert w. induction names as [|name names IH]; intros w.
  - exists w, []. repeat split; [now rewrite app_nil_r | apply records_refl].
  - destruct (log_incident_runs ip payload name w)
      as (w1 & s1 & E1 & R1 & _ & X1 & I1 & _).
    destruct (IH w1) as (w2 & s2 & E2 & R2 & X2 & I2 & C2).
    exists w2, (InsertIncident ip payload name (clock w) :: s1 ++ s2).
    split; [| split; [| split; [| split]]].
    + simpl. rewrite (bind_ok _ _ _ _ _ E1). exact E2.
    + congruence.
    + rewrite X2, X1, <- app_assoc. reflexivity.
    + simpl. rewrite incident_inserts_app, I1, I2. reflexivity.
    + eapply records_trans.
      * eapply records_weaken; [| exact (log_incident_records _ _ _ _ _ _ E1)].
        intros r <-. exists name. split; [reflexivity | now left].
      * eapply records_weaken; [| exact C2].
        intros r (n & -> & H). exists n. split; [reflexivity | now right].
Qed.

Lemma for_each_log_incident_healthy ip payload (names : list string) w :
  no_fault w = true ->
  exists w' irows rrows,
    for_each names (fun name => log_incident ip payload name) w = (Ok tt, w') /\
    no_fault w' = true /\
    incidents (db w') = incidents (db w) ++ irows /\
    map rule_triggered irows = map JString names /\
    Forall (fun r => inc_ip r = ip /\ inc_payload r = payload /\ inc_status r = None)
           irows /\
    requests (db w') = requests (db w) ++ rrows /\
    map req_status rrows = map (fun _ => "error") names /\
    Forall (fun r => req_client_ip r = ip) rrows.
Proof.
  revert w. induction names as [|name names IH]; intros w Hw.
  - exists w, [], []. repeat split; try assumption; try constructor;
      now rewrite app_nil_r.
  - destruct (log_incident_healthy ip payload name w Hw)
      as (w1 & ts & E1 & H1 & I1 & _ & Q1).
    destruct (IH w1 H1)
      as (w2 & irows & rrows & E2 & H2 & I2 & M2 & F2 & Q2 & S2 & C2).
    exists w2, (mk_incident (incidents_serial (db w) + 1) (clock w) ip payload name None
                  :: irows),
      (mk_request (requests_serial (db w) + 1) ts "error" ip :: rrows).
    split; [| split; [| split; [| split; [| split; [| split; [| split]]]]]].
    + simpl. rewrite (bind_ok _ _ _ _ _ E1). exact E2.
    + exact H2.
    + rewrite I2, I1, <- app_assoc. reflexivity.
    + simpl. now rewrite M2.
    + constructor; [simpl; auto | exact F2].
    + rewrite Q2, Q1, <- app_assoc. reflexivity.
    + simpl. now rewrite S2.
    + constructor; [reflexivity | exact C2].
Qed.

(** ** The pipeline *)

Section GatewayFacts.

Variable environ : string -> option string.
Variable OWASP_RULES : list (string * rule_fn).
Variable check_regex_rules : string -> list string.
Variable rag_service : string -> string -> rag_reply.
Variable str_value : json -> string.
Variable str_exn : exn -> string.

Local Abbreviation middleware :=
  (payload_inspection_middleware environ OWASP_RULES check_regex_rules
                                 rag_service str_value).
Local Abbreviation url := (RAG_SERVICE_URL environ).

Lemma rag_stage_skipped ip payload w :
  PyStr.truthy url = false ->
  rag_stage environ rag_service str_value ip payload w = (Ok None, w).
Proof. intros H. unfold rag_stage. now rewrite H. Qed.

(** What the semantic stage does, by what the analysis service answers. *)
Lemma rag_stage_called ip payload w :
  PyStr.truthy url = true ->
  exists w1,
    untouched w w1 /\
    rag_calls w1 = rag_calls w ++ [(url, payload)] /\
    match rag_service url payload with
    | TransportFailure =>
        exists w', rag_stage environ rag_service str_value ip payload w
                   = (Ok (Some service_unavailable), w') /\
                   untouched w w' /\ rag_calls w' = rag_calls w1
    | HttpReply status parsed =>
        if is_success status then
          match parsed with
          | None =>
              rag_stage environ rag_service str_value ip payload w
              = (Raised JSONDecodeError, w1)
          | Some (JObject members) =>
              if json_eq_str (verdict_of members) "malicious" then
                exists w2 w',
                  only_logged w1 w2 /\
                  log_incident ip payload (rag_rule_name str_value members) w2 = (Ok tt, w') /\
                  rag_stage environ rag_service str_value ip payload w
                  = (Ok (Some (JSONResponse 403
                       [("detail", "Blocked by RAG analysis: " +++ rag_rule_name str_value members)])),
                     w')
              else
                rag_stage environ rag_service str_value ip payload w = (Ok None, w1)
          | Some _ =>
              rag_stage environ rag_service str_value ip payload w
              = (Raised AttributeError, w1)
          end
        else
          rag_stage environ rag_service str_value ip payload w
          = (Raised HTTPStatusError, w1)
    end.
Proof.
  intros Hurl. unfold rag_stage. rewrite Hurl.
  unfold try_except, bind, rag_request, logging. simpl.
  exists (mk_world (db w) (faults w) (executed w) (clock w)
                   (logs w ++ [ForwardingToRag]) (rag_calls w ++ [(url, payload)])).
  split; [repeat split |]. split; [reflexivity |].
  destruct (rag_service url payload) as [|status parsed]; simpl.
  - eexists. split; [reflexivity |]. repeat split.
  - destruct (is_success status); simpl; [| reflexivity].
    destruct parsed as [data|]; simpl; [| reflexivity].
    destruct data as [| | | | |members]; simpl; try reflexivity.
    unfold verdict_of, rag_rule_name, ret.
    destruct (json_eq_str _ "malicious"); simpl; [| reflexivity].
    match goal with
    | |- context [log_incident ?i ?p ?n ?x] =>
        destruct (log_incident_runs i p n x) as (w' & stmts & E & _);
        exists x, w'
    end.
    split; [repeat split |]. split; [exact E |].
    rewrite E. reflexivity.
Qed.

Lemma middleware_past_signatures r w :
  bypassed r = false ->
  all_miss OWASP_RULES (payload_of r) ->
  exists w0,
    only_logged w w0 /\
    middleware r w =
    match check_regex_rules (payload_of r) with
    | _ :: _ =>
        (logging (RegexRulesTriggered (check_regex_rules (payload_of r))) ;;
         for_each (check_regex_rules (payload_of r))
                  (fun name => log_incident (client_ip_of r) (payload_of r) name) ;;
         ret (JSONResponse 403
                [("detail", "Blocked by Regex rule(s): " +++
                            PyStr.join ", " (check_regex_rules (payload_of r)))])) w0
    | [] =>
        (blocked <- rag_stage environ rag_service str_value
                              (client_ip_of r) (payload_of r) ;;
         match blocked with
         | Some resp => ret resp
         | None => log_request "success" (client_ip_of r) ;; call_next r
         end) w0
    end.
Proof.
  intros Hb Hmiss.
  destruct (owasp_scan_miss OWASP_RULES (client_ip_of r) (payload_of r) w Hmiss)
    as (w0 & E & H0).
  exists w0. split; [exact H0 |].
  unfold payload_inspection_middleware. rewrite Hb.
  rewrite (bind_ok _ _ _ _ _ E).
  destruct (check_regex_rules (payload_of r)); reflexivity.
Qed.

Lemma untouched_after_logged w w0 w1 :
  only_logged w w0 -> untouched w0 w1 -> untouched w w1.
Proof.
  intros (?&?&?&?&?) (?&?&?&?). repeat split; congruence.
Qed.

(** Every request that is not bypassed takes one of the paths. *)
Lemma middleware_inspected r w :
  bypassed r = false ->
  exists res w',
    middleware r w = (res, w') /\
    inspected environ OWASP_RULES check_regex_rules rag_service str_value r w res w'.
Proof.
  intros Hb.
  destruct (first_hit_split OWASP_RULES (payload_of r))
    as [Hmiss | (pre & name & fn & post & E & Hpre & Hfn)].
  2: { destruct (owasp_scan_hit pre name fn post (client_ip_of r) (payload_of r) w Hpre Hfn)
         as (w1 & w' & H1 & Elog & Escan).
       do 2 eexists. split.
       - unfold payload_inspection_middleware. rewrite Hb.
         rewrite <- E in Escan. rewrite (bind_ok _ _ _ _ _ Escan). reflexivity.
       - eapply by_signature; eassumption. }
  destruct (middleware_past_signatures r w Hb Hmiss) as (w0 & H0 & ->).
  destruct (check_regex_rules (payload_of r)) as [|n ns] eqn:Hregex.
  - destruct (PyStr.truthy url) eqn:Hurl.
    + destruct (rag_stage_called (client_ip_of r) (payload_of r) w0 Hurl)
        as (w1 & U1 & C1 & Hcase).
      assert (Hcalls : rag_calls w1 = rag_calls w ++ [(url, payload_of r)]).
      { destruct H0 as (_ & _ & _ & _ & Hr). now rewrite C1, Hr. }
      destruct (rag_service url (payload_of r)) as [|status parsed] eqn:Hreply.
      * destruct Hcase as (w' & E & U' & C').
        do 2 eexists. split; [rewrite (bind_ok _ _ _ _ _ E); reflexivity |].
        apply rag_unreachable; try assumption.
        -- eapply untouched_after_logged; eassumption.
        -- congruence.
      * destruct (is_success status) eqn:Hst.
        -- destruct parsed as [data|].
           ++ destruct data as [| | | | |members];
                try (do 2 eexists; split;
                     [rewrite (bind_raised _ _ _ _ _ Hcase); reflexivity |];
                     apply rag_escapes; try assumption;
                     [rewrite Hreply; simpl; rewrite Hst; reflexivity
                     | eapply untouched_after_logged; eassumption]).
              destruct (json_eq_str (verdict_of members) "malicious") eqn:Hv.
              ** destruct Hcase as (w2 & w' & L2 & Elog & E).
                 do 2 eexists. split; [rewrite (bind_ok _ _ _ _ _ E); reflexivity |].
                 eapply by_rag with (w1 := w2); try eassumption.
                 --- eapply untouched_after_logged; [exact H0 |].
                     destruct U1 as (?&?&?&?), L2 as (?&?&?&?&?).
                     repeat split; congruence.
                 --- destruct L2 as (_ & _ & _ & _ & Hr). congruence.
              ** destruct (log_request_runs "success" (client_ip_of r) w1)
                   as (w' & Ereq & _).
                 do 2 eexists. split.
                 { rewrite (bind_ok _ _ _ _ _ Hcase).
                   unfold call_next. rewrite (bind_ok _ _ _ _ _ Ereq). reflexivity. }
                 eapply allowed_by_rag; try eassumption.
                 eapply untouched_after_logged; eassumption.
           ++ do 2 eexists. split;
                [rewrite (bind_raised _ _ _ _ _ Hcase); reflexivity |].
              apply rag_escapes; try assumption.
              ** rewrite Hreply. simpl. rewrite Hst. reflexivity.
              ** eapply untouched_after_logged; eassumption.
        -- do 2 eexists. split;
             [rewrite (bind_raised _ _ _ _ _ Hcase); reflexivity |].
           apply rag_escapes; try assumption.
           ** rewrite Hreply. simpl. rewrite Hst. reflexivity.
           ** eapply untouched_after_logged; eassumption.
    + destruct (log_request_runs "success" (client_ip_of r) w0) as (w' & Ereq & _).
      do 2 eexists. split.
      { rewrite (bind_ok _ _ _ _ _ (rag_stage_skipped _ _ _ Hurl)).
        unfold call_next. rewrite (bind_ok _ _ _ _ _ Ereq). reflexivity. }
      eapply allowed_unchecked; eassumption.
  - destruct (for_each_log_incident_runs (client_ip_of r) (payload_of r) (n :: ns)
                (snd (logging (RegexRulesTriggered (n :: ns)) w0)))
      as (w' & stmts & E & _).
    do 2 eexists. split.
    { unfold bind at 1. unfold logging at 1.
      unfold logging in E. simpl snd in E.
      rewrite (bind_ok _ _ _ _ _ E). reflexivity. }
    assert (Hne : check_regex_rules (payload_of r) <> [])
      by (rewrite Hregex; discriminate).
    rewrite <- Hregex in E |- *.
    eapply by_regex; [exact Hmiss | exact Hne | | exact E].
    eapply only_logged_trans; [exact H0 | apply logging_only_logged].
Qed.

(** *** C1: a signature match blocks, names the first matching rule, and
    leaves the semantic stage alone *)

(** C1: for every inspected request whose payload some signature rule
    matches, the rule set splits at its first matching rule, the middleware
    answers 403 naming that rule, the incident insert it hands to the engine
    carries that rule name, and no call to the analysis service is made. *)
Theorem signature_match_blocks (r : request) (w : world) :
  bypassed r = false ->
  (exists name fn, In (name, fn) OWASP_RULES /\ rule_hits fn (payload_of r) = true) ->
  exists pre name fn post w' stmts,
    OWASP_RULES = pre ++ (name, fn) :: post /\
    all_miss pre (payload_of r) /\
    rule_hits fn (payload_of r) = true /\
    middleware r w =
      (Ok (JSONResponse 403 [("detail", "Blocked by OWASP rule: " +++ name)]), w') /\
    rag_calls w' = rag_calls w /\
    executed w' =
      executed w ++
      InsertIncident (client_ip_of r) (payload_of r) name (clock w) :: stmts /\
    incident_inserts stmts = [].
Proof.
  intros Hb (n & g & Hin & Hg).
  destruct (first_hit_split OWASP_RULES (payload_of r))
    as [Hmiss | (pre & name & fn & post & E & Hpre & Hfn)].
  - rewrite (Hmiss n g Hin) in Hg. discriminate.
  - destruct (owasp_scan_hit pre name fn post (client_ip_of r) (payload_of r) w Hpre Hfn)
      as (w1 & w' & (_ & _ & Hx1 & Hc1 & Hr1) & Elog & Escan).
    destruct (log_incident_runs (client_ip_of r) (payload_of r) name w1)
      as (w2 & stmts & E2 & Hr2 & _ & Hx2 & Hi2 & _).
    rewrite Elog in E2. inversion E2; subst w2.
    exists pre, name, fn, post, w', stmts.
    split; [exact E |]. split; [exact Hpre |]. split; [exact Hfn |].
    split; [| split; [congruence | split; [| exact Hi2]]].
    + unfold payload_inspection_middleware. rewrite Hb.
      rewrite <- E in Escan. rewrite (bind_ok _ _ _ _ _ Escan). reflexivity.
    + rewrite Hx2, Hx1, Hc1. reflexivity.
Qed.

Lemma hit_contradicts_miss pre name fn post payload :
  OWASP_RULES = pre ++ (name, fn) :: post ->
  rule_hits fn payload = true ->
  all_miss OWASP_RULES payload -> False.
Proof.
  intros E Hfn Hmiss.
  assert (Hin : In (name, fn) OWASP_RULES)
    by (rewrite E; apply in_or_app; right; now left).
  rewrite (Hmiss name fn Hin) in Hfn. discriminate.
Qed.

Lemma verdict_malicious_iff members :
  json_eq_str (verdict_of members) "malicious" = true <->
  assoc "verdict" members = Some (JString "malicious").
Proof.
  unfold verdict_of. destruct (assoc "verdict" members) as [v|]; simpl.
  - destruct v; simpl; try (split; [discriminate | intros H; inversion H]).
    split.
    + intros H. apply String.eqb_eq in H. now subst.
    + intros H. inversion H. reflexivity.
  - split; discriminate.
Qed.

(** Paths that the hypotheses of a statement rule out. *)
Ltac off_path :=
  try solve
    [ exfalso; eauto using hit_contradicts_miss
    | congruence
    | match goal with
      | H : rag_escape _ = Some _, E : rag_service _ _ = _ |- _ =>
          rewrite E in H; simpl in H;
          repeat match type of H with
                 | context [is_success ?s] =>
                     match goal with Hs : is_success s = _ |- _ => rewrite Hs in H end
                 end;
          simpl in H; congruence
      end ].

(** *** C2: the failure modes of the semantic stage *)

(** C2 (the code on each failure mode): when no rule matches and the
    service location is set, a transport failure is answered with the 503
    service-unavailable response; a status outside 2xx, a body that does
    not parse and a JSON value that is no object leave the middleware as an
    uncaught exception instead.  In all four cases no statement reaches the
    engine, so no Incident row is created. *)
Theorem rag_failure_outcomes r w :
  bypassed r = false ->
  all_miss OWASP_RULES (payload_of r) ->
  check_regex_rules (payload_of r) = [] ->
  PyStr.truthy url = true ->
  rag_service url (payload_of r) = TransportFailure \/
  rag_escape (rag_service url (payload_of r)) <> None ->
  exists res w',
    middleware r w = (res, w') /\
    db w' = db w /\ executed w' = executed w /\
    (rag_service url (payload_of r) = TransportFailure ->
       res = Ok service_unavailable) /\
    (forall status parsed,
       rag_service url (payload_of r) = HttpReply status parsed ->
       is_success status = false ->
       res = Raised HTTPStatusError) /\
    (forall status,
       rag_service url (payload_of r) = HttpReply status None ->
       is_success status = true ->
       res = Raised JSONDecodeError) /\
    (forall status data,
       rag_service url (payload_of r) = HttpReply status (Some data) ->
       is_success status = true ->
       (forall members, data <> JObject members) ->
       res = Raised AttributeError).
Proof.
  intros Hb Hmiss Hregex Hurl Hfail.
  destruct (middleware_inspected r w Hb) as (res & w' & E & P).
  exists res, w'. split; [exact E |].
  destruct P as [ pre name fn post w1 w' E0 Hpre Hfn L1 Elog
                | w1 w' _ Hne L1 Efor
                | w1 w' _ _ Hoff L1 Ereq
                | w' _ _ _ Hreply U C
                | e w' _ _ _ Hesc U C
                | status members w1 w' _ _ _ Hreply Hst Hv U C Elog
                | status members w1 w' _ _ _ Hreply Hst Hv U C Ereq ];
    off_path.
  - destruct U as (Hdb & _ & Hx & _). repeat split; try assumption; intros; congruence.
  - destruct U as (Hdb & _ & Hx & _). split; [exact Hdb |]. split; [exact Hx |].
    split; [| split; [| split]].
    + intros T. rewrite T in Hesc. discriminate.
    + intros status parsed T Hs. rewrite T in Hesc. simpl in Hesc.
      rewrite Hs in Hesc. congruence.
    + intros status T Hs. rewrite T in Hesc. simpl in Hesc.
      rewrite Hs in Hesc. congruence.
    + intros status data T Hs Hobj. rewrite T in Hesc. simpl in Hesc.
      rewrite Hs in Hesc. destruct data; congruence.
  - exfalso. destruct Hfail as [T | Hn]; [congruence |].
    apply Hn. rewrite Hreply. simpl. now rewrite Hst.
  - exfalso. destruct Hfail as [T | Hn]; [congruence |].
    apply Hn. rewrite Hreply. simpl. now rewrite Hst.
Qed.

(** *** C3: a regex match blocks, lists every name, one incident write each *)

Lemma join_lists_each sep names name :
  In name names -> PyStr.contains name (PyStr.join sep names) = true.
Proof.
  intros Hin. apply contains_iff. unfold PyStr.join.
  induction names as [|x rest IH]; [destruct Hin |].
  destruct rest as [|y rest'].
  - destruct Hin as [-> | []]. exists EmptyString, EmptyString. simpl.
    induction name as [|c name IHn]; simpl; [reflexivity | now rewrite <- IHn].
  - destruct Hin as [-> | Hin].
    + exists EmptyString, (sep +++ String.concat sep (y :: rest')). reflexivity.
    + destruct (IH Hin) as (pre & post & E).
      exists (x +++ sep +++ pre), post.
      change (String.concat sep (x :: y :: rest'))
        with (x +++ sep +++ String.concat sep (y :: rest')).
      rewrite E, !append_assoc. reflexivity.
Qed.

(** C3: for every inspected request whose payload matches no signature rule
    and at least one regex rule, the middleware answers 403 with the matching
    names joined by ", " (each name occurs in the reason), hands one incident
    insert per matching name to the engine, in order, and calls no analysis
    service; with an engine that refuses nothing, the incidents table grows
    by exactly one row per matching name. *)
Theorem regex_match_blocks r w triggered :
  bypassed r = false ->
  all_miss OWASP_RULES (payload_of r) ->
  check_regex_rules (payload_of r) = triggered ->
  triggered <> [] ->
  exists w' stmts,
    middleware r w =
      (Ok (JSONResponse 403
             [("detail", "Blocked by Regex rule(s): " +++ PyStr.join ", " triggered)]),
       w') /\
    (forall name, In name triggered ->
       PyStr.contains name (PyStr.join ", " triggered) = true) /\
    executed w' = executed w ++ stmts /\
    incident_inserts stmts =
      map (fun name => (JString (client_ip_of r), JString (payload_of r), JString name))
          triggered /\
    rag_calls w' = rag_calls w /\
    (no_fault w = true ->
     exists rows,
       incidents (db w') = incidents (db w) ++ rows /\
       map rule_triggered rows = map JString triggered /\
       Forall (fun row => inc_ip row = client_ip_of r /\
                          inc_payload row = payload_of r /\
                          inc_status row = None) rows).
Proof.
  intros Hb Hmiss Hregex Hne. subst triggered.
  destruct (middleware_inspected r w Hb) as (res & w' & E & P).
  destruct P as [ pre name fn post w1 w' E0 Hpre Hfn L1 Elog
                | w1 w' _ _ L1 Efor
                | w1 w' _ Hnil Hoff L1 Ereq
                | w' _ Hnil _ Hreply U C
                | e w' _ Hnil _ Hesc U C
                | status members w1 w' _ Hnil _ Hreply Hst Hv U C Elog
                | status members w1 w' _ Hnil _ Hreply Hst Hv U C Ereq ];
    off_path.
  destruct (for_each_log_incident_runs (client_ip_of r) (payload_of r)
              (check_regex_rules (payload_of r)) w1)
    as (w2 & stmts & E2 & R2 & X2 & I2 & _).
  rewrite Efor in E2. inversion E2; subst w2.
  destruct L1 as (Hdb & Hf & Hx & Hc & Hr).
  exists w', stmts. split; [exact E |].
  split; [intros name; apply join_lists_each |].
  split; [congruence |]. split; [exact I2 |]. split; [congruence |].
  intros Hw.
  assert (Hw1 : no_fault w1 = true) by (unfold no_fault in *; now rewrite Hf).
  destruct (for_each_log_incident_healthy (client_ip_of r) (payload_of r)
              (check_regex_rules (payload_of r)) w1 Hw1)
    as (w3 & irows & rrows & E3 & _ & I3 & M3 & F3 & _).
  rewrite Efor in E3. inversion E3; subst w3.
  exists irows. rewrite <- Hdb. auto.
Qed.

(** *** C4: the request-outcome rows of one inspected request *)

Lemma all_miss_existsb payload :
  all_miss OWASP_RULES payload ->
  existsb (fun entry => rule_hits (snd entry) payload) OWASP_RULES = false.
Proof.
  intros Hmiss. destruct (existsb _ OWASP_RULES) eqn:E; [| reflexivity].
  apply existsb_exists in E. destruct E as ([name fn] & Hin & Hfn).
  simpl in Hfn. rewrite (Hmiss name fn Hin) in Hfn. discriminate.
Qed.

Lemma hit_existsb pre name fn post payload :
  OWASP_RULES = pre ++ (name, fn) :: post ->
  rule_hits fn payload = true ->
  existsb (fun entry => rule_hits (snd entry) payload) OWASP_RULES = true.
Proof.
  intros E Hfn. apply existsb_exists. exists (name, fn). split; [| exact Hfn].
  rewrite E. apply in_or_app. right. now left.
Qed.

Lemma map_const_repeat {A B} (b : B) (l : list A) :
  map (fun _ => b) l = repeat b (length l).
Proof. induction l as [|x l IH]; simpl; [reflexivity | now rewrite IH]. Qed.

Lemma no_fault_after_logged w w1 :
  only_logged w w1 -> no_fault w = true -> no_fault w1 = true.
Proof. intros (_ & Hf & _) H. unfold no_fault in *. now rewrite Hf. Qed.

Lemma no_fault_untouched w w1 :
  untouched w w1 -> no_fault w = true -> no_fault w1 = true.
Proof. intros (_ & Hf & _) H. unfold no_fault in *. now rewrite Hf. Qed.

Lemma no_fault_accepts w : no_fault w = true -> accepts 0 w = true.
Proof.
  unfold no_fault, accepts. destruct (faults w) as [|[] f]; simpl; auto.
Qed.

(** C4 (amended): for every inspected request, with an engine that refuses
    no write: an allowed request leaves exactly one request-outcome row,
    status [success]; a 403 block leaves one [error] row per incident it
    records, which is one for a signature or a semantic block and one per
    matching name for a regex block; the 503 service-unavailable answer
    leaves none, and neither does an exception leaving the semantic stage. *)
Theorem request_outcome_rows r w :
  bypassed r = false ->
  no_fault w = true ->
  exists res w' rows,
    middleware r w = (res, w') /\
    requests (db w') = requests (db w) ++ rows /\
    Forall (fun row => req_client_ip row = client_ip_of r) rows /\
    match res with
    | Ok Forwarded => map req_status rows = ["success"]
    | Ok (JSONResponse code _) =>
        if code =? 503 then rows = []
        else map req_status rows = repeat "error" (incident_count OWASP_RULES check_regex_rules r)
    | Raised _ => rows = []
    end.
Proof.
  intros Hb Hw.
  destruct (middleware_inspected r w Hb) as (res & w' & E & P).
  exists res, w'.
  destruct P as [ pre name fn post w1 w' E0 Hpre Hfn L1 Elog
                | w1 w' Hmiss Hne L1 Efor
                | w1 w' Hmiss Hnil Hoff L1 Ereq
                | w' Hmiss Hnil _ Hreply U C
                | e w' Hmiss Hnil _ Hesc U C
                | status members w1 w' Hmiss Hnil _ Hreply Hst Hv U C Elog
                | status members w1 w' Hmiss Hnil _ Hreply Hst Hv U C Ereq ].
  - destruct (log_incident_healthy (client_ip_of r) (payload_of r) name w1
                (no_fault_after_logged _ _ L1 Hw))
      as (w2 & ts & E2 & _ & _ & _ & Q2).
    rewrite Elog in E2. inversion E2; subst w2.
    destruct L1 as (Hdb & _). rewrite Hdb in Q2.
    eexists. split; [exact E |]. split; [exact Q2 |].
    split; [repeat constructor |]. simpl.
    unfold incident_count. now rewrite (hit_existsb _ _ _ _ _ E0 Hfn).
  - destruct (for_each_log_incident_healthy (client_ip_of r) (payload_of r)
                (check_regex_rules (payload_of r)) w1 (no_fault_after_logged _ _ L1 Hw))
      as (w2 & irows & rrows & E2 & _ & _ & _ & _ & Q2 & S2 & C2).
    rewrite Efor in E2. inversion E2; subst w2.
    destruct L1 as (Hdb & _). rewrite Hdb in Q2.
    exists rrows. split; [exact E |]. split; [exact Q2 |]. split; [exact C2 |].
    simpl. rewrite S2, map_const_repeat. unfold incident_count.
    rewrite (all_miss_existsb _ Hmiss).
    destruct (check_regex_rules (payload_of r)); [contradiction | reflexivity].
  - destruct (log_request_runs "success" (client_ip_of r) w1)
      as (w2 & E2 & _ & _ & _ & _ & _ & _ & Q2 & _).
    rewrite Ereq in E2. inversion E2; subst w2.
    specialize (Q2 (no_fault_accepts _ (no_fault_after_logged _ _ L1 Hw))).
    destruct L1 as (Hdb & _). rewrite Hdb in Q2.
    eexists. split; [exact E |]. split; [exact Q2 |].
    split; [repeat constructor | reflexivity].
  - destruct U as (Hdb & _). exists []. split; [exact E |].
    split; [now rewrite Hdb, app_nil_r |]. split; [constructor | reflexivity].
  - destruct U as (Hdb & _). exists []. split; [exact E |].
    split; [now rewrite Hdb, app_nil_r |]. split; [constructor | reflexivity].
  - destruct (log_incident_healthy (client_ip_of r) (payload_of r)
                (rag_rule_name str_value members) w1 (no_fault_untouched _ _ U Hw))
      as (w2 & ts & E2 & _ & _ & _ & Q2).
    rewrite Elog in E2. inversion E2; subst w2.
    destruct U as (Hdb & _). rewrite Hdb in Q2.
    eexists. split; [exact E |]. split; [exact Q2 |].
    split; [repeat constructor |]. simpl.
    unfold incident_count. rewrite (all_miss_existsb _ Hmiss), Hnil. reflexivity.
  - destruct (log_request_runs "success" (client_ip_of r) w1)
      as (w2 & E2 & _ & _ & _ & _ & _ & _ & Q2 & _).
    rewrite Ereq in E2. inversion E2; subst w2.
    specialize (Q2 (no_fault_accepts _ (no_fault_untouched _ _ U Hw))).
    destruct U as (Hdb & _). rewrite Hdb in Q2.
    eexists. split; [exact E |]. split; [exact Q2 |].
    split; [repeat constructor | reflexivity].
Qed.

(** *** C7: the rule name of a persisted incident *)

Lemma log_suricata_alert_runs ts source signature category severity w :
  exists w',
    log_suricata_alert ts source signature category severity w = (Ok tt, w') /\
    incidents (db w') = incidents (db w).
Proof.
  destruct w as [d f e c l rc]. run_recorder.
  split_faults f; eexists; split; reflexivity.
Qed.

Lemma add_incident_records key data w :
  records (fun rule => exists members, data = Members members /\ rule = intake_rule members)
          w (snd (add_incident environ str_exn key data w)).
Proof.
  unfold add_incident, try_clauses, bind, admin_auth.
  destruct (String.eqb key (ADMIN_KEY environ)); simpl.
  2: { apply records_refl. }
  destruct data as [| |members]; simpl;
    try (apply records_same_db; reflexivity).
  fold (intake_rule members).
  match goal with
  | |- context [log_incident ?i ?p ?n w] =>
      destruct (log_incident_runs i p n w) as (w1 & stmts & E1 & _);
      pose proof (log_incident_records _ _ _ _ _ _ E1) as R1;
      rewrite E1
  end.
  assert (R : records (fun rule => exists m, Members members = Members m /\ rule = intake_rule m)
                      w w1).
  { eapply records_weaken; [| exact R1]. intros rule <-. eauto. }
  unfold call_startswith.
  destruct (intake_rule members) as [| flag | literal | rule | items | entries];
    simpl; try exact R.
  destruct (PyStr.startswith rule "SURICATA").
  - unfold now. simpl.
    match goal with
    | |- context [log_suricata_alert ?t ?s ?g ?c ?v ?x] =>
        destruct (log_suricata_alert_runs t s g c v x) as (w2 & E2 & I2);
        rewrite E2
    end.
    simpl. destruct R as (rows & Hrows & F). exists rows.
    split; [| exact F]. rewrite I2. exact Hrows.
  - exact R.
Qed.

Lemma rag_rule_name_nonempty members :
  nonempty_text (rag_rule_name str_value members).
Proof. eexists. split; [reflexivity |]. unfold rag_rule_name. discriminate. Qed.

(** C7 (amended): every Incident row the middleware persists has a
    non-empty [rule_triggered] as long as the configured rule names (the
    keys of [OWASP_RULES], the names [check_regex_rules] returns) are
    non-empty; a semantic block always names its rule ["RAG: ..."].  The
    intake endpoint persists the [rule] member of the body as it is given,
    ["Unknown"] when the member is absent, so its rows have a non-empty
    [rule_triggered] whenever the member is absent or a text that is not
    empty. *)
Theorem persisted_rule_nonempty r key data w :
  (forall name fn, In (name, fn) OWASP_RULES -> name <> EmptyString) ->
  (forall payload name, In name (check_regex_rules payload) -> name <> EmptyString) ->
  (forall members, data = Members members -> nonempty_text (intake_rule members)) ->
  records nonempty_text w (snd (middleware r w)) /\
  records nonempty_text w (snd (add_incident environ str_exn key data w)).
Proof.
  intros Hkeys Hnames Hbody. split.
  - destruct (bypassed r) eqn:Hb.
    { unfold payload_inspection_middleware. rewrite Hb. apply records_refl. }
    destruct (middleware_inspected r w Hb) as (res & w' & E & P).
    rewrite E. simpl.
    destruct P as [ pre name fn post w1 w' E0 Hpre Hfn L1 Elog
                  | w1 w' Hmiss Hne L1 Efor
                  | w1 w' Hmiss Hnil Hoff L1 Ereq
                  | w' Hmiss Hnil _ Hreply U C
                  | e w' Hmiss Hnil _ Hesc U C
                  | status members w1 w' Hmiss Hnil _ Hreply Hst Hv U C Elog
                  | status members w1 w' Hmiss Hnil _ Hreply Hst Hv U C Ereq ].
    + eapply records_trans; [apply only_logged_records; exact L1 |].
      eapply records_weaken; [| exact (log_incident_records _ _ _ _ _ _ Elog)].
      intros rule <-. exists name. split; [reflexivity |]. apply (Hkeys name fn).
      rewrite E0. apply in_or_app. right. now left.
    + eapply records_trans; [apply only_logged_records; exact L1 |].
      destruct (for_each_log_incident_runs (client_ip_of r) (payload_of r)
                  (check_regex_rules (payload_of r)) w1)
        as (w2 & stmts & E2 & _ & _ & _ & R2).
      rewrite Efor in E2. inversion E2; subst w2.
      eapply records_weaken; [| exact R2].
      intros rule (name & -> & Hin). exists name. split; [reflexivity |].
      eapply Hnames. exact Hin.
    + eapply records_trans; [apply only_logged_records; exact L1 |].
      destruct (log_request_runs "success" (client_ip_of r) w1)
        as (w2 & E2 & _ & I2 & _).
      rewrite Ereq in E2. inversion E2; subst w2.
      exists []. split; [now rewrite I2, app_nil_r | constructor].
    + apply records_same_db. apply U.
    + apply records_same_db. apply U.
    + eapply records_trans; [apply records_same_db; apply U |].
      eapply records_weaken; [| exact (log_incident_records _ _ _ _ _ _ Elog)].
      intros rule <-. apply rag_rule_name_nonempty.
    + eapply records_trans; [apply records_same_db; apply U |].
      destruct (log_request_runs "success" (client_ip_of r) w1)
        as (w2 & E2 & _ & I2 & _).
      rewrite Ereq in E2. inversion E2; subst w2.
      exists []. split; [now rewrite I2, app_nil_r | constructor].
  - eapply records_weaken; [| apply add_incident_records].
    intros rule (members & Hd & ->). exact (Hbody members Hd).
Qed.

(** *** C8: the service location and the semantic stage *)

(** C8 (amended): when the service location is configured as the empty
    string, no request makes the middleware call the analysis service, and
    a request that no rule matches is allowed. *)
Theorem empty_location_skips_semantic_stage r w :
  environ "RAG_SERVICE_URL" = Some EmptyString ->
  exists res w',
    middleware r w = (res, w') /\
    rag_calls w' = rag_calls w /\
    (bypassed r = false ->
     all_miss OWASP_RULES (payload_of r) ->
     check_regex_rules (payload_of r) = [] ->
     res = Ok Forwarded).
Proof.
  intros Henv.
  assert (Hurl : PyStr.truthy url = false)
    by (unfold RAG_SERVICE_URL, PyStr.getenv; now rewrite Henv).
  destruct (bypassed r) eqn:Hb.
  { exists (Ok Forwarded), w. unfold payload_inspection_middleware. rewrite Hb.
    repeat split. }
  destruct (middleware_inspected r w Hb) as (res & w' & E & P).
  exists res, w'. split; [exact E |].
  destruct P as [ pre name fn post w1 w' E0 Hpre Hfn L1 Elog
                | w1 w' Hmiss Hne L1 Efor
                | w1 w' Hmiss Hnil Hoff L1 Ereq
                | w' Hmiss Hnil Hon Hreply U C
                | e w' Hmiss Hnil Hon Hesc U C
                | status members w1 w' Hmiss Hnil Hon Hreply Hst Hv U C Elog
                | status members w1 w' Hmiss Hnil Hon Hreply Hst Hv U C Ereq ];
    off_path.
  - destruct (log_incident_runs (client_ip_of r) (payload_of r) name w1)
      as (w2 & stmts & E2 & R2 & _).
    rewrite Elog in E2. inversion E2; subst w2.
    destruct L1 as (_ & _ & _ & _ & Hr). split; [congruence |].
    intros _ Hmiss _. exfalso. eauto using hit_contradicts_miss.
  - destruct (for_each_log_incident_runs (client_ip_of r) (payload_of r)
                (check_regex_rules (payload_of r)) w1)
      as (w2 & stmts & E2 & R2 & _).
    rewrite Efor in E2. inversion E2; subst w2.
    destruct L1 as (_ & _ & _ & _ & Hr). split; [congruence |].
    intros _ _ Hnil. contradiction.
  - destruct (log_request_runs "success" (client_ip_of r) w1)
      as (w2 & E2 & R2 & _).
    rewrite Ereq in E2. inversion E2; subst w2.
    destruct L1 as (_ & _ & _ & _ & Hr). split; [congruence | reflexivity].
Qed.

(** *** C10: the verdict member decides *)

(** C10 (amended): for every inspected request that no rule matches,
    answered by the analysis service with a 2xx status and a JSON object:
    unless the [verdict] member is the string "malicious" (absent, or any
    other value), the request is forwarded, no incident is recorded, and the
    one statement handed to the engine is the [success] request outcome,
    which becomes a row when the engine accepts it; when it is "malicious"
    the request is blocked with 403. *)
Theorem rag_verdict_decides r w status members :
  bypassed r = false ->
  all_miss OWASP_RULES (payload_of r) ->
  check_regex_rules (payload_of r) = [] ->
  PyStr.truthy url = true ->
  rag_service url (payload_of r) = HttpReply status (Some (JObject members)) ->
  is_success status = true ->
  exists res w',
    middleware r w = (res, w') /\
    (assoc "verdict" members <> Some (JString "malicious") ->
       res = Ok Forwarded /\
       incidents (db w') = incidents (db w) /\
       executed w' =
         executed w ++ [InsertRequest "success" (client_ip_of r) (clock w)] /\
       (accepts 0 w = true ->
        requests (db w') =
          requests (db w) ++
          [mk_request (requests_serial (db w) + 1) (clock w) "success"
                      (client_ip_of r)])) /\
    (assoc "verdict" members = Some (JString "malicious") ->
       res = Ok (JSONResponse 403
                   [("detail", "Blocked by RAG analysis: " +++ rag_rule_name str_value members)])).
Proof.
  intros Hb Hmiss Hnil Hurl Hreply Hst.
  destruct (middleware_inspected r w Hb) as (res & w' & E & P).
  exists res, w'. split; [exact E |].
  destruct P as [ pre name fn post w1 w' E0 Hpre Hfn L1 Elog
                | w1 w' _ Hne L1 Efor
                | w1 w' _ _ Hoff L1 Ereq
                | w' _ _ _ Hreply' U C
                | e w' _ _ _ Hesc U C
                | status' members' w1 w' _ _ _ Hreply' Hst' Hv U C Elog
                | status' members' w1 w' _ _ _ Hreply' Hst' Hv U C Ereq ];
    off_path.
  - rewrite Hreply in Hreply'. inversion Hreply'; subst status' members'.
    apply verdict_malicious_iff in Hv. split; [congruence | reflexivity].
  - rewrite Hreply in Hreply'. inversion Hreply'; subst status' members'.
    split.
    + intros _.
      destruct (log_request_runs "success" (client_ip_of r) w1)
        as (w2 & E2 & _ & I2 & _ & _ & _ & X2 & Q2 & _).
      rewrite Ereq in E2. inversion E2; subst w2.
      destruct U as (Hdb & Hf & Hx & Hc).
      unfold accepts in *. rewrite Hf, Hdb, Hc in *.
      split; [reflexivity |]. split; [exact I2 |]. split; [congruence |].
      exact Q2.
    + intros Hm. apply verdict_malicious_iff in Hm. congruence.
Qed.

End GatewayFacts.

(** * The statements at concrete requests *)

Lemma signature_match_blocks_witness :
  bypassed (post_request "' OR 1=1 --") = false /\
  exists pre name fn post w' stmts,
    sample_rules = pre ++ (name, fn) :: post /\
    all_miss pre (payload_of (post_request "' OR 1=1 --")) /\
    rule_hits fn (payload_of (post_request "' OR 1=1 --")) = true /\
    payload_inspection_middleware no_environ sample_rules sample_regex rag_benign
      sample_str_value (post_request "' OR 1=1 --") (fresh_world [])
    = (Ok (JSONResponse 403 [("detail", "Blocked by OWASP rule: " +++ name)]), w') /\
    rag_calls w' = rag_calls (fresh_world []) /\
    executed w' =
      executed (fresh_world []) ++
      InsertIncident "203.0.113.7" "' OR 1=1 --" name (clock (fresh_world [])) :: stmts /\
    incident_inserts stmts = [].
Proof.
  split; [reflexivity |].
  apply (signature_match_blocks no_environ sample_rules sample_regex rag_benign
           sample_str_value (post_request "' OR 1=1 --") (fresh_world [])).
  - reflexivity.
  - exists "SQLInjection", (matching "' OR 1=1"). split; [| reflexivity].
    simpl. auto.
Defined.

Ltac check_all_miss :=
  let name := fresh "name" in
  let fn := fresh "fn" in
  let Hin := fresh "Hin" in
  intros name fn Hin; simpl in Hin;
  repeat (destruct Hin as [Hin | Hin];
          [inversion Hin; subst; vm_compute; reflexivity |]);
  destruct Hin.

Lemma sample_rules_miss_hello :
  all_miss sample_rules (payload_of (post_request "hello world")).
Proof. check_all_miss. Defined.

Lemma sample_rules_miss_markup :
  all_miss sample_rules (payload_of (post_request "<script>x</script><img onerror=1>")).
Proof. check_all_miss. Defined.

(** The analysis service answers 500, as it does on its own failures: the
    exception leaves the middleware. *)
Lemma rag_failure_outcomes_witness :
  bypassed (post_request "hello world") = false /\
  all_miss sample_rules (payload_of (post_request "hello world")) /\
  sample_regex (payload_of (post_request "hello world")) = [] /\
  PyStr.truthy (RAG_SERVICE_URL no_environ) = true /\
  exists res w',
    payload_inspection_middleware no_environ sample_rules sample_regex rag_error
      sample_str_value (post_request "hello world") (fresh_world []) = (res, w') /\
    db w' = db (fresh_world []) /\
    res = Raised HTTPStatusError.
Proof.
  split; [reflexivity |]. split; [exact sample_rules_miss_hello |].
  split; [reflexivity |]. split; [reflexivity |].
  destruct (rag_failure_outcomes no_environ sample_rules sample_regex rag_error
              sample_str_value (post_request "hello world") (fresh_world [])
              eq_refl sample_rules_miss_hello eq_refl eq_refl)
    as (res & w' & E & Hdb & _ & _ & Hstatus & _).
  - right. vm_compute. discriminate.
  - exists res, w'. split; [exact E |]. split; [exact Hdb |].
    exact (Hstatus 500 _ eq_refl eq_refl).
Defined.

Lemma regex_match_blocks_witness :
  bypassed (post_request "<script>x</script><img onerror=1>") = false /\
  all_miss sample_rules (payload_of (post_request "<script>x</script><img onerror=1>")) /\
  sample_regex (payload_of (post_request "<script>x</script><img onerror=1>"))
    = ["XSS_SCRIPT_TAG"; "XSS_EVENT_HANDLER"] /\
  exists w' rows,
    payload_inspection_middleware no_environ sample_rules sample_regex rag_benign
      sample_str_value (post_request "<script>x</script><img onerror=1>") (fresh_world [])
    = (Ok (JSONResponse 403
             [("detail", "Blocked by Regex rule(s): XSS_SCRIPT_TAG, XSS_EVENT_HANDLER")]),
       w') /\
    incidents (db w') = incidents (db (fresh_world [])) ++ rows /\
    map rule_triggered rows = map JString ["XSS_SCRIPT_TAG"; "XSS_EVENT_HANDLER"].
Proof.
  split; [reflexivity |]. split; [exact sample_rules_miss_markup |].
  split; [reflexivity |].
  destruct (regex_match_blocks no_environ sample_rules sample_regex rag_benign
              sample_str_value (post_request "<script>x</script><img onerror=1>")
              (fresh_world []) ["XSS_SCRIPT_TAG"; "XSS_EVENT_HANDLER"]
              eq_refl sample_rules_miss_markup eq_refl)
    as (w' & stmts & E & _ & _ & _ & _ & Hrows).
  - discriminate.
  - destruct (Hrows eq_refl) as (rows & Hi & Hm & _).
    exists w', rows. split; [exact E |]. split; [exact Hi | exact Hm].
Defined.

(** C4, as stated, fails: two regex names leave two request-outcome rows
    for one request, and the 503 service-unavailable answer leaves none. *)
Lemma request_outcome_rows_not_one :
  let markup := post_request "<script>x</script><img onerror=1>" in
  let hello := post_request "hello world" in
  let blocked := payload_inspection_middleware no_environ sample_rules sample_regex
                   rag_benign sample_str_value markup (fresh_world []) in
  let unavailable := payload_inspection_middleware no_environ sample_rules sample_regex
                       rag_down sample_str_value hello (fresh_world []) in
  bypassed markup = false /\
  map req_status (requests (db (snd blocked))) = ["error"; "error"] /\
  bypassed hello = false /\
  fst unavailable =
    Ok (JSONResponse 503 [("detail", "Service Unavailable: Analysis service is down.")]) /\
  requests (db (snd unavailable)) = [].
Proof. vm_compute. repeat split. Qed.

Lemma request_outcome_rows_witness :
  bypassed (post_request "hello world") = false /\
  no_fault (fresh_world []) = true /\
  exists res w' rows,
    payload_inspection_middleware no_environ sample_rules sample_regex rag_benign
      sample_str_value (post_request "hello world") (fresh_world []) = (res, w') /\
    requests (db w') = requests (db (fresh_world [])) ++ rows /\
    Forall (fun row => req_client_ip row = client_ip_of (post_request "hello world")) rows /\
    match res with
    | Ok Forwarded => map req_status rows = ["success"]
    | Ok (JSONResponse code _) =>
        if code =? 503 then rows = []
        else map req_status rows =
             repeat "error" (incident_count sample_rules sample_regex
                                            (post_request "hello world"))
    | Raised _ => rows = []
    end.
Proof.
  split; [reflexivity |]. split; [reflexivity |].
  apply (request_outcome_rows no_environ sample_rules sample_regex rag_benign
           sample_str_value (post_request "hello world") (fresh_world []));
    reflexivity.
Defined.

(** C7, as stated, fails: the intake endpoint persists an incident whose
    [rule] member is the empty string. *)
Lemma add_incident_persists_empty_rule :
  let body := Members [("ip", JString "10.0.0.9"); ("payload", JString "probe");
                       ("rule", JString EmptyString)] in
  let out := add_incident no_environ sample_str_exn "supersecretadminkey" body
               (fresh_world []) in
  fst out = Ok (JSONResponse 200 [("status", "success");
                                  ("message", "Incident logged successfully")]) /\
  map rule_triggered (incidents (db (snd out))) = [JString EmptyString].
Proof. vm_compute. split; reflexivity. Qed.

Lemma persisted_rule_nonempty_witness :
  let body := Members [("ip", JString "10.0.0.9"); ("payload", JString "probe")] in
  records nonempty_text (fresh_world [])
    (snd (payload_inspection_middleware no_environ sample_rules sample_regex rag_benign
            sample_str_value (post_request "' OR 1=1 --") (fresh_world []))) /\
  records nonempty_text (fresh_world [])
    (snd (add_incident no_environ sample_str_exn "supersecretadminkey" body
            (fresh_world []))).
Proof.
  cbv zeta.
  apply (persisted_rule_nonempty no_environ sample_rules sample_regex rag_benign
           sample_str_value sample_str_exn).
  - intros name fn Hin. simpl in Hin.
    repeat (destruct Hin as [Hin | Hin]; [inversion Hin; discriminate |]).
    destruct Hin.
  - intros payload name. unfold sample_regex.
    destruct (PyStr.contains "<script" payload);
      destruct (PyStr.contains "onerror=" payload); simpl;
      intros Hin;
      repeat (destruct Hin as [Hin | Hin]; [subst; discriminate |]);
      destruct Hin.
  - intros members Hm. inversion Hm. exists "Unknown".
    split; [reflexivity | discriminate].
Defined.

(** C8, as stated, fails: with no service location in the environment the
    default location is used, and a request that no rule matches is sent to
    the analysis service. *)
Lemma absent_location_calls_analysis_service :
  let out := payload_inspection_middleware no_environ sample_rules sample_regex
               rag_benign sample_str_value (post_request "hello world")
               (fresh_world []) in
  no_environ "RAG_SERVICE_URL" = None /\
  bypassed (post_request "hello world") = false /\
  rag_calls (snd out) = [("http://rag-service:8000/analyze-payload", "hello world")].
Proof. vm_compute. repeat split. Qed.

Lemma empty_location_skips_semantic_stage_witness :
  empty_location "RAG_SERVICE_URL" = Some EmptyString /\
  exists w',
    payload_inspection_middleware empty_location sample_rules sample_regex rag_down
      sample_str_value (post_request "hello world") (fresh_world [])
    = (Ok Forwarded, w') /\
    rag_calls w' = [].
Proof.
  split; [reflexivity |].
  destruct (empty_location_skips_semantic_stage empty_location sample_rules
              sample_regex rag_down sample_str_value (post_request "hello world")
              (fresh_world []) eq_refl)
    as (res & w' & E & Hr & Hallow).
  exists w'. split; [| exact Hr].
  rewrite E. f_equal. exact (Hallow eq_refl sample_rules_miss_hello eq_refl).
Defined.

(** C10, as stated, fails: a 2xx answer whose body is the JSON value
    [null] parses and has no [verdict] member, yet the request is not
    allowed: [.get] raises, the exception leaves the middleware, and no
    success outcome is written. *)
Lemma rag_null_body_is_not_allowed :
  let out := payload_inspection_middleware no_environ sample_rules sample_regex
               rag_null sample_str_value (post_request "hello world")
               (fresh_world []) in
  bypassed (post_request "hello world") = false /\
  rag_null (RAG_SERVICE_URL no_environ) "hello world" = HttpReply 200 (Some JNull) /\
  is_success 200 = true /\
  fst out = Raised AttributeError /\
  fst out <> Ok Forwarded /\
  executed (snd out) = [] /\
  requests (db (snd out)) = [].
Proof. vm_compute. repeat split. discriminate. Qed.

Lemma rag_verdict_decides_witness :
  bypassed (post_request "hello world") = false /\
  all_miss sample_rules (payload_of (post_request "hello world")) /\
  sample_regex (payload_of (post_request "hello world")) = [] /\
  PyStr.truthy (RAG_SERVICE_URL no_environ) = true /\
  is_success 200 = true /\
  exists w',
    payload_inspection_middleware no_environ sample_rules sample_regex rag_odd_verdict
      sample_str_value (post_request "hello world") (fresh_world [])
    = (Ok Forwarded, w') /\
    incidents (db w') = [] /\
    requests (db w') = [mk_request 1 0 "success" "203.0.113.7"].
Proof.
  split; [reflexivity |]. split; [exact sample_rules_miss_hello |].
  split; [reflexivity |]. split; [reflexivity |]. split; [reflexivity |].
  destruct (rag_verdict_decides no_environ sample_rules sample_regex rag_odd_verdict
              sample_str_value (post_request "hello world") (fresh_world [])
              200 [("verdict", JString "Malicious")]
              eq_refl sample_rules_miss_hello eq_refl eq_refl eq_refl eq_refl)
    as (res & w' & E & Hallow & _).
  destruct Hallow as (Hres & Hi & _ & Hq); [vm_compute; discriminate |].
  exists w'. split; [rewrite E; f_equal; exact Hres |].
  split; [exact Hi | exact (Hq eq_refl)].
Defined.

(** * Further properties of the recorder *)

Lemma extends_refl d : extends d d.
Proof.
  exists [], [], [], []. rewrite !app_nil_r. repeat split; constructor.
Qed.

Lemma extends_same d w w' : db w = d -> db w' = d -> extends (db w) (db w').
Proof. intros -> ->. apply extends_refl. Qed.

Lemma refers_to_more rows more t : refers_to rows t -> refers_to (rows ++ more) t.
Proof. unfold refers_to. rewrite map_app, in_app_iff. auto. Qed.

Lemma extends_trans d1 d2 d3 : extends d1 d2 -> extends d2 d3 -> extends d1 d3.
Proof.
  intros (i1 & q1 & t1 & s1 & Hi1 & Hq1 & Ht1 & Hs1 & Fi1 & Fq1 & Ft1)
         (i2 & q2 & t2 & s2 & Hi2 & Hq2 & Ht2 & Hs2 & Fi2 & Fq2 & Ft2).
  exists (i1 ++ i2), (q1 ++ q2), (t1 ++ t2), (s1 ++ s2).
  rewrite Hi2, Hq2, Ht2, Hs2, Hi1, Hq1, Ht1, Hs1, !app_assoc.
  repeat split; try (apply Forall_app; split; assumption).
  apply Forall_app. split.
  - eapply Forall_impl; [| exact Ft1]. intros t Ht.
    rewrite Hi1 in Ht. now apply refers_to_more.
  - rewrite Hi2, Hi1 in Ft2. exact Ft2.
Qed.

Lemma extends_consistent d d' : extends d d' -> consistent d -> consistent d'.
Proof.
  intros (i & q & t & s & Hi & Hq & Ht & _ & Fi & Fq & Ft) (Ci & Cq & Ct).
  unfold consistent. rewrite Hq, Ht. repeat split.
  - rewrite Hi. apply Forall_app. split; [exact Ci | exact Fi].
  - apply Forall_app. now split.
  - apply Forall_app. split; [| exact Ft].
    eapply Forall_impl; [| exact Ct]. intros x Hx.
    rewrite Hi. now apply refers_to_more.
Qed.

(** Fixes the four lists of rows added; [added_rows] then settles the
    conditions on them. *)
Ltac pin4 :=
  do 4 eexists;
  split; [close_lists |]; split; [close_lists |];
  split; [close_lists |]; split; [close_lists |].

Ltac each_row tac :=
  repeat first [apply Forall_nil | apply Forall_cons; [tac |]].

Ltac added_rows :=
  pin4;
  split; [each_row ltac:(reflexivity) |];
  split; [each_row ltac:(first [now left | now right]) |];
  each_row ltac:(unfold refers_to; simpl; rewrite map_app, in_app_iff;
                 right; now left).

Lemma log_request_extends status ip w :
  request_status_ok (mk_request 0 0 status ip) ->
  extends (db w) (db (snd (log_request status ip w))).
Proof.
  intros Hs. unfold request_status_ok in Hs. simpl in Hs.
  destruct w as [d f e c l r]. run_recorder.
  split_faults f; pin4;
    (split; [each_row ltac:(reflexivity) |]);
    (split; [each_row ltac:(exact Hs) | each_row ltac:(reflexivity)]).
Qed.

Lemma log_suricata_alert_extends ts source signature category severity w :
  extends (db w)
          (db (snd (log_suricata_alert ts source signature category severity w))).
Proof.
  destruct w as [d f e c l r]. run_recorder.
  split_faults f; pin4; repeat split; apply Forall_nil.
Qed.

Lemma log_incident_extends ip payload rule w :
  extends (db w) (db (snd (log_incident ip payload rule w))).
Proof.
  destruct w as [d f e c l r].
  destruct rule as [| flag | literal | rule | items | members];
    try (run_recorder; split_faults f; added_rows).
  run_recorder.
  split_faults f.
  - split_rule rule; added_rows.
  - added_rows.
  - split_rule rule.
    + split_faults f; [| split_faults f | split_faults f]; added_rows.
    + split_faults f; [| split_faults f | split_faults f]; added_rows.
    + split_faults f; added_rows.
Qed.

(** X1: [log_request], [log_ttp] and [log_suricata_alert] never raise: each
    hands exactly one insert to the engine; accepted, the insert has its
    effect and success is logged; refused, the tables are left as they were
    and the failure is logged, nothing reaching the caller. *)
Theorem single_insert_loggers_best_effort w :
  (forall status ip, exists w',
     log_request status ip w = (Ok tt, w') /\
     best_effort_write (InsertRequest status ip (clock w))
       (RequestLogged status ip) FailedToLogRequest w w') /\
  (forall incident_id tid tname description, exists w',
     log_ttp incident_id tid tname description w = (Ok tt, w') /\
     best_effort_write (InsertTTP incident_id tid tname description (clock w))
       (LoggedTTP tid tname) FailedToLogTTP w w') /\
  (forall ts source signature category severity, exists w',
     log_suricata_alert ts source signature category severity w = (Ok tt, w') /\
     best_effort_write (InsertSuricata ts source signature category severity)
       (SuricataAlertLogged signature category) FailedToLogSuricataAlert w w').
Proof.
  destruct w as [d f e c l r]. unfold best_effort_write, accepts.
  split; [| split]; intros; run_recorder;
    split_faults f; eexists; (split; [reflexivity |]); simpl;
    repeat split; intros; congruence.
Qed.

Lemma statuses_kept id rows :
  Forall2 (fun before after =>
             inc_status after = inc_status before \/
             (inc_id before = id /\ inc_status after = Some "handled"))
          rows rows.
Proof. induction rows; constructor; auto. Qed.

(** X3: [mark_incident_handled] only ever writes the status column: the
    other columns of every incident, the number and order of the incidents
    and the three other tables are as before, and a status either stays as
    it was or becomes [handled], on rows carrying the id only. *)
Theorem mark_incident_handled_touches_status_only incident_id w :
  exists ok w',
    mark_incident_handled incident_id w = (Ok ok, w') /\
    map incident_facts (incidents (db w')) = map incident_facts (incidents (db w)) /\
    Forall2 (fun before after =>
               inc_status after = inc_status before \/
               (inc_id before = incident_id /\ inc_status after = Some "handled"))
            (incidents (db w)) (incidents (db w')) /\
    requests (db w') = requests (db w) /\
    ttps (db w') = ttps (db w) /\
    suricata_logs (db w') = suricata_logs (db w).
Proof.
  destruct w as [d f e c l r]. run_recorder.
  pose proof (statuses_kept incident_id (incidents d)) as Hkeep.
  do 2 eexists. split; [reflexivity |]. simpl. repeat split; auto.
Qed.

Lemma for_each_log_incident_extends ip payload (names : list string) w :
  extends (db w)
          (db (snd (for_each names (fun name => log_incident ip payload name) w))).
Proof.
  revert w. induction names as [|name names IH]; intros w.
  - apply extends_refl.
  - destruct (log_incident_runs ip payload name w) as (w1 & stmts & E1 & _).
    simpl. rewrite (bind_ok _ _ _ _ _ E1).
    eapply extends_trans; [| apply IH].
    pose proof (log_incident_extends ip payload name w) as H.
    rewrite E1 in H. exact H.
Qed.

Lemma for_each_log_incident_alerts ip payload (names : list string) w :
  suricata_logs (db (snd (for_each names (fun name => log_incident ip payload name) w)))
  = suricata_logs (db w).
Proof.
  revert w. induction names as [|name names IH]; intros w; [reflexivity |].
  destruct (log_incident_runs ip payload name w) as (w1 & stmts & E1 & _ & S1 & _).
  simpl. rewrite (bind_ok _ _ _ _ _ E1). rewrite IH. exact S1.
Qed.

Lemma mark_incident_handled_consistent incident_id w :
  consistent (db w) -> consistent (db (snd (mark_incident_handled incident_id w))).
Proof. intros C. exact C. Qed.

Section GatewayInvariants.

Variable environ : string -> option string.
Variable OWASP_RULES : list (string * rule_fn).
Variable check_regex_rules : string -> list string.
Variable rag_service : string -> string -> rag_reply.
Variable str_value : json -> string.
Variable str_exn : exn -> string.

Local Abbreviation middleware :=
  (payload_inspection_middleware environ OWASP_RULES check_regex_rules
                                 rag_service str_value).
Local Abbreviation url := (RAG_SERVICE_URL environ).

Lemma extends_after w w0 w1 :
  db w0 = db w -> extends (db w0) (db w1) -> extends (db w) (db w1).
Proof. intros <-. auto. Qed.

Lemma middleware_extends r w : extends (db w) (db (snd (middleware r w))).
Proof.
  destruct (bypassed r) eqn:Hb.
  { unfold payload_inspection_middleware. rewrite Hb. apply extends_refl. }
  destruct (middleware_inspected environ OWASP_RULES check_regex_rules rag_service
              str_value r w Hb) as (res & w' & E & P).
  rewrite E. simpl.
  destruct P as [ pre name fn post w1 w' E0 Hpre Hfn L1 Elog
                | w1 w' Hmiss Hne L1 Efor
                | w1 w' Hmiss Hnil Hoff L1 Ereq
                | w' Hmiss Hnil _ Hreply U C
                | e w' Hmiss Hnil _ Hesc U C
                | status members w1 w' Hmiss Hnil _ Hreply Hst Hv U C Elog
                | status members w1 w' Hmiss Hnil _ Hreply Hst Hv U C Ereq ].
  - apply (extends_after w w1); [apply L1 |].
    pose proof (log_incident_extends (client_ip_of r) (payload_of r) name w1) as H.
    now rewrite Elog in H.
  - apply (extends_after w w1); [apply L1 |].
    pose proof (for_each_log_incident_extends (client_ip_of r) (payload_of r)
                  (check_regex_rules (payload_of r)) w1) as H.
    now rewrite Efor in H.
  - apply (extends_after w w1); [apply L1 |].
    pose proof (log_request_extends "success" (client_ip_of r) w1) as H.
    rewrite Ereq in H. apply H. now left.
  - apply (extends_after w w'); [apply U | apply extends_refl].
  - apply (extends_after w w'); [apply U | apply extends_refl].
  - apply (extends_after w w1); [apply U |].
    pose proof (log_incident_extends (client_ip_of r) (payload_of r)
                  (rag_rule_name str_value members) w1) as H.
    now rewrite Elog in H.
  - apply (extends_after w w1); [apply U |].
    pose proof (log_request_extends "success" (client_ip_of r) w1) as H.
    rewrite Ereq in H. apply H. now left.
Qed.

Lemma middleware_alerts r w :
  suricata_logs (db (snd (middleware r w))) = suricata_logs (db w).
Proof.
  destruct (bypassed r) eqn:Hb.
  { unfold payload_inspection_middleware. now rewrite Hb. }
  destruct (middleware_inspected environ OWASP_RULES check_regex_rules rag_service
              str_value r w Hb) as (res & w' & E & P).
  rewrite E. simpl.
  destruct P as [ pre name fn post w1 w' E0 Hpre Hfn L1 Elog
                | w1 w' Hmiss Hne L1 Efor
                | w1 w' Hmiss Hnil Hoff L1 Ereq
                | w' Hmiss Hnil _ Hreply U C
                | e w' Hmiss Hnil _ Hesc U C
                | status members w1 w' Hmiss Hnil _ Hreply Hst Hv U C Elog
                | status members w1 w' Hmiss Hnil _ Hreply Hst Hv U C Ereq ].
  - destruct (log_incident_runs (client_ip_of r) (payload_of r) name w1)
      as (w2 & stmts & E2 & _ & S2 & _).
    rewrite Elog in E2. inversion E2; subst w2.
    destruct L1 as (Hdb & _). now rewrite S2, Hdb.
  - pose proof (for_each_log_incident_alerts (client_ip_of r) (payload_of r)
                  (check_regex_rules (payload_of r)) w1) as H.
    rewrite Efor in H. simpl in H. destruct L1 as (Hdb & _). now rewrite H, Hdb.
  - destruct (log_request_runs "success" (client_ip_of r) w1)
      as (w2 & E2 & _ & _ & _ & S2 & _).
    rewrite Ereq in E2. inversion E2; subst w2.
    destruct L1 as (Hdb & _). now rewrite S2, Hdb.
  - destruct U as (Hdb & _). now rewrite Hdb.
  - destruct U as (Hdb & _). now rewrite Hdb.
  - destruct (log_incident_runs (client_ip_of r) (payload_of r)
                (rag_rule_name str_value members) w1)
      as (w2 & stmts & E2 & _ & S2 & _).
    rewrite Elog in E2. inversion E2; subst w2.
    destruct U as (Hdb & _). now rewrite S2, Hdb.
  - destruct (log_request_runs "success" (client_ip_of r) w1)
      as (w2 & E2 & _ & _ & _ & S2 & _).
    rewrite Ereq in E2. inversion E2; subst w2.
    destruct U as (Hdb & _). now rewrite S2, Hdb.
Qed.

Lemma add_incident_extends key data w :
  extends (db w) (db (snd (add_incident environ str_exn key data w))).
Proof.
  unfold add_incident, try_clauses, bind, admin_auth.
  destruct (String.eqb key (ADMIN_KEY environ)); simpl; [| apply extends_refl].
  destruct data as [| |members]; simpl; try apply extends_refl.
  match goal with
  | |- context [log_incident ?i ?p ?n w] =>
      destruct (log_incident_runs i p n w) as (w1 & stmts & E1 & _);
      pose proof (log_incident_extends i p n w) as X1;
      rewrite E1 in X1; rewrite E1
  end.
  simpl in X1. fold (intake_rule members). unfold call_startswith.
  destruct (intake_rule members) as [| flag | literal | rule | items | entries];
    simpl; try exact X1.
  destruct (PyStr.startswith rule "SURICATA").
  - unfold now. simpl.
    match goal with
    | |- context [log_suricata_alert ?t ?s ?g ?c ?v ?x] =>
        destruct (log_suricata_alert_runs t s g c v x) as (w2 & E2 & _);
        pose proof (log_suricata_alert_extends t s g c v x) as X2;
        rewrite E2 in X2; rewrite E2
    end.
    simpl in *. eapply extends_trans; [exact X1 | exact X2].
  - exact X1.
Qed.

(** X4: neither the middleware nor the intake endpoint ever deletes or
    alters a stored row: whatever the request, the body and the engine's
    faults, each table afterwards is the table before with rows added at
    its end (new incidents without a status, new request outcomes [success] or
    [error], new technique rows pointing to a stored incident); the
    middleware adds no alert row at all. *)
Theorem entry_points_only_append r key data w :
  extends (db w) (db (snd (middleware r w))) /\
  suricata_logs (db (snd (middleware r w))) = suricata_logs (db w) /\
  extends (db w) (db (snd (add_incident environ str_exn key data w))).
Proof.
  split; [apply middleware_extends |].
  split; [apply middleware_alerts | apply add_incident_extends].
Qed.

(** X5: three invariants of the tables are kept by the middleware, by the
    intake endpoint and by [mark_incident_handled], whatever the body holds
    and whatever the engine refuses on the way: no incident has a status
    (the column is NULL, as no insert fills it and no update reaches the
    engine); a request outcome is a [success] or an [error]; every
    technique row points to a stored incident. *)
Theorem entry_points_keep_consistent r key data incident_id w :
  consistent (db w) ->
  consistent (db (snd (middleware r w))) /\
  consistent (db (snd (add_incident environ str_exn key data w))) /\
  consistent (db (snd (mark_incident_handled incident_id w))).
Proof.
  intros C. split; [| split].
  - eapply extends_consistent; [apply middleware_extends | exact C].
  - eapply extends_consistent; [apply add_incident_extends | exact C].
  - now apply mark_incident_handled_consistent.
Qed.

(** ** Further properties of the middleware *)

Lemma startswith_iff s p :
  PyStr.startswith s p = true <-> exists rest, s = p +++ rest.
Proof. apply prefix_iff. Qed.

(** X6: a request whose path begins with [/api/], [/admin] or [/health] is
    handed on untouched: no rule is evaluated, nothing is logged or written,
    the analysis service is not called, whatever the payload holds.  The
    test is on the leading characters only. *)
Theorem internal_paths_bypass r w :
  (exists prefix rest,
     In prefix ["/api/"; "/admin"; "/health"] /\ path r = prefix +++ rest) ->
  payload_inspection_middleware environ OWASP_RULES check_regex_rules
    rag_service str_value r w = (Ok Forwarded, w).
Proof.
  intros (prefix & rest & Hin & Hpath).
  assert (Hb : bypassed r = true).
  { unfold bypassed, PyStr.startswith_any. apply existsb_exists.
    exists prefix. split; [exact Hin |]. apply startswith_iff. eauto. }
  unfold payload_inspection_middleware. rewrite Hb. reflexivity.
Qed.

Lemma first_hit_unique payload pre name fn post pre' name' fn' post' :
  pre ++ (name, fn) :: post = pre' ++ (name', fn') :: post' ->
  all_miss pre payload -> rule_hits fn payload = true ->
  all_miss pre' payload -> rule_hits fn' payload = true ->
  name = name'.
Proof.
  revert pre'. induction pre as [|[n g] pre IH]; intros pre' E Hpre Hfn Hpre' Hfn'.
  - destruct pre' as [|[n' g'] pre']; simpl in E.
    + now inversion E.
    + assert (Hg' : rule_hits g' payload = false) by (apply (Hpre' n'); now left).
      inversion E. congruence.
  - assert (Hg : rule_hits g payload = false) by (apply (Hpre n); now left).
    destruct pre' as [|[n' g'] pre']; simpl in E.
    + inversion E. congruence.
    + inversion E as [[En Eg Erest]].
      apply (IH pre' Erest); try assumption.
      * intros a b H. apply (Hpre a b). now right.
      * intros a b H. apply (Hpre' a b). now right.
Qed.

(** Two paths that the facts at hand rule out together. *)
Ltac clash :=
  try solve
    [ exfalso; eauto using hit_contradicts_miss
    | congruence
    | match goal with
      | H : rag_escape _ = Some _, E : rag_service _ _ = _ |- _ =>
          rewrite E in H; simpl in H;
          repeat match type of H with
                 | context [is_success ?s] =>
                     match goal with Hs : is_success s = _ |- _ => rewrite Hs in H end
                 end;
          simpl in H; congruence
      end ].

Lemma inspected_result_unique r w1 w2 res1 res2 w1' w2' :
  inspected environ OWASP_RULES check_regex_rules rag_service str_value r w1 res1 w1' ->
  inspected environ OWASP_RULES check_regex_rules rag_service str_value r w2 res2 w2' ->
  res1 = res2.
Proof.
  intros P1 P2.
  destruct P1 as [ pre name fn post v1 v1' E0 Hpre Hfn L1 Elog
                 | v1 v1' Hmiss Hne L1 Efor
                 | v1 v1' Hmiss Hnil Hoff L1 Ereq
                 | v1' Hmiss Hnil Hon Hreply U C
                 | e v1' Hmiss Hnil Hon Hesc U C
                 | status members v1 v1' Hmiss Hnil Hon Hreply Hst Hv U C Elog
                 | status members v1 v1' Hmiss Hnil Hon Hreply Hst Hv U C Ereq ];
    destruct P2 as [ pre2 name2 fn2 post2 v2 v2' E02 Hpre2 Hfn2 L2 Elog2
                   | v2 v2' Hmiss2 Hne2 L2 Efor2
                   | v2 v2' Hmiss2 Hnil2 Hoff2 L2 Ereq2
                   | v2' Hmiss2 Hnil2 Hon2 Hreply2 U2 C2
                   | e2 v2' Hmiss2 Hnil2 Hon2 Hesc2 U2 C2
                   | status2 members2 v2 v2' Hmiss2 Hnil2 Hon2 Hreply2 Hst2 Hv2 U2 C2 Elog2
                   | status2 members2 v2 v2' Hmiss2 Hnil2 Hon2 Hreply2 Hst2 Hv2 U2 C2 Ereq2 ];
    clash.
  - rewrite E0 in E02.
    now rewrite (first_hit_unique _ _ _ _ _ _ _ _ _ E02 Hpre Hfn Hpre2 Hfn2).
Qed.

(** X7: the answer to a request does not depend on the world it is
    inspected in: the contents of the tables, the log and the writes the
    engine is going to refuse change nothing about the verdict. *)
Theorem verdict_independent_of_world r w1 w2 :
  fst (payload_inspection_middleware environ OWASP_RULES check_regex_rules
         rag_service str_value r w1)
  = fst (payload_inspection_middleware environ OWASP_RULES check_regex_rules
           rag_service str_value r w2).
Proof.
  destruct (bypassed r) eqn:Hb.
  { unfold payload_inspection_middleware. now rewrite Hb. }
  destruct (middleware_inspected environ OWASP_RULES check_regex_rules rag_service
              str_value r w1 Hb) as (res1 & w1' & E1 & P1).
  destruct (middleware_inspected environ OWASP_RULES check_regex_rules rag_service
              str_value r w2 Hb) as (res2 & w2' & E2 & P2).
  rewrite E1, E2. simpl. eapply inspected_result_unique; eassumption.
Qed.

(** X8: one request makes at most one call to the analysis service, and
    makes it exactly when the path is inspected, no signature rule and no
    regex rule matches and a service location is set; the call carries the
    configured location and the combined payload (body, then query string),
    whatever the service then answers. *)
Theorem semantic_stage_called_once r w :
  rag_calls (snd (middleware r w)) =
  rag_calls w ++
  (if semantic_stage_reached environ OWASP_RULES check_regex_rules r
   then [(url, payload_of r)] else []).
Proof.
  unfold semantic_stage_reached.
  destruct (bypassed r) eqn:Hb.
  { unfold payload_inspection_middleware. rewrite Hb. simpl. now rewrite app_nil_r. }
  destruct (middleware_inspected environ OWASP_RULES check_regex_rules rag_service
              str_value r w Hb) as (res & w' & E & P).
  rewrite E. simpl.
  destruct P as [ pre name fn post w1 w' E0 Hpre Hfn L1 Elog
                | w1 w' Hmiss Hne L1 Efor
                | w1 w' Hmiss Hnil Hoff L1 Ereq
                | w' Hmiss Hnil Hon Hreply U C
                | e w' Hmiss Hnil Hon Hesc U C
                | status members w1 w' Hmiss Hnil Hon Hreply Hst Hv U C Elog
                | status members w1 w' Hmiss Hnil Hon Hreply Hst Hv U C Ereq ];
    try rewrite (all_miss_existsb OWASP_RULES _ Hmiss);
    try rewrite Hnil; try rewrite Hon; try rewrite Hoff; simpl.
  - rewrite (hit_existsb OWASP_RULES _ _ _ _ _ E0 Hfn). simpl. rewrite app_nil_r.
    destruct (log_incident_runs (client_ip_of r) (payload_of r) name w1)
      as (w2 & stmts & E2 & R2 & _).
    rewrite Elog in E2. inversion E2; subst w2.
    destruct L1 as (_ & _ & _ & _ & Hr). congruence.
  - destruct (check_regex_rules (payload_of r)) eqn:Hc; [contradiction |].
    simpl. rewrite app_nil_r.
    destruct (for_each_log_incident_runs (client_ip_of r) (payload_of r) (s :: l) w1)
      as (w2 & stmts & E2 & R2 & _).
    rewrite Efor in E2. inversion E2; subst w2.
    destruct L1 as (_ & _ & _ & _ & Hr). congruence.
  - rewrite app_nil_r.
    destruct (log_request_runs "success" (client_ip_of r) w1) as (w2 & E2 & R2 & _).
    rewrite Ereq in E2. inversion E2; subst w2.
    destruct L1 as (_ & _ & _ & _ & Hr). congruence.
  - exact C.
  - exact C.
  - destruct (log_incident_runs (client_ip_of r) (payload_of r)
                (rag_rule_name str_value members) w1)
      as (w2 & stmts & E2 & R2 & _).
    rewrite Elog in E2. inversion E2; subst w2. congruence.
  - destruct (log_request_runs "success" (client_ip_of r) w1) as (w2 & E2 & R2 & _).
    rewrite Ereq in E2. inversion E2; subst w2. congruence.
Qed.


(** ** Further properties of the intake endpoint *)

Lemma alert_inserts_app qs1 qs2 :
  alert_inserts (qs1 ++ qs2) = alert_inserts qs1 ++ alert_inserts qs2.
Proof.
  induction qs1 as [|q qs1 IH]; [reflexivity |].
  destruct q; simpl; rewrite IH; reflexivity.
Qed.

Lemma log_incident_no_alert ip payload rule w :
  exists w' stmts,
    log_incident ip payload rule w = (Ok tt, w') /\
    executed w' = executed w ++ stmts /\
    incident_inserts stmts = [(ip, payload, rule)] /\
    alert_inserts stmts = [].
Proof.
  destruct w as [d f e c l r].
  destruct rule as [| flag | literal | rule | items | members];
    try (run_recorder; split_faults f; do 2 eexists; pin3; reflexivity).
  run_recorder.
  split_faults f.
  - split_rule rule; do 2 eexists; pin3; reflexivity.
  - do 2 eexists; pin3; reflexivity.
  - split_rule rule.
    + split_faults f; [| split_faults f | split_faults f];
        do 2 eexists; pin3; reflexivity.
    + split_faults f; [| split_faults f | split_faults f];
        do 2 eexists; pin3; reflexivity.
    + split_faults f; do 2 eexists; pin3; reflexivity.
Qed.

Lemma log_suricata_alert_attempt ts source signature category severity w :
  exists w',
    log_suricata_alert ts source signature category severity w = (Ok tt, w') /\
    executed w' =
      executed w ++ [InsertSuricata ts source signature category severity] /\
    incidents (db w') = incidents (db w) /\
    requests (db w') = requests (db w) /\
    ttps (db w') = ttps (db w) /\
    (accepts 0 w = true ->
     suricata_logs (db w') =
       suricata_logs (db w) ++
       [mk_suricata (suricata_serial (db w) + 1) ts source signature category severity]).
Proof.
  destruct w as [d f e c l r]. unfold accepts. run_recorder.
  split_faults f; eexists; (split; [reflexivity |]); simpl;
    repeat split; intros; congruence.
Qed.

(** X10: a key other than [ADMIN_KEY] makes the intake endpoint raise the
    401 [HTTPException] before it reads the body: nothing is logged,
    written or attempted. *)
Theorem add_incident_unauthorized key data w :
  key <> ADMIN_KEY environ ->
  add_incident environ str_exn key data w
  = (Raised (HTTPException 401 "Unauthorized access."), w).
Proof.
  intros Hkey. apply String.eqb_neq in Hkey.
  unfold add_incident, try_clauses, bind, admin_auth. rewrite Hkey. reflexivity.
Qed.

(** X11: with the right key, a body that [request.json()] cannot read, or
    that is no JSON object, is answered with a 500 JSON response carrying
    the text of the exception, not with an exception; the failure is
    logged and no statement reaches the engine. *)
Theorem add_incident_unreadable_body data w :
  data = Unparseable \/ data = NotAnObject ->
  exists e w',
    add_incident environ str_exn (ADMIN_KEY environ) data w
    = (Ok (JSONResponse 500 [("status", "error"); ("message", str_exn e)]), w') /\
    (data = Unparseable -> e = JSONDecodeError) /\
    (data = NotAnObject -> e = AttributeError) /\
    db w' = db w /\ executed w' = executed w /\ faults w' = faults w /\
    logs w' = logs w ++ [FailedToLogIncident].
Proof.
  intros [-> | ->];
    unfold add_incident, try_clauses, bind, admin_auth;
    rewrite String.eqb_refl; simpl;
    do 2 eexists; (split; [reflexivity |]); simpl;
    repeat split; intros; congruence.
Qed.

(** X12: with the right key and a JSON object whose [rule] is text, or
    absent, the intake endpoint answers 200 "Incident logged successfully"
    in every world, even one whose engine refuses every write.  It
    attempts exactly one incident insert, with the [ip], [payload] and
    [rule] of the body (["unknown"], the empty text and ["Unknown"] for
    absent members), and exactly one alert insert (source the ip, signature
    the rule, category ["Suricata Alert"], severity 2) when the rule begins
    with ["SURICATA"], none otherwise. *)
Theorem add_incident_reports_success members rule w :
  intake_rule members = JString rule ->
  exists w' stmts,
    add_incident environ str_exn (ADMIN_KEY environ) (Members members) w
    = (Ok (JSONResponse 200 [("status", "success");
                             ("message", "Incident logged successfully")]), w') /\
    executed w' = executed w ++ stmts /\
    incident_inserts stmts =
      [(intake_ip members, intake_payload members, JString rule)] /\
    alert_inserts stmts =
      (if PyStr.startswith rule "SURICATA"
       then [(intake_ip members, JString rule, "Suricata Alert", 2)]
       else []).
Proof.
  intros Hrule.
  unfold add_incident, try_clauses, bind, admin_auth.
  rewrite String.eqb_refl. simpl.
  fold (intake_ip members) (intake_payload members) (intake_rule members).
  rewrite Hrule.
  destruct (log_incident_no_alert (intake_ip members) (intake_payload members)
              (JString rule) w) as (w1 & s1 & E1 & X1 & I1 & A1).
  rewrite E1. simpl.
  destruct (PyStr.startswith rule "SURICATA").
  - unfold now. simpl.
    match goal with
    | |- context [log_suricata_alert ?t ?s ?g ?c ?v ?x] =>
        destruct (log_suricata_alert_attempt t s g c v x) as (w2 & E2 & X2 & _);
        rewrite E2
    end.
    simpl in X2. simpl.
    exists w2, (s1 ++ [InsertSuricata (clock w1) (intake_ip members)
                         (JString rule) "Suricata Alert" 2]).
    split; [reflexivity |]. split; [now rewrite X2, X1, app_assoc |].
    rewrite incident_inserts_app, alert_inserts_app, I1, A1. split; reflexivity.
  - simpl. exists w1, s1. repeat split; assumption.
Qed.

Lemma log_incident_alert_serial ip payload rule w :
  suricata_serial (db (snd (log_incident ip payload rule w))) = suricata_serial (db w).
Proof.
  destruct w as [d f e c l r].
  destruct rule as [| flag | literal | rule | items | members];
    try (run_recorder; split_faults f; reflexivity).
  run_recorder.
  split_faults f.
  - split_rule rule; reflexivity.
  - reflexivity.
  - split_rule rule.
    + split_faults f; [| split_faults f | split_faults f]; reflexivity.
    + split_faults f; [| split_faults f | split_faults f]; reflexivity.
    + split_faults f; reflexivity.
Qed.

(** X13: with the right key, a JSON object whose [rule] is text, or absent,
    and an engine that refuses nothing, the intake endpoint leaves exactly
    one new incident, without a status, with the values of the body,
    exactly one new [error] request outcome for that ip, and one alert row
    when the rule begins with ["SURICATA"], none otherwise. *)
Theorem add_incident_rows members rule w :
  intake_rule members = JString rule ->
  no_fault w = true ->
  exists w' ts ts',
    snd (add_incident environ str_exn (ADMIN_KEY environ) (Members members) w) = w' /\
    incidents (db w') =
      incidents (db w) ++
      [mk_incident (incidents_serial (db w) + 1) (clock w) (intake_ip members)
                   (intake_payload members) rule None] /\
    requests (db w') =
      requests (db w) ++
      [mk_request (requests_serial (db w) + 1) ts "error" (intake_ip members)] /\
    suricata_logs (db w') =
      suricata_logs (db w) ++
      (if PyStr.startswith rule "SURICATA"
       then [mk_suricata (suricata_serial (db w) + 1) ts' (intake_ip members)
                         rule "Suricata Alert" 2]
       else []).
Proof.
  intros Hrule Hw.
  unfold add_incident, try_clauses, bind, admin_auth.
  rewrite String.eqb_refl. simpl.
  fold (intake_ip members) (intake_payload members) (intake_rule members).
  rewrite Hrule.
  destruct (log_incident_healthy (intake_ip members) (intake_payload members)
              rule w Hw) as (w1 & ts & E1 & H1 & I1 & _ & Q1).
  destruct (log_incident_runs (intake_ip members) (intake_payload members)
              (JString rule) w) as (w1' & s1 & E1' & _ & S1 & _).
  pose proof (log_incident_alert_serial (intake_ip members) (intake_payload members)
                (JString rule) w) as N1.
  rewrite E1 in E1', N1. inversion E1'; subst w1'. rewrite E1. simpl in N1.
  simpl.
  destruct (PyStr.startswith rule "SURICATA").
  - unfold now. simpl.
    match goal with
    | |- context [log_suricata_alert ?t ?s ?g ?c ?v ?x] =>
        destruct (log_suricata_alert_attempt t s g c v x)
          as (w2 & E2 & _ & I2 & Q2 & _ & A2);
        rewrite E2
    end.
    simpl in *.
    exists w2, ts, (clock w1). split; [reflexivity |].
    rewrite I2, Q2, A2, I1, Q1, S1, N1.
    + repeat split.
    + apply no_fault_accepts in H1. exact H1.
  - simpl. exists w1, ts, 0. rewrite app_nil_r. repeat split; assumption.
Qed.

Lemma log_incident_rule_not_text ip payload rule w :
  (forall text, rule <> JString text) ->
  log_incident ip payload rule w =
  (Ok tt,
   if accepts 0 w
   then mk_world (fst (run_statement (InsertIncident ip payload rule (clock w)) (db w)))
                 (tl (faults w))
                 (executed w ++ [InsertIncident ip payload rule (clock w)])
                 (clock w + 1)
                 (logs w ++ [IncidentLogged (incidents_serial (db w) + 1) rule ip;
                             FailedToLogIncident])
                 (rag_calls w)
   else mk_world (db w) (tl (faults w))
                 (executed w ++ [InsertIncident ip payload rule (clock w)])
                 (clock w + 1) (logs w ++ [FailedToLogIncident]) (rag_calls w)).
Proof.
  intros Hrule. destruct w as [d f e c l r]. unfold accepts.
  destruct rule as [| flag | literal | rule | items | members];
    try (exfalso; exact (Hrule rule eq_refl));
    run_recorder; split_faults f; rewrite <- ?app_assoc; reflexivity.
Qed.

(** X23: with the right key and a JSON object whose [rule] is no text
    ([null], a number, a list, ...), the intake endpoint answers 500 with
    the text of the [AttributeError].  By then the incident insert has
    been sent; once the engine accepts it the incident is stored with the
    rule as given, NULL for [null].  No technique row, no request outcome
    and no alert is attempted, and the failure is logged twice, by the
    recorder and by the endpoint. *)
Theorem add_incident_rule_not_text members w :
  (forall text, intake_rule members <> JString text) ->
  exists w',
    add_incident environ str_exn (ADMIN_KEY environ) (Members members) w
    = (Ok (JSONResponse 500 [("status", "error");
                             ("message", str_exn AttributeError)]), w') /\
    executed w' =
      executed w ++
      [InsertIncident (intake_ip members) (intake_payload members)
                      (intake_rule members) (clock w)] /\
    incidents (db w') =
      incidents (db w) ++
      (if accepts 0 w
       then [mk_incident (incidents_serial (db w) + 1) (clock w) (intake_ip members)
                         (intake_payload members) (intake_rule members) None]
       else []) /\
    requests (db w') = requests (db w) /\
    ttps (db w') = ttps (db w) /\
    suricata_logs (db w') = suricata_logs (db w) /\
    exists earlier,
      logs w' = logs w ++ earlier ++ [FailedToLogIncident; FailedToLogIncident].
Proof.
  intros Hrule.
  unfold add_incident, try_clauses, bind, admin_auth.
  rewrite String.eqb_refl. simpl.
  fold (intake_ip members) (intake_payload members) (intake_rule members).
  rewrite (log_incident_rule_not_text _ _ _ w Hrule).
  unfold call_startswith.
  destruct (intake_rule members) as [| flag | literal | rule | items | entries] eqn:E;
    try (exfalso; exact (Hrule rule eq_refl));
    destruct w as [d f e c l r]; unfold accepts; simpl;
    (destruct f as [|[|] f]; simpl;
     eexists; (split; [reflexivity |]); simpl;
     (split; [reflexivity |]); (split; [rewrite ?app_nil_r; reflexivity |]);
     (split; [reflexivity |]); (split; [reflexivity |]); (split; [reflexivity |]);
     first [ exists []; rewrite <- ?app_assoc; reflexivity
           | eexists [_]; rewrite <- ?app_assoc; reflexivity ]).
Qed.

End GatewayInvariants.

(** ** The further statements at concrete requests *)

Lemma entry_points_keep_consistent_witness :
  consistent (db (fresh_world [])) /\
  consistent (db (snd (payload_inspection_middleware no_environ sample_rules
                         sample_regex rag_benign sample_str_value
                         (post_request "' OR 1=1 --") (fresh_world [])))).
Proof.
  assert (C : consistent (db (fresh_world []))) by (repeat split; constructor).
  split; [exact C |].
  exact (proj1 (entry_points_keep_consistent no_environ sample_rules sample_regex
                  rag_benign sample_str_value sample_str_exn
                  (post_request "' OR 1=1 --") "supersecretadminkey" Unparseable 1
                  (fresh_world []) C)).
Defined.

(** A signature payload sent to the intake path is not inspected. *)
Lemma internal_paths_bypass_witness :
  let r := mk_request_in "/api/incidents" "key=k" (Some "203.0.113.7")
                         (Some "' OR 1=1 --") in
  (exists prefix rest,
     In prefix ["/api/"; "/admin"; "/health"] /\ path r = prefix +++ rest) /\
  payload_inspection_middleware no_environ sample_rules sample_regex rag_benign
    sample_str_value r (fresh_world []) = (Ok Forwarded, fresh_world []).
Proof.
  cbv zeta.
  assert (H : exists prefix rest,
            In prefix ["/api/"; "/admin"; "/health"] /\
            path (mk_request_in "/api/incidents" "key=k" (Some "203.0.113.7")
                                (Some "' OR 1=1 --")) = prefix +++ rest).
  { exists "/api/", "incidents". split; [now left | reflexivity]. }
  split; [exact H |].
  exact (internal_paths_bypass no_environ sample_rules sample_regex rag_benign
           sample_str_value _ (fresh_world []) H).
Defined.


Lemma add_incident_unauthorized_witness :
  "guess" <> ADMIN_KEY no_environ /\
  add_incident no_environ sample_str_exn "guess"
    (Members [("rule", JString "SURICATA ET SCAN")]) (fresh_world [])
  = (Raised (HTTPException 401 "Unauthorized access."), fresh_world []).
Proof.
  assert (H : "guess" <> ADMIN_KEY no_environ) by (vm_compute; discriminate).
  split; [exact H |].
  exact (add_incident_unauthorized no_environ sample_str_exn "guess" _
           (fresh_world []) H).
Defined.

Lemma add_incident_unreadable_body_witness :
  exists w',
    add_incident no_environ sample_str_exn (ADMIN_KEY no_environ) Unparseable
      (fresh_world [])
    = (Ok (JSONResponse 500 [("status", "error"); ("message", "error")]), w') /\
    db w' = db (fresh_world []).
Proof.
  destruct (add_incident_unreadable_body no_environ sample_str_exn Unparseable
              (fresh_world []) (or_introl eq_refl))
    as (e & w' & E & _ & _ & Hdb & _).
  exists w'. split; [exact E | exact Hdb].
Defined.

Lemma add_incident_reports_success_witness :
  intake_rule suricata_body = JString "SURICATA ET SCAN" /\
  exists w' stmts,
    add_incident no_environ sample_str_exn (ADMIN_KEY no_environ)
      (Members suricata_body) (fresh_world [true; true; true])
    = (Ok (JSONResponse 200 [("status", "success");
                             ("message", "Incident logged successfully")]), w') /\
    executed w' = executed (fresh_world [true; true; true]) ++ stmts /\
    incident_inserts stmts =
      [(JString "10.0.0.9", JString EmptyString, JString "SURICATA ET SCAN")] /\
    alert_inserts stmts =
      [(JString "10.0.0.9", JString "SURICATA ET SCAN", "Suricata Alert", 2)].
Proof.
  split; [reflexivity |].
  exact (add_incident_reports_success no_environ sample_str_exn suricata_body
           "SURICATA ET SCAN" (fresh_world [true; true; true]) eq_refl).
Defined.

Lemma add_incident_rows_witness :
  intake_rule suricata_body = JString "SURICATA ET SCAN" /\
  no_fault (fresh_world []) = true /\
  exists w',
    snd (add_incident no_environ sample_str_exn (ADMIN_KEY no_environ)
           (Members suricata_body) (fresh_world [])) = w' /\
    map rule_triggered (incidents (db w')) = [JString "SURICATA ET SCAN"] /\
    map inc_status (incidents (db w')) = [None] /\
    map sur_signature (suricata_logs (db w')) = [JString "SURICATA ET SCAN"].
Proof.
  split; [reflexivity |]. split; [reflexivity |].
  destruct (add_incident_rows no_environ sample_str_exn suricata_body
              "SURICATA ET SCAN" (fresh_world []) eq_refl eq_refl)
    as (w' & ts & ts' & E & Hi & _ & Ha).
  exists w'. split; [exact E |]. rewrite Hi, Ha. repeat split.
Defined.

(** A body whose [rule] is [null]: the incident is stored with a NULL rule
    and no request outcome, and the answer is 500. *)
Lemma add_incident_rule_not_text_witness :
  (forall text, intake_rule null_rule_body <> JString text) /\
  exists w',
    add_incident no_environ sample_str_exn (ADMIN_KEY no_environ)
      (Members null_rule_body) (fresh_world [])
    = (Ok (JSONResponse 500 [("status", "error"); ("message", "error")]), w') /\
    map rule_triggered (incidents (db w')) = [JNull] /\
    requests (db w') = [].
Proof.
  assert (H : forall text, intake_rule null_rule_body <> JString text)
    by (intros text; vm_compute; discriminate).
  split; [exact H |].
  destruct (add_incident_rule_not_text no_environ sample_str_exn null_rule_body
              (fresh_world []) H)
    as (w' & E & _ & Hi & Hq & _).
  exists w'. split; [exact E |]. rewrite Hi, Hq. split; reflexivity.
Defined.

(** * Properties of the read side *)

(** ** [ORDER BY ... DESC] *)

Lemma insert_desc_perm {A} (key : A -> Z) x l :
  Permutation (insert_desc key x l) (x :: l).
Proof.
  induction l as [|y l IH]; simpl; [apply Permutation_refl |].
  destruct (key y <? key x); [apply Permutation_refl |].
  eapply Permutation_trans; [apply perm_skip; exact IH | apply perm_swap].
Qed.

Lemma order_by_desc_perm {A} (key : A -> Z) l :
  Permutation (order_by_desc key l) l.
Proof.
  induction l as [|x l IH]; simpl; [constructor |].
  eapply Permutation_trans; [apply insert_desc_perm | now apply perm_skip].
Qed.

Lemma insert_desc_sorted {A} (key : A -> Z) x l :
  StronglySorted (fun a b => key b <= key a) l ->
  StronglySorted (fun a b => key b <= key a) (insert_desc key x l).
Proof.
  induction l as [|y l IH]; intros Hs; simpl.
  - constructor; constructor.
  - inversion Hs as [|? ? Hl Hy]; subst.
    destruct (Z.ltb_spec (key y) (key x)).
    + constructor; [exact Hs |]. constructor; [lia |].
      eapply Forall_impl; [| exact Hy]. simpl. intros; lia.
    + constructor; [now apply IH |].
      apply Forall_forall. intros z Hz.
      apply (Permutation_in _ (insert_desc_perm key x l)) in Hz.
      destruct Hz as [<- | Hz]; [lia |].
      exact (proj1 (Forall_forall _ _) Hy z Hz).
Qed.

Lemma order_by_desc_sorted {A} (key : A -> Z) l :
  StronglySorted (fun a b => key b <= key a) (order_by_desc key l).
Proof.
  induction l as [|x l IH]; simpl; [constructor | now apply insert_desc_sorted].
Qed.

Lemma strongly_sorted_across {A} (R : A -> A -> Prop) l1 l2 :
  StronglySorted R (l1 ++ l2) ->
  StronglySorted R l1 /\ forall a b, In a l1 -> In b l2 -> R a b.
Proof.
  induction l1 as [|x l1 IH]; simpl; intros Hs.
  - split; [constructor | intros a b []].
  - inversion Hs as [|? ? Hl Hx]; subst. destruct (IH Hl) as [S1 Hab].
    apply Forall_app in Hx. destruct Hx as [Hx1 Hx2]. split.
    + now constructor.
    + intros a b [<- | Ha] Hb; [| now apply Hab].
      exact (proj1 (Forall_forall _ _) Hx2 b Hb).
Qed.

(** ** The buckets of [blocked_requests] *)

Lemma bump_total key buckets :
  total_blocked (bump key buckets) = total_blocked buckets + 1.
Proof.
  unfold total_blocked. induction buckets as [|[k c] rest IH]; simpl; [lia |].
  destruct (String.eqb key k); simpl; lia.
Qed.

Lemma bump_keys key buckets k' :
  In k' (map fst (bump key buckets)) <-> k' = key \/ In k' (map fst buckets).
Proof.
  induction buckets as [|[k c] rest IH]; simpl.
  - intuition.
  - destruct (String.eqb_spec key k) as [-> | Hne]; simpl.
    + intuition.
    + rewrite IH. intuition.
Qed.

Lemma bump_nodup key buckets :
  NoDup (map fst buckets) -> NoDup (map fst (bump key buckets)).
Proof.
  induction buckets as [|[k c] rest IH]; simpl; intros Hn.
  - constructor; [intros [] | constructor].
  - inversion Hn as [|? ? Hk Hrest]; subst.
    destruct (String.eqb_spec key k) as [-> | Hne]; simpl.
    + now constructor.
    + constructor; [| now apply IH].
      rewrite bump_keys. intros [E | Hin]; [congruence | contradiction].
Qed.

Lemma bump_each (P : string -> Prop) key buckets :
  P key ->
  Forall (fun item => 1 <= snd item /\ P (fst item)) buckets ->
  Forall (fun item => 1 <= snd item /\ P (fst item)) (bump key buckets).
Proof.
  intros Hkey. induction buckets as [|[k c] rest IH]; simpl; intros Hf.
  - constructor; [simpl; split; [lia | exact Hkey] | constructor].
  - inversion Hf as [|? ? [Hc Hk] Hrest]; subst. simpl in *.
    destruct (String.eqb key k); constructor; simpl; auto. split; [lia | exact Hk].
Qed.

Lemma time_key_on_mark dt : five_minute_mark (time_key dt).
Proof.
  destruct dt as [h m Hh Hm]. unfold time_key. simpl.
  apply andb_true_iff in Hh, Hm. destruct Hh as [Hh1 Hh2], Hm as [Hm1 Hm2].
  apply Z.leb_le in Hh1, Hm1. apply Z.ltb_lt in Hh2, Hm2.
  exists h, (m / 5). split; [lia |]. split.
  - split; [apply Z.div_pos; lia | apply Z.div_lt_upper_bound; lia].
  - now rewrite (Z.mul_comm (m / 5) 5).
Qed.

Lemma insert_item_perm x l : Permutation (insert_item x l) (x :: l).
Proof.
  induction l as [|y l IH]; simpl; [apply Permutation_refl |].
  destruct (item_leb x y); [apply Permutation_refl |].
  eapply Permutation_trans; [apply perm_skip; exact IH | apply perm_swap].
Qed.

Lemma sorted_items_perm buckets : Permutation (sorted_items buckets) buckets.
Proof.
  induction buckets as [|x l IH]; simpl; [constructor |].
  eapply Permutation_trans; [apply insert_item_perm | now apply perm_skip].
Qed.

Lemma leb_ne_ltb a b : String.leb a b = true -> a <> b -> String.ltb a b = true.
Proof.
  unfold String.leb, String.ltb. intros Hle Hne.
  destruct (String.compare a b) eqn:E; try reflexivity; try discriminate.
  apply String.compare_eq_iff in E. contradiction.
Qed.

Lemma item_order x y :
  fst x <> fst y ->
  if item_leb x y then String.ltb (fst x) (fst y) = true
  else String.ltb (fst y) (fst x) = true.
Proof.
  intros Hne. unfold item_leb.
  destruct (String.eqb_spec (fst x) (fst y)) as [E | _]; [contradiction |].
  destruct (String.leb (fst x) (fst y)) eqn:Hle.
  - now apply leb_ne_ltb.
  - apply leb_ne_ltb; [| congruence].
    destruct (String.leb_total (fst x) (fst y)); congruence.
Qed.

Lemma insert_item_sorted x l :
  NoDup (map fst (x :: l)) ->
  Sorted (fun a b => String.ltb (fst a) (fst b) = true) l ->
  Sorted (fun a b => String.ltb (fst a) (fst b) = true) (insert_item x l).
Proof.
  induction l as [|y l IH]; simpl; intros Hn Hs.
  - repeat constructor.
  - inversion Hn as [|? ? Hx Hn']; subst. inversion Hn' as [|? ? Hy Hn'']; subst.
    assert (Hxy : fst x <> fst y) by (intros E; apply Hx; now left).
    pose proof (item_order x y Hxy) as Ho.
    inversion Hs as [|? ? Hl Hhd]; subst.
    destruct (item_leb x y).
    + constructor; [exact Hs | now constructor].
    + constructor.
      * apply IH; [| exact Hl].
        simpl. constructor; [| exact Hn''].
        intros Hin. apply Hx. now right.
      * destruct l as [|z l]; simpl; [now constructor |].
        destruct (item_leb x z); constructor; [exact Ho |].
        now inversion Hhd.
Qed.

Lemma sorted_items_sorted buckets :
  NoDup (map fst buckets) ->
  Sorted (fun a b => String.ltb (fst a) (fst b) = true) (sorted_items buckets).
Proof.
  induction buckets as [|x l IH]; simpl; intros Hn; [constructor |].
  inversion Hn as [|? ? Hx Hn']; subst.
  apply insert_item_sorted; [| now apply IH].
  simpl. constructor; [| ].
  - intros Hin. apply Hx.
    apply (Permutation_in _ (Permutation_map fst (sorted_items_perm l))). exact Hin.
  - apply (Permutation_NoDup (Permutation_sym (Permutation_map fst (sorted_items_perm l)))).
    exact Hn'.
Qed.

Lemma total_blocked_perm b1 b2 :
  Permutation b1 b2 -> total_blocked b1 = total_blocked b2.
Proof.
  unfold total_blocked. induction 1; simpl; lia.
Qed.

(** ** The examples and the mapping of [get_ttp_data] *)

Lemma length_append s1 s2 :
  String.length (s1 +++ s2) = (String.length s1 + String.length s2)%nat.
Proof. induction s1 as [|c s1 IH]; simpl; [reflexivity | now rewrite IH]. Qed.

Lemma len_append s1 s2 :
  PyStr.len (s1 +++ s2) = (PyStr.len s1 + PyStr.len s2)%nat.
Proof.
  induction s1 as [|c s1 IH]; simpl; [reflexivity |].
  destruct (PyStr.is_continuation c); rewrite IH; reflexivity.
Qed.

Lemma len_take n s :
  PyStr.len (PyStr.take n s) = Nat.min n (PyStr.len s).
Proof.
  revert n. induction s as [|c s IH]; intros n; simpl.
  - now rewrite Nat.min_0_r.
  - destruct (PyStr.is_continuation c) eqn:Hc; simpl.
    + rewrite Hc. apply IH.
    + destruct n as [|n]; simpl; [reflexivity |].
      rewrite Hc, IH. reflexivity.
Qed.

Lemma or_na_snippet sample_payload :
  or_na (snippet_of sample_payload) = example_for sample_payload.
Proof.
  destruct sample_payload as [text|]; [| reflexivity].
  unfold snippet_of, example_for.
  destruct text as [|c text]; [reflexivity |].
  cbn [PyStr.truthy andb String.eqb].
  remember (String c text) as s eqn:Hs.
  remember 250%nat as n eqn:Hn.
  destruct (Nat.ltb_spec n (PyStr.len s)) as [Hlt | Hge].
  - destruct (Nat.leb_spec (PyStr.len s) n) as [Hle | _]; [lia |].
    unfold or_na. destruct (PyStr.take n s +++ "...") eqn:E; [| reflexivity].
    apply (f_equal String.length) in E. rewrite length_append in E. simpl in E. lia.
  - destruct (Nat.leb_spec (PyStr.len s) n) as [_ | Hgt]; [| lia].
    subst s. reflexivity.
Qed.

Lemma example_for_bounds sample_payload :
  example_for sample_payload <> EmptyString /\
  (PyStr.len (example_for sample_payload) <= 253)%nat.
Proof.
  unfold example_for. destruct sample_payload as [text|]; [| split; [discriminate | simpl; lia]].
  destruct (String.eqb_spec text EmptyString) as [-> | Hne]; [split; [discriminate | simpl; lia] |].
  remember 250%nat as n eqn:Hn.
  destruct (Nat.leb_spec (PyStr.len text) n) as [Hle | Hgt].
  - split; [exact Hne | lia].
  - split.
    + intros E. apply (f_equal String.length) in E.
      rewrite length_append in E. simpl in E. lia.
    + rewrite len_append, len_take. simpl. lia.
Qed.

(** A payload of 200 characters is shown whole, however many bytes it
    takes; one of 251 characters is cut after the 250th. *)
Lemma example_for_counts_characters :
  String.length accented_payload = 400%nat /\
  example_for (Some accented_payload) = accented_payload /\
  example_for (Some (accented_payload +++ accented_payload)) =
    String.concat EmptyString (repeat (PyStr.utf8 233) 250) +++ "...".
Proof. vm_compute. repeat split. Qed.

Lemma mitre_lookup rule :
  match assoc rule MITRE_MAP with
  | Some _ => mapped_rule rule
  | None => ~ mapped_rule rule
  end.
Proof.
  unfold MITRE_MAP, mapped_rule. cbn [assoc].
  repeat match goal with
  | |- context [String.eqb rule ?k] =>
      destruct (String.eqb_spec rule k) as [-> | ?]; [simpl; tauto |]
  end.
  simpl. intuition congruence.
Qed.

Section DashboardFacts.

Variable environ : string -> option string.
Variable isoformat : Z -> string.
Variable fromisoformat : string -> option datetime.
Variable aggregate_ttps : database_state -> Z -> option (list rollup_row).
Variable str_exn : exn -> string.

#[local] Set Default Proof Using "Type".

Lemma get_incidents_runs w :
  exists rows lg w',
    get_incidents isoformat w = (Ok (map (to_dict isoformat) rows, lg), w') /\
    (length rows <= 500)%nat.
Proof.
  destruct w as [d f e c l r]. unfold get_incidents, try_except, bind, fetch_all, ret.
  remember 500%nat as n eqn:Hn.
  split_faults f.
  - do 3 eexists. split; [reflexivity | apply firstn_le_length].
  - exists []. do 2 eexists. split; [reflexivity | simpl; lia].
  - do 3 eexists. split; [reflexivity | apply firstn_le_length].
Qed.

(** X14: [get_incidents] never raises and writes nothing.  When the engine
    refuses the query it gives the empty list and logs the failure.
    Otherwise it lists stored incidents only, at most 500 of them, newest
    first; every stored incident it leaves out is no newer than any it
    lists, and with at most 500 incidents stored none is left out. *)
Theorem get_incidents_lists_most_recent w :
  exists rows rest lg w',
    get_incidents isoformat w = (Ok (map (to_dict isoformat) rows, lg), w') /\
    db w' = db w /\ executed w' = executed w /\ logs w' = logs w /\
    (length rows <= 500)%nat /\
    (accepts 0 w = false -> rows = [] /\ lg = [FailedToFetchIncidents]) /\
    (accepts 0 w = true ->
       lg = [] /\
       Permutation (rows ++ rest) (incidents (db w)) /\
       StronglySorted (fun a b => inc_timestamp b <= inc_timestamp a) rows /\
       (forall listed left_out, In listed rows -> In left_out rest ->
          inc_timestamp left_out <= inc_timestamp listed) /\
       ((length (incidents (db w)) <= 500)%nat -> rest = [])).
Proof.
  destruct w as [d f e c l r]. unfold accepts, get_incidents, try_except, bind,
    fetch_all, ret.
  remember 500%nat as n eqn:Hn.
  set (sorted := order_by_desc inc_timestamp (incidents d)).
  assert (Hperm : Permutation (firstn n sorted ++ skipn n sorted) (incidents d))
    by (rewrite firstn_skipn; apply order_by_desc_perm).
  assert (Hsort : StronglySorted (fun a b => inc_timestamp b <= inc_timestamp a)
                    (firstn n sorted ++ skipn n sorted))
    by (rewrite firstn_skipn; apply order_by_desc_sorted).
  apply strongly_sorted_across in Hsort. destruct Hsort as [Hs1 Hs2].
  assert (Hall : (length (incidents d) <= n)%nat -> skipn n sorted = []).
  { intros Hlen. apply skipn_all2.
    unfold sorted. now rewrite (Permutation_length (order_by_desc_perm _ _)). }
  assert (Hle : (length (firstn n sorted) <= n)%nat) by apply firstn_le_length.
  split_faults f.
  - exists (firstn n sorted), (skipn n sorted). do 2 eexists.
    split; [reflexivity |]. simpl. repeat split; auto; discriminate.
  - exists [], []. do 2 eexists. split; [reflexivity |]. simpl.
    repeat split; try discriminate. lia.
  - exists (firstn n sorted), (skipn n sorted). do 2 eexists.
    split; [reflexivity |]. simpl. repeat split; auto; discriminate.
Qed.

(** X15: the admin listing is behind the key: with a key other than
    [ADMIN_KEY] it raises the 401 [HTTPException] and does not query the
    engine; with the key it is [get_incidents]. *)
Theorem admin_list_incidents_guarded key w :
  (key <> ADMIN_KEY environ ->
   admin_list_incidents environ isoformat key w
   = (Raised (HTTPException 401 "Unauthorized access."), w)) /\
  (key = ADMIN_KEY environ ->
   admin_list_incidents environ isoformat key w = get_incidents isoformat w).
Proof.
  unfold admin_list_incidents, bind, admin_auth. split; intros Hkey.
  - apply String.eqb_neq in Hkey. now rewrite Hkey.
  - apply String.eqb_eq in Hkey. rewrite Hkey. unfold ret.
    destruct (get_incidents isoformat w) as [[x|x] w']; reflexivity.
Qed.

(** ** [blocked_requests] *)

Lemma tally_total listed buckets :
  total_blocked (tally fromisoformat listed buckets) =
  total_blocked buckets + Z.of_nat (length (filter (parses fromisoformat) listed)).
Proof.
  revert buckets. induction listed as [|inc rest IH]; intros buckets; simpl; [lia |].
  unfold parses at 1. destruct (fromisoformat (dict_timestamp inc)) as [dt|].
  - rewrite IH, bump_total. simpl length. lia.
  - apply IH.
Qed.

Lemma tally_buckets listed buckets :
  NoDup (map fst buckets) ->
  Forall (fun item => 1 <= snd item /\ five_minute_mark (fst item)) buckets ->
  NoDup (map fst (tally fromisoformat listed buckets)) /\
  Forall (fun item => 1 <= snd item /\ five_minute_mark (fst item))
         (tally fromisoformat listed buckets).
Proof.
  revert buckets. induction listed as [|inc rest IH]; intros buckets Hn Hf; simpl.
  - now split.
  - destruct (fromisoformat (dict_timestamp inc)) as [dt|]; [| now apply IH].
    apply IH; [now apply bump_nodup |].
    apply bump_each; [apply time_key_on_mark | exact Hf].
Qed.

Lemma get_incidents_total w :
  exists listed lg w', get_incidents isoformat w = (Ok (listed, lg), w') /\
                       (length listed <= 500)%nat.
Proof.
  destruct (get_incidents_runs w) as (rows & lg & w' & E & Hlen).
  exists (map (to_dict isoformat) rows), lg, w'. split; [exact E |].
  now rewrite length_map.
Qed.

(** X16: [blocked_requests] never raises, and its counts add up to the
    number of listed incidents whose timestamp parses: every such incident
    is counted in exactly one bucket, the others in none, so the counts
    never add up to more than 500. *)
Theorem blocked_requests_counts_listed w :
  exists listed buckets lg w',
    get_incidents isoformat w = (Ok (listed, lg), w') /\
    blocked_requests isoformat fromisoformat w = (Ok (buckets, lg), w') /\
    total_blocked buckets =
      Z.of_nat (length (filter (parses fromisoformat) listed)) /\
    total_blocked buckets <= 500.
Proof.
  destruct (get_incidents_total w) as (listed & lg & w' & E & Hlen).
  exists listed, (sorted_items (tally fromisoformat listed [])), lg, w'.
  split; [exact E |]. split.
  - unfold blocked_requests. rewrite (bind_ok _ _ _ _ _ E). reflexivity.
  - rewrite (total_blocked_perm _ _ (sorted_items_perm _)), tally_total.
    split; [reflexivity |].
    pose proof (filter_length_le (parses fromisoformat) listed).
    unfold total_blocked. simpl. lia.
Qed.

(** X17: the buckets [blocked_requests] answers with come in strictly
    increasing order of their key, so no key comes twice; every key reads
    [HH:MM] on a five-minute mark of the day, and every bucket counts at
    least one incident. *)
Theorem blocked_requests_buckets w :
  exists buckets lg w',
    blocked_requests isoformat fromisoformat w = (Ok (buckets, lg), w') /\
    Sorted (fun a b => String.ltb (fst a) (fst b) = true) buckets /\
    Forall (fun item => 1 <= snd item /\ five_minute_mark (fst item)) buckets.
Proof.
  destruct (get_incidents_total w) as (listed & lg & w' & E & _).
  exists (sorted_items (tally fromisoformat listed [])), lg, w'.
  destruct (tally_buckets listed [] (NoDup_nil _) (Forall_nil _)) as [Hn Hf].
  split; [| split].
  - unfold blocked_requests. rewrite (bind_ok _ _ _ _ _ E). reflexivity.
  - now apply sorted_items_sorted.
  - apply Forall_forall. intros item Hin.
    apply (Permutation_in _ (sorted_items_perm _)) in Hin.
    exact (proj1 (Forall_forall _ _) Hf item Hin).
Qed.

(** ** [get_ttp_data] *)

Lemma ttp_of_unknown data :
  te_id (ttp_of isoformat data) = "Unknown" <-> ~ mapped_rule (rr_rule_triggered data).
Proof.
  unfold ttp_of. cbn [te_id].
  pose proof (mitre_lookup (rr_rule_triggered data)) as H.
  unfold MITRE_MAP in *. cbn [assoc] in *.
  repeat match goal with
  | |- context [String.eqb ?r ?k] =>
      destruct (String.eqb r k); [simpl; split; [discriminate | tauto] |]
  end.
  simpl. tauto.
Qed.

(** X18: [get_ttp_data] never raises and writes nothing.  It answers either
    with a list of entries, each with an example that is never empty and
    never longer than 253 characters, or, when the engine refuses the
    query, with a 500 response that carries the text of the error, after
    one error line. *)
Theorem get_ttp_data_answers limit w :
  exists answer lg w',
    get_ttp_data isoformat aggregate_ttps str_exn limit w = (Ok (answer, lg), w') /\
    db w' = db w /\ executed w' = executed w /\ logs w' = logs w /\
    rag_calls w' = rag_calls w /\
    match answer with
    | TtpList entries =>
        lg = [] /\
        Forall (fun e => te_example e <> EmptyString /\
                         (PyStr.len (te_example e) <= 253)%nat) entries
    | TtpFailure r =>
        lg = [CouldNotFetchTTPData] /\
        r = JSONResponse 500 [("error", str_exn DatabaseError)]
    end.
Proof.
  destruct w as [d f e c l r].
  assert (Hall : forall rows,
    Forall (fun e => te_example e <> EmptyString /\
                     (PyStr.len (te_example e) <= 253)%nat)
           (map (ttp_of isoformat) rows)).
  { intros rows. apply Forall_forall. intros x Hin.
    apply in_map_iff in Hin. destruct Hin as (row & <- & _).
    unfold ttp_of. cbn [te_example]. rewrite or_na_snippet.
    apply example_for_bounds. }
  unfold get_ttp_data, try_except, bind, fetch_all, ret.
  split_faults f; try destruct (aggregate_ttps d limit) as [rows|]; simpl;
    do 3 eexists; (split; [reflexivity |]); simpl; auto 10.
Qed.

(** X19: when the engine accepts the query, [get_ttp_data] answers with one
    entry per row of the roll-up, in the engine's order, under the row's
    rule name and count.  The example is the sampled payload itself when
    that has at most 250 characters, its first 250 characters followed by
    three dots when it is longer, and [N/A] when it is NULL or empty.  The
    technique is [Unknown] exactly for the rule names that are not, letter
    for letter, one of the four names of [MITRE_MAP]. *)
Theorem get_ttp_data_entries limit w rows :
  accepts 0 w = true ->
  aggregate_ttps (db w) limit = Some rows ->
  exists entries w',
    get_ttp_data isoformat aggregate_ttps str_exn limit w = (Ok (TtpList entries, []), w') /\
    map te_name entries = map rr_rule_triggered rows /\
    map te_count entries = map rr_count rows /\
    map te_example entries = map (fun row => example_for (rr_sample_payload row)) rows /\
    Forall (fun e => te_id e = "Unknown" <-> ~ mapped_rule (te_name e)) entries.
Proof.
  destruct w as [d f e c l r]. unfold accepts. simpl. intros Hacc Hrows.
  assert (Hf : match f with [] => false | b :: _ => b end = false).
  { destruct f as [|[|] f]; simpl in Hacc; congruence. }
  exists (map (ttp_of isoformat) rows). eexists.
  split; [| split; [| split; [| split]]].
  - unfold get_ttp_data, try_except, bind, fetch_all, ret. simpl.
    rewrite Hf, Hrows. reflexivity.
  - rewrite map_map. reflexivity.
  - rewrite map_map. reflexivity.
  - rewrite map_map. apply map_ext. intros row.
    unfold ttp_of. cbn [te_example]. apply or_na_snippet.
  - apply Forall_forall. intros x Hin.
    apply in_map_iff in Hin. destruct Hin as (row & <- & _).
    apply ttp_of_unknown.
Qed.

End DashboardFacts.

(** X20: a block of the semantic stage is recorded under a rule name that
    begins with [RAG: ], which is none of the names of [MITRE_MAP]: in the
    roll-up of [get_ttp_data] such incidents always come as technique
    [Unknown], tactic [Unmapped]. *)
Theorem semantic_blocks_roll_up_unmapped
    (str_value : json -> string) (isoformat : Z -> string)
    (members : list (string * json)) (count last_seen : Z)
    (sample_payload sample_ip : option string) :
  let entry := ttp_of isoformat
                 (mk_rollup (rag_rule_name str_value members) count last_seen
                            sample_payload sample_ip) in
  te_name entry = rag_rule_name str_value members /\
  te_id entry = "Unknown" /\ te_tactic entry = "Unmapped".
Proof.
  unfold ttp_of, rag_rule_name. cbn [rr_rule_triggered]. simpl. auto.
Qed.

Lemma get_ttp_data_entries_witness :
  exists entries w',
    get_ttp_data sample_isoformat sample_aggregate sample_str_exn 100 (fresh_world [])
      = (Ok (TtpList entries, []), w') /\
    map te_name entries = ["XSS"; "RAG: odd body"] /\
    map te_count entries = [3; 1] /\
    map te_example entries = ["<script>alert(1)</script>"; "N/A"] /\
    Forall (fun e => te_id e = "Unknown" <-> ~ mapped_rule (te_name e)) entries.
Proof.
  apply (get_ttp_data_entries sample_isoformat sample_aggregate sample_str_exn
           100 (fresh_world [])
           [mk_rollup "XSS" 3 0 (Some "<script>alert(1)</script>") (Some "10.0.0.7");
            mk_rollup "RAG: odd body" 1 0 None None]).
  - reflexivity.
  - reflexivity.
Defined.

(** * Properties of the start-up *)

Lemma setup_attempt_outcomes s :
  (exists s',
     setup_attempt s = (Ok tt, s') /\
     su_sent s' = su_sent s ++ all_tables /\
     su_logs s' = su_logs s ++ [InitializingTables; TablesConfirmed] /\
     su_slept s' = su_slept s /\
     refusals (su_faults s') = refusals (su_faults s)) \/
  (exists s' sent,
     setup_attempt s = (Raised DatabaseError, s') /\
     su_sent s' = su_sent s ++ sent /\
     (1 <= length sent <= 4)%nat /\
     su_logs s' = su_logs s ++ [InitializingTables; DatabaseSetupFailed] /\
     su_slept s' = su_slept s /\
     S (refusals (su_faults s')) = refusals (su_faults s)).
Proof.
  destruct s as [f sent slept lg].
  destruct f as [|[|] [|[|] [|[|] [|[|] f]]]];
    first
      [ left; eexists; split; [reflexivity |]; cbn;
        rewrite <- ?app_assoc; cbn; auto
      | right; do 2 eexists; split; [reflexivity |]; cbn;
        split; [rewrite <- ?app_assoc; cbn; reflexivity |];
        cbn; rewrite <- ?app_assoc; cbn; auto with arith ].
Qed.

Lemma failed_attempts_S n :
  failed_attempts (S n) = [InitializingTables; DatabaseSetupFailed] ++ failed_attempts n.
Proof. reflexivity. Qed.

Lemma retry_from_ready n : forall s,
  (refusals (su_faults s) <= n)%nat ->
  exists s' failed earlier,
    retry_from n 2 setup_attempt s = (TablesReady, s') /\
    (failed <= n)%nat /\
    su_slept s' = su_slept s + 2 * Z.of_nat failed /\
    su_logs s' = su_logs s ++ failed_attempts failed
                           ++ [InitializingTables; TablesConfirmed] /\
    su_sent s' = su_sent s ++ earlier ++ all_tables /\
    (failed <= length earlier <= 4 * failed)%nat.
Proof.
  induction n as [|n IH]; intros s Hle.
  - destruct (setup_attempt_outcomes s)
      as [(s' & E & Hs & Hl & Hz & _) | (s' & sent & _ & _ & _ & _ & _ & Hr)];
      [| lia].
    exists s', 0%nat, []. simpl. rewrite E.
    repeat split; auto; lia.
  - destruct (setup_attempt_outcomes s)
      as [(s' & E & Hs & Hl & Hz & _) | (s' & sent & E & Hs & Hlen & Hl & Hz & Hr)].
    + exists s', 0%nat, []. simpl. rewrite E.
      repeat split; auto; lia.
    + destruct (IH (sleep 2 s')) as (s'' & failed & earlier & E2 & Hf & Hz2 & Hl2 & Hs2 & Hlen2);
        [simpl; lia |].
      exists s'', (S failed), (sent ++ earlier).
      cbn [retry_from]. rewrite E. split; [exact E2 |].
      simpl su_slept in Hz2. simpl su_logs in Hl2. simpl su_sent in Hs2.
      split; [lia |]. split; [lia |]. split.
      * rewrite Hl2, Hl, failed_attempts_S, <- !app_assoc. reflexivity.
      * split; [rewrite Hs2, Hs, <- !app_assoc; reflexivity |].
        rewrite length_app. lia.
Qed.

Lemma retry_from_gives_up n : forall s last s',
  retry_from n 2 setup_attempt s = (RetryError last, s') ->
  last = DatabaseError /\
  su_slept s' = su_slept s + 2 * Z.of_nat n /\
  su_logs s' = su_logs s ++ failed_attempts (S n) /\
  (S n + refusals (su_faults s') = refusals (su_faults s))%nat /\
  exists sent,
    su_sent s' = su_sent s ++ sent /\ (S n <= length sent <= 4 * S n)%nat.
Proof.
  induction n as [|n IH]; intros s last s' Hrun; cbn [retry_from] in Hrun;
    destruct (setup_attempt_outcomes s)
      as [(s1 & E & _) | (s1 & sent & E & Hs & Hlen & Hl & Hz & Hr)];
    rewrite E in Hrun; try discriminate.
  - injection Hrun as <- <-.
    split; [reflexivity |]. split; [lia |]. split; [exact Hl |].
    split; [lia |]. exists sent. split; [exact Hs | lia].
  - apply IH in Hrun. destruct Hrun as (-> & Hz2 & Hl2 & Hr2 & sent2 & Hs2 & Hlen2).
    simpl su_slept in Hz2. simpl su_logs in Hl2. simpl su_sent in Hs2.
    simpl su_faults in Hr2.
    split; [reflexivity |]. split; [lia |]. split.
    + rewrite Hl2, Hl, (failed_attempts_S (S n)), <- !app_assoc. reflexivity.
    + split; [lia |].
      exists (sent ++ sent2). split; [rewrite Hs2, Hs, <- app_assoc; reflexivity |].
      rewrite length_app. lia.
Qed.

(** X21: [setup_database] gets through as long as the engine refuses at
    most four of the statements to come: every failed attempt is logged
    and followed by a wait of two seconds, and the last attempt sends the
    four CREATE TABLE statements in order, all accepted.  At most four
    attempts fail first, so at most eight seconds are spent waiting. *)
Theorem setup_database_survives_four_refusals s :
  (refusals (su_faults s) <= 4)%nat ->
  exists s' failed earlier,
    setup_database s = (TablesReady, s') /\
    (failed <= 4)%nat /\
    su_slept s' = su_slept s + 2 * Z.of_nat failed /\
    su_logs s' = su_logs s ++ failed_attempts failed
                           ++ [InitializingTables; TablesConfirmed] /\
    su_sent s' = su_sent s ++ earlier ++ all_tables /\
    (failed <= length earlier <= 4 * failed)%nat.
Proof. intros Hle. exact (retry_from_ready 4 s Hle). Qed.

(** X22: [setup_database] gives up only after five failed attempts in a
    row: the error it raises wraps the engine's, eight seconds have been
    spent waiting, five failures have been logged and nothing else, the
    engine has refused five statements, the last of each attempt, and
    between five and twenty statements have been sent. *)
Theorem setup_database_gives_up_after_five s last s' :
  setup_database s = (RetryError last, s') ->
  last = DatabaseError /\
  su_slept s' = su_slept s + 8 /\
  su_logs s' = su_logs s ++ failed_attempts 5 /\
  (5 + refusals (su_faults s') = refusals (su_faults s))%nat /\
  exists sent,
    su_sent s' = su_sent s ++ sent /\ (5 <= length sent <= 20)%nat.
Proof. intros Hrun. exact (retry_from_gives_up 4 s last s' Hrun). Qed.

Lemma setup_database_survives_four_refusals_witness :
  exists s' failed earlier,
    setup_database (fresh_setup [true; false; true; false; false; true]) = (TablesReady, s') /\
    (failed <= 4)%nat /\
    su_slept s' = 0 + 2 * Z.of_nat failed /\
    su_logs s' = [] ++ failed_attempts failed
                    ++ [InitializingTables; TablesConfirmed] /\
    su_sent s' = [] ++ earlier ++ all_tables /\
    (failed <= length earlier <= 4 * failed)%nat.
Proof.
  apply (setup_database_survives_four_refusals
           (fresh_setup [true; false; true; false; false; true])).
  unfold refusals. simpl. lia.
Defined.

Lemma setup_database_gives_up_after_five_witness :
  let s := fresh_setup [true; true; false; true; true; true] in
  let s' := snd (setup_database s) in
  setup_database s = (RetryError DatabaseError, s') /\
  DatabaseError = DatabaseError /\
  su_slept s' = su_slept s + 8 /\
  su_logs s' = su_logs s ++ failed_attempts 5 /\
  (5 + refusals (su_faults s') = refusals (su_faults s))%nat /\
  exists sent,
    su_sent s' = su_sent s ++ sent /\ (5 <= length sent <= 20)%nat.
Proof.
  intros s s'. split; [vm_compute; reflexivity |].
  apply (setup_database_gives_up_after_five s DatabaseError s').
  vm_compute. reflexivity.
Defined.
